(** * Landmark alignment plugins of OpenBR: Procrustes alignment and
      Delaunay piecewise warping ([openbr/plugins/landmarks.cpp]), and
      the decision-tree plugins ([openbr/plugins/tree.cpp])

    A shallow embedding of [ProcrustesTransform] and [DelaunayTransform],
    followed by [MeanTransform], [ForestTransform],
    [ForestInductionTransform] and [AdaBoostTransform].

    Conventions of the embedding.
    - [float], [double] and [qreal] values are real numbers ([R]): the
      development states the exact-arithmetic content of the code, rounding
      is not modelled.
    - An operation whose precondition is violated in the C++ (an index out
      of range in a [QList], an Eigen product of mismatched shapes, a
      missing metadata key, an OpenCV size or type mismatch) has no defined
      result; it is [None] in the [option] monad. For
      [ProcrustesTransform::project], [projectOutcome] tells apart a call
      that returns, one that leaves the preconditions of an operation
      (no error is raised there; Qt and Eigen assert in debug builds
      only) and one that divides zero by zero.
    - A quotient is the real quotient; where the code can divide by zero
      (a norm of 0, a count of 0) the statements carry the condition
      that excludes it, or the model has no result.
    - Third-party algorithms that the plugin only calls (Eigen's Jacobi
      SVD, OpenCV's planar subdivision, affine warp and polygon fill) are
      members of the interfaces [Eigen.SVDSolver] and [cv.ImgProc]; the
      predictions of OpenCV's trees are fields of the records that stand
      for the trained models.
    - A [CvDTreeNode*] is an address into a memory of nodes; the pointer
      loop of [fillNodes] runs for a given number of loop tests and has
      no result when they do not suffice. *)

From Stdlib Require Import Reals Lra Lia ZArith List Bool Psatz.
From stdpp Require Import base option list strings gmap.
Import ListNotations.
Open Scope R_scope.

(** Sum of a list of reals (the accumulation loops of the code). *)
Definition sumR (l : list R) : R := foldr Rplus 0 l.

(** ** Qt value types *)
Module Qt.

(** [QPointF]: a point with [qreal] coordinates. *)
Record QPointF : Type := mkQPointF { x : R; y : R }.

(** [QPointF::operator-=] and [QPointF::operator/=]. *)
Definition sub (p q : QPointF) : QPointF := mkQPointF (x p - x q) (y p - y q).
Definition div (p : QPointF) (c : R) : QPointF := mkQPointF (x p / c) (y p / c).

(** [QRectF]: top-left corner, width and height. *)
Record QRectF : Type := mkQRectF { left : R; top : R; width : R; height : R }.

Definition topLeft (r : QRectF) : QPointF := mkQPointF (left r) (top r).
Definition topRight (r : QRectF) : QPointF := mkQPointF (left r + width r) (top r).
Definition bottomLeft (r : QRectF) : QPointF := mkQPointF (left r) (top r + height r).
Definition bottomRight (r : QRectF) : QPointF :=
  mkQPointF (left r + width r) (top r + height r).

(** [QList<T>::operator[]]: defined only for an index in range. *)
Definition at_ {A : Type} (l : list A) (i : nat) : option A := l !! i.

End Qt.

(** ** Eigen dense matrices *)
Module Eigen.

(** [Eigen::MatrixXf]: run-time dimensions and the coefficients, kept in
    row-major order. *)
Record MatrixXf : Type := mkMatrixXf { rows : nat; cols : nat; coeffs : list R }.

(** A default-constructed matrix is 0 x 0. *)
Definition empty : MatrixXf := mkMatrixXf 0 0 [].

(** The coefficient stored at row [i], column [j]. *)
Definition coeff (A : MatrixXf) (i j : nat) : R := nth (i * cols A + j) (coeffs A) 0.

(** [A(i,j)]: Eigen asserts that the index is in range. *)
Definition at_ (A : MatrixXf) (i j : nat) : option R :=
  if (i <? rows A)%nat && (j <? cols A)%nat then Some (coeff A i j) else None.

(** The [r] x [c] matrix whose coefficient [(i,j)] is [f i j]: what a
    freshly sized matrix holds after every coefficient is assigned. *)
Definition tabulate (r c : nat) (f : nat -> nat -> R) : MatrixXf :=
  mkMatrixXf r c (flat_map (fun i => map (f i) (seq 0 c)) (seq 0 r)).

Definition transpose (A : MatrixXf) : MatrixXf :=
  tabulate (cols A) (rows A) (fun i j => coeff A j i).

(** [A * B]: [A.cols() == B.rows()] is the precondition of the product
    (asserted by Eigen in debug builds); without it there is no defined
    result. *)
Definition mul (A B : MatrixXf) : option MatrixXf :=
  if (cols A =? rows B)%nat
  then Some (tabulate (rows A) (cols B)
               (fun i j => sumR (map (fun k => coeff A i k * coeff B k j) (seq 0 (cols A)))))
  else None.

Definition identity (n : nat) : MatrixXf :=
  tabulate n n (fun i j => if (i =? j)%nat then 1 else 0).

(** The diagonal matrix of a vector of singular values. *)
Definition diagonal (s : list R) : MatrixXf :=
  tabulate (length s) (length s) (fun i j => if (i =? j)%nat then nth i s 0 else 0).

(** What a [JacobiSVD<MatrixXf>] object exposes. *)
Record JacobiSVD : Type :=
  mkJacobiSVD { matrixU : MatrixXf; singularValues : list R; matrixV : MatrixXf }.

(** The decomposition algorithm itself belongs to Eigen. *)
Class SVDSolver : Type := compute : MatrixXf -> JacobiSVD.

(** [Q] has orthonormal columns. *)
Definition orthonormal (Q : MatrixXf) : Prop :=
  mul (transpose Q) Q = Some (identity (cols Q)).

Fixpoint decreasing (s : list R) : Prop :=
  match s with
  | a :: (b :: _) as tl => b <= a /\ decreasing tl
  | _ => True
  end.

(** The contract of a thin decomposition ([ComputeThinU | ComputeThinV])
    of [M]: [M = U * diag(s) * V^T] with [U] and [V] of orthonormal
    columns and [s] non-negative, in decreasing order. *)
Definition thinSVD (M : MatrixXf) (d : JacobiSVD) : Prop :=
  let k := Nat.min (rows M) (cols M) in
  rows (matrixU d) = rows M /\ cols (matrixU d) = k /\
  rows (matrixV d) = cols M /\ cols (matrixV d) = k /\
  length (singularValues d) = k /\
  orthonormal (matrixU d) /\ orthonormal (matrixV d) /\
  Forall (fun s => 0 <= s) (singularValues d) /\ decreasing (singularValues d) /\
  (US ← mul (matrixU d) (diagonal (singularValues d)); mul US (transpose (matrixV d)))
    = Some (tabulate (rows M) (cols M) (coeff M)).

End Eigen.

(** ** OpenCV value types and array operations *)
Module cv.

(** [cv::Point] (integer coordinates) and [cv::Point2f]. *)
Record Point : Type := mkPoint { x : Z; y : Z }.
Record Point2f : Type := mkPoint2f { xf : R; yf : R }.

(** [cv::Vec6f]: the six coordinates of a triangle of the subdivision. *)
Record Vec6f : Type :=
  mkVec6f { v0 : R; v1 : R; v2 : R; v3 : R; v4 : R; v5 : R }.

(** [cv::Scalar], of which the code reads the components 0 and 1. *)
Definition Scalar : Type := (R * R)%type.

(** [cvRound]: the nearest integer; a value half way between two
    integers goes to the even one (the default rounding mode). *)
Definition cvRound (v : R) : Z :=
  let n := up (v - / 2) in
  if Req_dec_T (IZR n - v) (/ 2) then (if Z.even n then n else (n - 1)%Z) else n.

(** Conversions between the two point types. *)
Definition toPoint2f (p : Point) : Point2f := mkPoint2f (IZR (x p)) (IZR (y p)).
Definition toPoint (p : Point2f) : Point := mkPoint (cvRound (xf p)) (cvRound (yf p)).

(** [cv::mean] of a vector of points: the mean of each channel. *)
Definition mean (pts : list Point2f) : Scalar :=
  (sumR (map xf pts) / INR (length pts), sumR (map yf pts) / INR (length pts)).

(** [cv::norm] of a vector of points: the L2 norm over all coordinates. *)
Definition norm (pts : list Point2f) : R :=
  sqrt (sumR (map (fun p => xf p * xf p + yf p * yf p) pts)).

(** [cv::Mat] as an image: size, type code and the value of each pixel
    (row, then column). *)
Record Mat : Type :=
  mkMat { rows : Z; cols : Z; type : Z; data : Z -> Z -> Z }.

(** The type code of a single-channel 8-bit image. *)
Definition CV_8U : Z := 0.

Definition zeros (r c t : Z) : Mat := mkMat r c t (fun _ _ => 0%Z).

Definition sameShape (a b : Mat) : bool :=
  (rows a =? rows b)%Z && (cols a =? cols b)%Z && (type a =? type b)%Z.

(** [saturate_cast] to the depth of type [t] (the low three bits of the
    type code); the floating depths do not clamp. *)
Definition saturate_cast (t v : Z) : Z :=
  let clamp lo hi := Z.max lo (Z.min hi v) in
  match (t mod 8)%Z with
  | 0 => clamp 0 255
  | 1 => clamp (-128) 127
  | 2 => clamp 0 65535
  | 3 => clamp (-32768) 32767
  | 4 => clamp (-2147483648) 2147483647
  | _ => v
  end%Z.

(** [bitwise_and(a, b, out)] without a mask argument: both inputs are
    arrays and must have the same size and type. *)
Definition bitwise_and (a b : Mat) : option Mat :=
  if sameShape a b
  then Some (mkMat (rows a) (cols a) (type a) (fun i j => Z.land (data a i j) (data b i j)))
  else None.

(** [a += b]: the saturating sum of two arrays of the same size and type. *)
Definition add (a b : Mat) : option Mat :=
  if sameShape a b
  then Some (mkMat (rows a) (cols a) (type a)
               (fun i j => saturate_cast (type a) (data a i j + data b i j)))
  else None.

(** The image-processing algorithms of OpenCV that the plugin calls.
    For the functions that write an image only the pixel values they
    produce are left to the library; size and type of the result are
    fixed by the wrappers below, as OpenCV documents them. *)
Class ImgProc : Type := {
  (** [Subdiv2D] over [Rect(0,0,cols,rows)], the points inserted in
      order, then [getTriangleList]; insertion fails outside the
      rectangle. *)
  triangleList : Z -> Z -> list Point2f -> option (list Vec6f);
  line_data : Mat -> Point -> Point -> Z -> Z -> Z;
  getAffineTransform : list Point2f -> list Point2f -> list R;
  warpAffine_data : Mat -> list R -> Z -> Z -> Z -> Z -> Z;
  fillConvexPoly_data : Mat -> list Point -> Z -> Z -> Z -> Z
}.

(** [line(img, p, q, Scalar(0,0,0), 1)] draws into [img]. *)
Definition line `{ImgProc} (img : Mat) (p q : Point) : Mat :=
  mkMat (rows img) (cols img) (type img) (line_data img p q).

(** [warpAffine(src, dst, M, Size(w,h))]: [dst] gets the size [w] x [h]
    and the type of [src]. *)
Definition warpAffine `{ImgProc} (src : Mat) (M : list R) (w h : Z) : Mat :=
  mkMat h w (type src) (warpAffine_data src M w h).

(** [fillConvexPoly(img, pts, n, color, 8)] draws into [img]. *)
Definition fillConvexPoly `{ImgProc} (img : Mat) (pts : list Point) (color : Z) : Mat :=
  mkMat (rows img) (cols img) (type img) (fillConvexPoly_data img pts color).

End cv.

(** ** The sample record of the framework *)
Module br.

(** Modelled from the spec: [br::File] of [openbr_internal.h], the
    per-sample record: zero or more landmark points, zero or more
    bounding rectangles and a store of named scalars. *)
Record File : Type :=
  mkFile { points : list Qt.QPointF; rects : list Qt.QRectF; metadata : gmap string R }.

(** Modelled from the spec: [File::set] attaches a named scalar,
    replacing an earlier value of that name. *)
Definition set (key : string) (v : R) (f : File) : File :=
  mkFile (points f) (rects f) (<[key := v]> (metadata f)).

(** Modelled from the spec: [File::get<float>] without a default value
    fails on a missing key. *)
Definition get (f : File) (key : string) : option R := metadata f !! key.

(** Modelled from the spec: [br::Template], an image with its [File]. *)
Record Template : Type := mkTemplate { m : cv.Mat; file : File }.

End br.

Module OpenCVUtils.

(** Modelled from the spec: [OpenCVUtils::toPoint] and [toPoints] of
    [openbr/core/opencvutils.h], the coordinate-preserving conversion of
    [QPointF] to [cv::Point2f]. *)
Definition toPoint (p : Qt.QPointF) : cv.Point2f := cv.mkPoint2f (Qt.x p) (Qt.y p).
Definition toPoints (l : list Qt.QPointF) : list cv.Point2f := map toPoint l.

End OpenCVUtils.

(** Lines 36-43, 82-89 and 146-153: the four corners of the first
    rectangle are appended to the landmark points. [conv] is the
    conversion applied to each corner (none in [ProcrustesTransform],
    [OpenCVUtils::toPoint] in [DelaunayTransform]). More than one
    rectangle only logs a warning. *)
Definition appendRectCorners {A : Type} (conv : Qt.QPointF -> A)
    (points : list A) (rects : list Qt.QRectF) : option (list A) :=
  r ← Qt.at_ rects 0;
  Some (points ++ [conv (Qt.topLeft r); conv (Qt.topRight r);
                   conv (Qt.bottomLeft r); conv (Qt.bottomRight r)]).

(** ** [ProcrustesTransform] *)
Module ProcrustesTransform.

(** Lines 45-46 and 91-92: the centroid of the points and the points
    with the centroid subtracted. *)
Definition mean (points : list Qt.QPointF) : cv.Scalar :=
  cv.mean (OpenCVUtils.toPoints points).

Definition centred (points : list Qt.QPointF) : list Qt.QPointF :=
  let mean := mean points in
  map (fun p => Qt.sub p (Qt.mkQPointF (fst mean) (snd mean))) points.

(** Lines 48 and 94: the norm of the centred points. *)
Definition norm (points : list Qt.QPointF) : R :=
  cv.norm (OpenCVUtils.toPoints (centred points)).

(** Lines 45-49: centre, then divide every point by the norm. *)
Definition normalize (points : list Qt.QPointF) : list Qt.QPointF :=
  let norm := norm points in
  map (fun p => Qt.div p norm) (centred points).

(** Lines 31-52: the normalized point sets of the templates that have
    landmark points. *)
Fixpoint normalizedPoints (data : list br.Template) : option (list (list Qt.QPointF)) :=
  match data with
  | [] => Some []
  | datum :: data' =>
      let points := br.points (br.file datum) in
      if (length points =? 0)%nat then normalizedPoints data'
      else
        points ← appendRectCorners (fun c => c) points (br.rects (br.file datum));
        rest ← normalizedPoints data';
        Some (normalize points :: rest)
  end.

(** Lines 59-68: the average of the points of index [i] over all sets. *)
Definition meanPoint (normalizedPoints : list (list Qt.QPointF)) (i : nat)
    : option (R * R) :=
  column ← mapM (fun shape => Qt.at_ shape i) normalizedPoints;
  Some (sumR (map Qt.x column) / INR (length normalizedPoints),
        sumR (map Qt.y column) / INR (length normalizedPoints)).

(** Lines 54-74: the mean shape, one row per point of the first set. *)
Definition shapeBuffer (normalizedPoints : list (list Qt.QPointF)) : option Eigen.MatrixXf :=
  first ← Qt.at_ normalizedPoints 0;
  means ← mapM (meanPoint normalizedPoints) (seq 0 (length first));
  Some (Eigen.tabulate (length first) 2
          (fun i j => let p := nth i means (0, 0) in
                      if (j =? 0)%nat then fst p else snd p)).

(** [train]: the new value of the member [meanShape]. *)
Definition train (data : list br.Template) : option Eigen.MatrixXf :=
  normalizedPoints ← normalizedPoints data;
  shapeBuffer normalizedPoints.

(** Lines 81-89: the landmark points followed by the rectangle corners. *)
Definition augmented (src : br.Template) : option (list Qt.QPointF) :=
  appendRectCorners (fun c => c) (br.points (br.file src)) (br.rects (br.file src)).

(** Lines 95-100: the points in the frame of radius 150 around (50,50),
    for a norm other than 0. (With a norm of 0 the code divides 0 by 0;
    [projectOutcome] records that case.) *)
Definition srcPoints (points : list Qt.QPointF) : Eigen.MatrixXf :=
  let norm := norm points in
  let points := centred points in
  Eigen.tabulate (length points) 2
    (fun i j => let p := nth i points (Qt.mkQPointF 0 0) in
                if (j =? 0)%nat then Qt.x p / (norm / 150) + 50
                else Qt.y p / (norm / 150) + 50).

(** Lines 102-104: [R = U * V^T] from the thin SVD of
    [srcPoints^T * meanShape]. *)
Definition rotation `{Eigen.SVDSolver} (meanShape : Eigen.MatrixXf)
    (points : list Qt.QPointF) : option Eigen.MatrixXf :=
  M ← Eigen.mul (Eigen.transpose (srcPoints points)) meanShape;
  let svd := Eigen.compute M in
  Eigen.mul (Eigen.matrixU svd) (Eigen.transpose (Eigen.matrixV svd)).

(** [project]: [dst] with the image of [src] and the seven scalars. *)
Definition project `{Eigen.SVDSolver} (meanShape : Eigen.MatrixXf)
    (src dst : br.Template) : option br.Template :=
  points ← augmented src;
  let mean := mean points in
  let norm := norm points in
  R ← rotation meanShape points;
  r00 ← Eigen.at_ R 0 0;
  r10 ← Eigen.at_ R 1 0;
  r11 ← Eigen.at_ R 1 1;
  r01 ← Eigen.at_ R 0 1;
  Some (br.mkTemplate (br.m src)
          (br.set "Procrustes_norm" norm
          (br.set "Procrustes_mean_1" (snd mean)
          (br.set "Procrustes_mean_0" (fst mean)
          (br.set "Procrustes_0_1" r01
          (br.set "Procrustes_1_1" r11
          (br.set "Procrustes_1_0" r10
          (br.set "Procrustes_0_0" r00 (br.file dst))))))))).

(** The items of a [QDataStream]. *)
Inductive item : Type := Int (n : nat) | Float (v : R).
Definition QDataStream : Type := list item.

Definition floatOf (i : item) : option R :=
  match i with Float v => Some v | Int _ => None end.

(** Modelled from the spec: the stream operators for [Eigen::MatrixXf]
    of [openbr/core/eigenutils.h], which [store] and [load] call. The
    matrix is written as one dense blob, its dimensions followed by the
    coefficients row by row, and read back in the same order. *)
Definition write (stream : QDataStream) (A : Eigen.MatrixXf) : QDataStream :=
  stream ++ Int (Eigen.rows A) :: Int (Eigen.cols A)
         :: map Float (Eigen.coeffs (Eigen.tabulate (Eigen.rows A) (Eigen.cols A) (Eigen.coeff A))).

(** Modelled from the spec: the reading operator of the same header; it
    has no result on a stream that does not start with two dimensions
    and that many coefficients. *)
Definition read (stream : QDataStream) : option (Eigen.MatrixXf * QDataStream) :=
  match stream with
  | Int r :: Int c :: blob =>
      if (r * c <=? length blob)%nat
      then
        coeffs ← mapM floatOf (take (r * c) blob);
        Some (Eigen.mkMatrixXf r c coeffs, drop (r * c) blob)
      else None
  | _ => None
  end.

(** [store]: [stream << meanShape]. *)
Definition store (meanShape : Eigen.MatrixXf) (stream : QDataStream) : QDataStream :=
  write stream meanShape.

(** [load]: [stream >> meanShape]; the new [meanShape] and the rest of
    the stream. *)
Definition load (stream : QDataStream) : option (Eigen.MatrixXf * QDataStream) :=
  read stream.

End ProcrustesTransform.

(** ** [DelaunayTransform] *)
Module DelaunayTransform.

(** Lines 164-170: the three vertices of a triangle, rounded. *)
Definition pt (t : cv.Vec6f) : list cv.Point :=
  [cv.mkPoint (cv.cvRound (cv.v0 t)) (cv.cvRound (cv.v1 t));
   cv.mkPoint (cv.cvRound (cv.v2 t)) (cv.cvRound (cv.v3 t));
   cv.mkPoint (cv.cvRound (cv.v4 t)) (cv.cvRound (cv.v5 t))].

(** Line 174: the test that clears [inside]. *)
Definition outside (cols rows : Z) (p : cv.Point) : bool :=
  (cv.x p >? cols)%Z || (cv.y p >? rows)%Z || (cv.x p <=? 0)%Z || (cv.y p <=? 0)%Z.

(** Lines 172-175: [inside] after the loop over the three vertices. *)
Definition inside (cols rows : Z) (pt : list cv.Point) : bool :=
  forallb (fun p => negb (outside cols rows p)) pt.

(** Lines 160-187: the triangles kept by the filter, in order. *)
Definition validTriangles (cols rows : Z) (triangleList : list cv.Vec6f)
    : list (list cv.Point) :=
  filter (fun pt => inside cols rows pt = true) (map pt triangleList).

(** Lines 191-197: the edges of the kept triangles drawn into the image. *)
Definition drawTriangle `{cv.ImgProc} (img : cv.Mat) (triangle : list cv.Point)
    : option cv.Mat :=
  t0 ← Qt.at_ triangle 0;
  t1 ← Qt.at_ triangle 1;
  t2 ← Qt.at_ triangle 2;
  Some (cv.line (cv.line (cv.line img t0 t1) t1 t2) t2 t0).

(** The alignment parameters read back from the metadata (lines 202-214). *)
Record Procrustes : Type :=
  mkProcrustes { R : Eigen.MatrixXf; mean : cv.Scalar; norm : Rdefinitions.R }.

Definition parameters (f : br.File) : option Procrustes :=
  r00 ← br.get f "Procrustes_0_0";
  r10 ← br.get f "Procrustes_1_0";
  r11 ← br.get f "Procrustes_1_1";
  r01 ← br.get f "Procrustes_0_1";
  mean0 ← br.get f "Procrustes_mean_0";
  mean1 ← br.get f "Procrustes_mean_1";
  norm ← br.get f "Procrustes_norm";
  Some (mkProcrustes
          (Eigen.tabulate 2 2
             (fun i j => match i, j with
                         | O, O => r00 | O, _ => r01 | _, O => r10 | _, _ => r11
                         end))
          (mean0, mean1) norm).

(** Lines 221-226: the vertices of a triangle in the frame of radius 150
    around (50,50). *)
Definition srcPoints (p : Procrustes) (triangle : list cv.Point) : Eigen.MatrixXf :=
  Eigen.tabulate (length triangle) 2
    (fun j k => let v := nth j triangle (cv.mkPoint 0 0) in
                if (k =? 0)%nat then (IZR (cv.x v) - fst (mean p)) / (norm p / 150) + 50
                else (IZR (cv.y v) - snd (mean p)) / (norm p / 150) + 50).

(** Lines 228-237: [dstMat = srcPoints * R] and its three rows. *)
Definition dstPoints (p : Procrustes) (triangle : list cv.Point)
    : option (list cv.Point2f) :=
  dstMat ← Eigen.mul (srcPoints p triangle) (R p);
  d00 ← Eigen.at_ dstMat 0 0; d01 ← Eigen.at_ dstMat 0 1;
  d10 ← Eigen.at_ dstMat 1 0; d11 ← Eigen.at_ dstMat 1 1;
  d20 ← Eigen.at_ dstMat 2 0; d21 ← Eigen.at_ dstMat 2 1;
  Some [cv.mkPoint2f d00 d01; cv.mkPoint2f d10 d11; cv.mkPoint2f d20 d21].

(** Lines 230-233: the vertices of the triangle in the source image. *)
Definition test (triangle : list cv.Point) : option (list cv.Point2f) :=
  t0 ← Qt.at_ triangle 0;
  t1 ← Qt.at_ triangle 1;
  t2 ← Qt.at_ triangle 2;
  Some [cv.toPoint2f t0; cv.toPoint2f t1; cv.toPoint2f t2].

(** Lines 239-241: the whole source image resampled through the affine
    map of the triangle. *)
Definition buffer `{cv.ImgProc} (src : cv.Mat) (test dstPoints : list cv.Point2f) : cv.Mat :=
  cv.warpAffine src (cv.getAffineTransform test dstPoints) (cv.cols src) (cv.rows src).

(** Lines 243-250: the destination triangle filled with 255 on a zero
    8-bit image. *)
Definition mask `{cv.ImgProc} (src : cv.Mat) (dstPoints : list cv.Point2f) : cv.Mat :=
  cv.fillConvexPoly (cv.zeros (cv.rows src) (cv.cols src) cv.CV_8U)
    (map cv.toPoint dstPoints) 255.

(** Lines 252-254: the content isolated by the mask. *)
Definition output `{cv.ImgProc} (src : cv.Mat) (p : Procrustes)
    (triangle : list cv.Point) : option cv.Mat :=
  dstPoints ← dstPoints p triangle;
  test ← test triangle;
  cv.bitwise_and (buffer src test dstPoints) (mask src dstPoints).

(** Lines 220-257: one turn of the loop over the kept triangles. *)
Definition warpTriangle `{cv.ImgProc} (src : cv.Mat) (p : Procrustes)
    (canvas : cv.Mat) (triangle : list cv.Point) : option cv.Mat :=
  output ← output src p triangle;
  cv.add canvas output.

(** A loop that threads an image through a step that may fail. *)
Fixpoint foreach {A : Type} (step : cv.Mat -> A -> option cv.Mat)
    (img : cv.Mat) (l : list A) : option cv.Mat :=
  match l with
  | [] => Some img
  | a :: l' => img' ← step img a; foreach step img' l'
  end.

(** [project]; [warp] is the constant [true] of line 199. *)
Definition project `{cv.ImgProc} (draw : bool) (src dst : br.Template)
    : option br.Template :=
  let img := br.m src in
  points ← appendRectCorners OpenCVUtils.toPoint
              (OpenCVUtils.toPoints (br.points (br.file src))) (br.rects (br.file src));
  triangleList ← cv.triangleList (cv.cols img) (cv.rows img) points;
  let validTriangles := validTriangles (cv.cols img) (cv.rows img) triangleList in
  drawn ← (if draw then foreach drawTriangle img validTriangles else Some img);
  p ← parameters (br.file src);
  canvas ← foreach (warpTriangle img p)
              (cv.zeros (cv.rows img) (cv.cols img) (cv.type img)) validTriangles;
  Some (br.mkTemplate canvas (br.file dst)).

End DelaunayTransform.

(** The four coefficients of a matrix of order 2. *)
Definition entries (Q : Eigen.MatrixXf) : R * R * R * R :=
  (Eigen.coeff Q 0 0, Eigen.coeff Q 0 1, Eigen.coeff Q 1 0, Eigen.coeff Q 1 1).

(** ** The specification's own formulas, for comparison with the code *)
Module Spec.

(** The centroid: the coordinate-wise mean of the points. *)
Definition centroid (points : list Qt.QPointF) : R * R :=
  (sumR (map Qt.x points) / INR (length points),
   sumR (map Qt.y points) / INR (length points)).

(** The Euclidean norm of the centred point vector, all coordinates
    taken as one long vector. *)
Definition centredNorm (points : list Qt.QPointF) : R :=
  let c := centroid points in
  sqrt (sumR (map (fun p => (Qt.x p - fst c) * (Qt.x p - fst c)
                            + (Qt.y p - snd c) * (Qt.y p - snd c)) points)).

(** The canonical reference frame: each coordinate becomes
    [(raw - centroid) / (norm / 150) + 50]. *)
Definition canonical (points : list Qt.QPointF) (p : Qt.QPointF) : Qt.QPointF :=
  let c := centroid points in
  let norm := centredNorm points in
  Qt.mkQPointF ((Qt.x p - fst c) / (norm / 150) + 50)
               ((Qt.y p - snd c) / (norm / 150) + 50).

(** Normalization: subtract the centroid, divide by the norm. *)
Definition normalize (points : list Qt.QPointF) : list Qt.QPointF :=
  let c := centroid points in
  let norm := centredNorm points in
  map (fun p => Qt.mkQPointF ((Qt.x p - fst c) / norm) ((Qt.y p - snd c) / norm)) points.

(** The Euclidean norm of a point vector. *)
Definition norm (points : list Qt.QPointF) : R :=
  sqrt (sumR (map (fun p => Qt.x p * Qt.x p + Qt.y p * Qt.y p) points)).




End Spec.

(** ** Concrete samples *)
Module Examples.

(** Two landmark points, as a point set to normalize. *)
Definition twoPoints : list Qt.QPointF := [Qt.mkQPointF 0 0; Qt.mkQPointF 3 4].

(** An image and a rectangle for the samples below. *)
Definition image : cv.Mat := cv.zeros 100 100 cv.CV_8U.
Definition rect : Qt.QRectF := Qt.mkQRectF 0 0 4 3.

(** A training set whose second sample has one landmark more than the
    first. *)
Definition oneLandmark : br.Template :=
  br.mkTemplate image (br.mkFile [Qt.mkQPointF 1 1] [rect] ∅).
Definition twoLandmarks : br.Template :=
  br.mkTemplate image (br.mkFile [Qt.mkQPointF 1 1; Qt.mkQPointF 2 1] [rect] ∅).
Definition unequal : list br.Template := [oneLandmark; twoLandmarks].
Definition shorter : list br.Template := [twoLandmarks; oneLandmark].

(** The augmented point sets of the two samples. *)
Definition fivePoints : list Qt.QPointF :=
  [Qt.mkQPointF 1 1;
   Qt.topLeft rect; Qt.topRight rect; Qt.bottomLeft rect; Qt.bottomRight rect].
Definition sixPoints : list Qt.QPointF :=
  [Qt.mkQPointF 1 1; Qt.mkQPointF 2 1;
   Qt.topLeft rect; Qt.topRight rect; Qt.bottomLeft rect; Qt.bottomRight rect].

(** A sample with a rectangle and no landmark, a mean shape of four
    rows, and a solver that answers with the decomposition of the
    cross-covariance matrix of the two. *)
Definition cornersOnly : br.Template := br.mkTemplate image (br.mkFile [] [rect] ∅).
Definition corners : list Qt.QPointF :=
  [Qt.topLeft rect; Qt.topRight rect; Qt.bottomLeft rect; Qt.bottomRight rect].
Definition square : Eigen.MatrixXf := Eigen.mkMatrixXf 4 2 [-1; -1; 1; -1; -1; 1; 1; 1].
Definition solver : Eigen.SVDSolver :=
  fun _ => Eigen.mkJacobiSVD (Eigen.identity 2) [240; 180] (Eigen.identity 2).

(** A sample with a landmark point and no rectangle. *)
Definition noRect : br.Template :=
  br.mkTemplate image (br.mkFile [Qt.mkQPointF 1 1] [] ∅).

(** A mean shape of three rows. *)
Definition threeRows : Eigen.MatrixXf := Eigen.mkMatrixXf 3 2 [0; 0; 1; 0; 0; 1].

(** A sample that carries the seven alignment scalars (the identity as
    rotation, the centroid (0,0), the norm 150). *)
Definition aligned : br.Template :=
  br.mkTemplate image
    (br.mkFile [] [rect]
       (<["Procrustes_0_0" := 1]> (<["Procrustes_1_0" := 0]>
        (<["Procrustes_1_1" := 1]> (<["Procrustes_0_1" := 0]>
        (<["Procrustes_mean_0" := 0]> (<["Procrustes_mean_1" := 0]>
        (<["Procrustes_norm" := 150]> ∅)))))))).

(** Stand-ins for the OpenCV algorithms: one triangle, no resampling, a
    fill of the lower half of the image. *)
Definition imgproc : cv.ImgProc :=
  {| cv.triangleList := fun _ _ _ => Some [cv.mkVec6f 10 10 30 10 10 30];
     cv.line_data := fun img _ _ => cv.data img;
     cv.getAffineTransform := fun _ _ => [1; 0; 0; 0; 1; 0];
     cv.warpAffine_data := fun src _ _ _ => cv.data src;
     cv.fillConvexPoly_data :=
       fun img _ color i j => if (50 <=? i)%Z then color else cv.data img i j |}.

(** A sample whose rectangle has no area and whose landmark points lie
    on the diagonal through it, and a solver that answers with one of
    the decompositions of its rank-one cross-covariance matrix. *)
Definition flat : Qt.QRectF := Qt.mkQRectF 1 1 0 0.
Definition onDiagonal : br.Template :=
  br.mkTemplate image (br.mkFile [Qt.mkQPointF 2 2; Qt.mkQPointF 0 0] [flat] ∅).
Definition diagonal : list Qt.QPointF :=
  [Qt.mkQPointF 2 2; Qt.mkQPointF 0 0;
   Qt.topLeft flat; Qt.topRight flat; Qt.bottomLeft flat; Qt.bottomRight flat].
Definition reflecting : Eigen.SVDSolver :=
  fun _ => Eigen.mkJacobiSVD
             (Eigen.mkMatrixXf 2 2 [/ sqrt 2; / sqrt 2; / sqrt 2; - / sqrt 2])
             [52500; 0]
             (Eigen.mkMatrixXf 2 2 [/ sqrt 2; - / sqrt 2; / sqrt 2; / sqrt 2]).

End Examples.

(** ** Moving and scaling a sample *)
Module Similarity.

(** The point [c * p + (tx, ty)]. *)
Definition point (c tx ty : R) (p : Qt.QPointF) : Qt.QPointF :=
  Qt.mkQPointF (c * Qt.x p + tx) (c * Qt.y p + ty).

(** The rectangle with every corner moved by [point]. *)
Definition rect (c tx ty : R) (r : Qt.QRectF) : Qt.QRectF :=
  Qt.mkQRectF (c * Qt.left r + tx) (c * Qt.top r + ty) (c * Qt.width r) (c * Qt.height r).

(** The sample with its landmark points and rectangles moved. *)
Definition template (c tx ty : R) (t : br.Template) : br.Template :=
  br.mkTemplate (br.m t)
    (br.mkFile (map (point c tx ty) (br.points (br.file t)))
               (map (rect c tx ty) (br.rects (br.file t)))
               (br.metadata (br.file t))).

(** Two samples, the second a moved and enlarged copy of the first. *)
Definition related (t t' : br.Template) : Prop :=
  exists c tx ty, 0 < c /\ t' = template c tx ty t.

End Similarity.

(** The names of the seven scalars of [ProcrustesTransform::project]. *)
Definition procrustesKeys : list string :=
  ["Procrustes_0_0"; "Procrustes_1_0"; "Procrustes_1_1"; "Procrustes_0_1";
   "Procrustes_mean_0"; "Procrustes_mean_1"; "Procrustes_norm"].

(** The matrix of [n] rows and two columns that holds the points of a
    shape. *)
Definition shapeMatrix (shape : list Qt.QPointF) : Eigen.MatrixXf :=
  Eigen.tabulate (length shape) 2
    (fun i j => let p := nth i shape (Qt.mkQPointF 0 0) in
                if (j =? 0)%nat then Qt.x p else Qt.y p).

(** A sample whose augmented points do not all coincide. *)
Definition nondegenerate (t : br.Template) : Prop :=
  forall points, ProcrustesTransform.augmented t = Some points ->
                 ProcrustesTransform.norm points <> 0.

(** ** Arrays of depth [CV_32F] *)
Module CV_32F.

(** A [cv::Mat] of depth [CV_32F]: size, number of channels and the
    value of each pixel (row, then column). *)
Record Mat : Type := mkMat { rows : Z; cols : Z; channels : Z; data : Z -> Z -> R }.

(** [CV_MAT_CN]: the number of channels of a type code. *)
Definition CV_MAT_CN (t : Z) : Z := (Z.land (Z.shiftr t 3) 511 + 1)%Z.

(** [Mat::zeros(r, c, CV_32F)]. *)
Definition zeros (r c : Z) : Mat := mkMat r c 1 (fun _ _ => 0).

(** [src.convertTo(dst, CV_32F)]: the size and the number of channels
    of [src], every value converted. *)
Definition convertTo (src : cv.Mat) : Mat :=
  mkMat (cv.rows src) (cv.cols src) (CV_MAT_CN (cv.type src))
    (fun i j => IZR (cv.data src i j)).

Definition sameShape (a b : Mat) : bool :=
  (rows a =? rows b)%Z && (cols a =? cols b)%Z && (channels a =? channels b)%Z.

(** [a += b] for two arrays of the same size and number of channels.
    The forms of [cv::add] that read one operand as a scalar are not
    covered. *)
Definition add (a b : Mat) : option Mat :=
  if sameShape a b
  then Some (mkMat (rows a) (cols a) (channels a) (fun i j => data a i j + data b i j))
  else None.

(** [a /= s] for an integer [s]; with [s = 0] no pixel stays finite. *)
Definition div (a : Mat) (s : nat) : option Mat :=
  if (s =? 0)%nat then None
  else Some (mkMat (rows a) (cols a) (channels a) (fun i j => data a i j / INR s)).

End CV_32F.

(** ** [MeanTransform] *)
Module MeanTransform.

(** Lines 280-284: the converted images of the samples at the given
    indices are added to [mean], in order. *)
Fixpoint accumulate (data : list br.Template) (indices : list nat) (mean : CV_32F.Mat)
    : option CV_32F.Mat :=
  match indices with
  | [] => Some mean
  | i :: indices' =>
      datum ← Qt.at_ data i;
      mean' ← CV_32F.add mean (CV_32F.convertTo (br.m datum));
      accumulate data indices' mean'
  end.

(** [train]: the new value of the member [mean]. *)
Definition train (data : list br.Template) : option CV_32F.Mat :=
  first ← Qt.at_ data 0;
  mean ← accumulate data (seq 0 (length data / 2))
            (CV_32F.zeros (cv.rows (br.m first)) (cv.cols (br.m first)));
  CV_32F.div mean (length data / 2).

(** [project]: the image and the file of the result. *)
Definition project (mean : CV_32F.Mat) (src : br.Template) : CV_32F.Mat * br.File :=
  (mean, br.file src).

End MeanTransform.

(** Samples for [MeanTransform]: four images of two rows and three
    columns with a constant value each. *)
Module Samples.

Definition constant (v : Z) : br.Template :=
  br.mkTemplate (cv.mkMat 2 3 cv.CV_8U (fun _ _ => v)) (br.mkFile [] [] ∅).

Definition training : list br.Template := [constant 10; constant 30; constant 50; constant 70].
Definition otherHalf : list br.Template := [constant 10; constant 30; constant 0; constant 255].

End Samples.

(** ** Decision trees of OpenCV's [ml] module *)
Module ml.

(** A [CvDTreeNode*] other than null is an address; the null pointer is
    [None] of [option ptr]. *)
Definition ptr : Type := nat.

(** The fields of [CvDTreeNode] that the plugin reads. *)
Record CvDTreeNode : Type :=
  mkCvDTreeNode { left : option ptr; right : option ptr; parent : option ptr; value : R }.

(** The allocated nodes; reading through any other pointer has no
    result. *)
Definition memory : Type := gmap ptr CvDTreeNode.

(** [CvForestTree]: [get_root()] and [predict(sample)], the node that
    the sample (reshaped to one row) reaches. The prediction algorithm
    belongs to OpenCV. *)
Record CvForestTree : Type :=
  mkCvForestTree { get_root : option ptr; predict : cv.Mat -> option ptr }.

(** [CvRTrees]: the trees of the forest and the memory their nodes
    live in. *)
Record CvRTrees : Type := mkCvRTrees { nodes : memory; trees : list CvForestTree }.

Definition get_tree_count (forest : CvRTrees) : nat := length (trees forest).

(** [get_tree(i)] is null for an index outside the forest. *)
Definition get_tree (forest : CvRTrees) (i : nat) : option CvForestTree := trees forest !! i.

End ml.

(** [int] addition; signed overflow is undefined. *)
Definition INT_MAX : Z := 2147483647.
Definition INT_MIN : Z := -2147483648.
Definition addInt (a b : Z) : option Z :=
  if (INT_MIN <=? a + b)%Z && (a + b <=? INT_MAX)%Z then Some (a + b)%Z else None.

(** ** [ForestInductionTransform] *)
Module ForestInductionTransform.

(** The members [totalSize] and [nodes]. *)
Record Members : Type := mkMembers { totalSize : Z; nodes : list (list ml.ptr) }.

(** Where the traversal of lines 182-202 stands: at the test of the
    inner loop of lines 185-190 with [node], or at the test of the loop
    of lines 194-196 with [node] and [parent]. *)
Inductive Position : Type :=
  | Descending (node : ml.ptr)
  | Climbing (node : ml.ptr) (parent : option ml.ptr).

(** One loop test and what follows it up to the next loop test. [last]
    is the list [nodes.last()]. The result is the next position with
    the list, or the list alone when the traversal ends at line 199.
    - [Descending]: [node->left] is followed if it is not null;
      otherwise the inner loop ends, [node] is appended (line 192) and
      the climb starts from [node] and [node->parent].
    - [Climbing]: without a parent the traversal ends (line 198); while
      [parent->right == node] the climb goes on with the parent;
      otherwise the traversal goes on at [parent->right] (line 201),
      which the next test dereferences. *)
Definition step (memory : ml.memory) (position : Position) (last : list ml.ptr)
    : option (Position * list ml.ptr + list ml.ptr) :=
  match position with
  | Descending node =>
      n ← memory !! node;
      match ml.left n with
      | Some l => Some (inl (Descending l, last))
      | None => Some (inl (Climbing node (ml.parent n), last ++ [node]))
      end
  | Climbing node parent =>
      match parent with
      | None => Some (inr last)
      | Some p =>
          pn ← memory !! p;
          if bool_decide (ml.right pn = Some node)
          then Some (inl (Climbing p (ml.parent pn), last))
          else r ← ml.right pn; Some (inl (Descending r, last))
      end
  end.

(** Lines 182-202: the traversal, at most [fuel] loop tests long. *)
Fixpoint traverse (fuel : nat) (memory : ml.memory) (position : Position)
    (last : list ml.ptr) : option (list ml.ptr) :=
  match fuel with
  | O => None
  | S fuel' =>
      match step memory position last with
      | None => None
      | Some (inr last') => Some last'
      | Some (inl (position', last')) => traverse fuel' memory position' last'
      end
  end.

(** Lines 177-205: the loop over the trees of the forest. *)
Fixpoint fillTrees (fuel : nat) (memory : ml.memory) (trees : list ml.CvForestTree)
    (members : Members) : option Members :=
  match trees with
  | [] => Some members
  | tree :: trees' =>
      root ← ml.get_root tree;
      last ← traverse fuel memory (Descending root) [];
      totalSize ← addInt (totalSize members) (Z.of_nat (length last));
      fillTrees fuel memory trees' (mkMembers totalSize (nodes members ++ [last]))
  end.

(** [fillNodes]: the new values of the members. *)
Definition fillNodes (fuel : nat) (forest : ml.CvRTrees) (members : Members)
    : option Members :=
  fillTrees fuel (ml.nodes forest) (ml.trees forest) members.

(** [train] and [load], after [trainForest] or [loadModel] has set the
    member [forest]. *)
Definition train (useRegressionValue : bool) (fuel : nat) (forest : ml.CvRTrees)
    (members : Members) : option Members :=
  if useRegressionValue then Some members else fillNodes fuel forest members.

Definition load (useRegressionValue : bool) (fuel : nat) (forest : ml.CvRTrees)
    (members : Members) : option Members :=
  if useRegressionValue then Some members else fillNodes fuel forest members.

(** [QList::indexOf]: the index of the first occurrence, -1 without
    one. *)
Fixpoint indexOf (l : list ml.ptr) (node : ml.ptr) : Z :=
  match l with
  | [] => -1
  | n :: l' =>
      if bool_decide (n = node) then 0
      else let index := indexOf l' node in
           if (index <? 0)%Z then -1 else index + 1
  end%Z.

(** [Mat::zeros(rows, 1, CV_32F)], as the list of its rows. *)
Definition zeros (rows : Z) : option (list R) :=
  if (0 <=? rows)%Z then Some (replicate (Z.to_nat rows) 0) else None.

(** [responses.at<float>(row, 0) = v]; the row must exist. *)
Definition setAt (responses : list R) (row : Z) (v : R) : option (list R) :=
  if (0 <=? row)%Z && (row <? Z.of_nat (length responses))%Z
  then Some (<[Z.to_nat row := v]> responses)
  else None.

(** Lines 228-232: the loop over [nodes], from index [i] on. *)
Fixpoint mark (forest : ml.CvRTrees) (src : cv.Mat) (nodes : list (list ml.ptr))
    (i : nat) (offset : Z) (responses : list R) : option (list R) :=
  match nodes with
  | [] => Some responses
  | nodes_i :: nodes' =>
      tree ← ml.get_tree forest i;
      node ← ml.predict tree src;
      let index := indexOf nodes_i node in
      responses' ← setAt responses (offset + index) 1;
      mark forest src nodes' (S i) (offset + Z.of_nat (length nodes_i))%Z responses'
  end.

(** Lines 221-224: the value of the node that the sample reaches in
    each tree. *)
Definition values (forest : ml.CvRTrees) (src : cv.Mat) : option (list R) :=
  mapM (fun tree => node ← ml.predict tree src;
                    n ← ml.nodes forest !! node;
                    Some (ml.value n)) (ml.trees forest).

(** [project]: the column [responses] and the file of the result. *)
Definition project (useRegressionValue : bool) (forest : ml.CvRTrees) (members : Members)
    (src : br.Template) : option (list R * br.File) :=
  responses ← (if useRegressionValue then values forest (br.m src)
               else responses ← zeros (totalSize members);
                    mark forest (br.m src) (nodes members) 0 0 responses);
  Some (responses, br.file src).

End ForestInductionTransform.

(** ** Binary trees in memory *)

(** The shape of a decision tree: every node with its address, a split
    with its two subtrees. *)
Inductive Tree : Type :=
  | Leaf (address : ml.ptr)
  | Split (address : ml.ptr) (l r : Tree).

Definition root (t : Tree) : ml.ptr :=
  match t with Leaf a => a | Split a _ _ => a end.

(** The addresses of the leaves, from left to right, and of all nodes. *)
Fixpoint leaves (t : Tree) : list ml.ptr :=
  match t with
  | Leaf a => [a]
  | Split _ l r => leaves l ++ leaves r
  end.

Fixpoint addresses (t : Tree) : list ml.ptr :=
  match t with
  | Leaf a => [a]
  | Split a l r => a :: addresses l ++ addresses r
  end.

(** [memory] holds the nodes of [t], linked as OpenCV links them: a
    leaf has no left child, a split points to the roots of its two
    subtrees, and every node points back to its parent ([parent] for the
    root of [t]). *)
Fixpoint stored (memory : ml.memory) (parent : option ml.ptr) (t : Tree) : Prop :=
  match t with
  | Leaf a =>
      exists n, memory !! a = Some n /\ ml.left n = None /\ ml.parent n = parent
  | Split a l r =>
      (exists n, memory !! a = Some n /\ ml.left n = Some (root l) /\
                 ml.right n = Some (root r) /\ ml.parent n = parent) /\
      stored memory (Some a) l /\ stored memory (Some a) r
  end.

(** The number of loop tests that the traversal spends in [t]. *)
Fixpoint steps (t : Tree) : nat :=
  match t with
  | Leaf _ => 1
  | Split _ l r => S (steps l + S (steps r + 1))
  end.

(** A tree of the forest that is stored in its memory as [t], each node
    once, and that the traversal can cover with [fuel] loop tests. *)
Definition represents (fuel : nat) (forest : ml.CvRTrees) (tree : ml.CvForestTree)
    (t : Tree) : Prop :=
  ml.get_root tree = Some (root t) /\ stored (ml.nodes forest) None t /\
  NoDup (addresses t) /\ (2 * length (addresses t) <= fuel)%nat.

(** 1 for the node that the sample reaches in [tree], 0 for any other. *)
Definition indicator (tree : ml.CvForestTree) (src : cv.Mat) (node : ml.ptr) : R :=
  if bool_decide (ml.predict tree src = Some node) then 1 else 0.

(** A forest of one tree with a split and two leaves. *)
Module Grove.

Definition memory : ml.memory :=
  <[1%nat := ml.mkCvDTreeNode (Some 2%nat) (Some 3%nat) None 0]>
  (<[2%nat := ml.mkCvDTreeNode None None (Some 1%nat) (-1)]>
  (<[3%nat := ml.mkCvDTreeNode None None (Some 1%nat) 1]> ∅)).

Definition shape : Tree := Split 1%nat (Leaf 2%nat) (Leaf 3%nat).

Definition tree : ml.CvForestTree := ml.mkCvForestTree (Some 1%nat) (fun _ => Some 3%nat).

Definition forest : ml.CvRTrees := ml.mkCvRTrees memory [tree].

End Grove.

(** ** [ForestTransform] *)
Module ForestTransform.

(** The properties that [init] and [project] read. *)
Record Properties : Type :=
  mkProperties { classification : bool; returnConfidence : bool; overwriteMat : bool;
                 inputVariable : string; outputVariable : string }.

(** The member [forest] as [project] uses it: [CvRTrees::predict] and
    [CvRTrees::predict_prob] on the sample (reshaped to one row). Both
    algorithms belong to OpenCV. *)
Record CvRTrees : Type :=
  mkCvRTrees { predict : cv.Mat -> option R; predict_prob : cv.Mat -> option R }.

(** [init]: an empty [outputVariable] becomes [inputVariable]. *)
Definition init (p : Properties) : Properties :=
  if bool_decide (outputVariable p = EmptyString)
  then mkProperties (classification p) (returnConfidence p) (overwriteMat p)
         (inputVariable p) (inputVariable p)
  else p.

(** [project]: the image of the result, which is the image of the
    sample or a 1 x 1 array of depth [CV_32F], and its file. *)
Definition project (p : Properties) (forest : CvRTrees) (src : br.Template)
    : option ((cv.Mat + CV_32F.Mat) * br.File) :=
  response ← (if classification p && returnConfidence p
              then predict_prob forest (br.m src)
              else predict forest (br.m src));
  if overwriteMat p
  then Some (inr (CV_32F.mkMat 1 1 1 (fun _ _ => response)), br.file src)
  else Some (inl (br.m src), br.set (outputVariable p) response (br.file src)).

End ForestTransform.

(** A [ForestTransform] left at its default names, with responses for
    its forest, and a sample that carries a label. *)
Module Labelled.

Definition properties : ForestTransform.Properties :=
  ForestTransform.mkProperties true true false "Label" EmptyString.

Definition forest : ForestTransform.CvRTrees :=
  ForestTransform.mkCvRTrees (fun _ => Some 1) (fun _ => Some (/ 2)).

Definition sample : br.Template :=
  br.mkTemplate Examples.image (br.mkFile [] [] (<["Label" := 0]> ∅)).

End Labelled.

(** ** [AdaBoostTransform] *)
Module AdaBoostTransform.

(** The properties that [init] and [project] read. *)
Record Properties : Type :=
  mkProperties { weakCount : Z; returnConfidence : bool; overwriteMat : bool;
                 inputVariable : string; outputVariable : string }.

(** The member [boost] as [project] uses it: [CvBoost::predict] on the
    sample (reshaped to one row), with [returnSum] on ([predictSum], the
    sum of the weak responses) and with its default arguments
    ([predict], the class label). The algorithm belongs to OpenCV. *)
Record CvBoost : Type :=
  mkCvBoost { predictSum : cv.Mat -> option R; predict : cv.Mat -> option R }.

(** [init]: an empty [outputVariable] becomes [inputVariable]. *)
Definition init (p : Properties) : Properties :=
  if bool_decide (outputVariable p = EmptyString)
  then mkProperties (weakCount p) (returnConfidence p) (overwriteMat p)
         (inputVariable p) (inputVariable p)
  else p.

(** Line 327: the sum divided by [weakCount]; with [weakCount = 0] the
    quotient is not finite. *)
Definition confidence (p : Properties) (boost : CvBoost) (sample : cv.Mat) : option R :=
  sum ← predictSum boost sample;
  if (weakCount p =? 0)%Z then None else Some (sum / IZR (weakCount p)).

(** [project]: the image of the result, which is the image of the
    sample or a 1 x 1 array of depth [CV_32F], and its file. *)
Definition project (p : Properties) (boost : CvBoost) (src : br.Template)
    : option ((cv.Mat + CV_32F.Mat) * br.File) :=
  response ← (if returnConfidence p then confidence p boost (br.m src)
              else predict boost (br.m src));
  if overwriteMat p
  then Some (inr (CV_32F.mkMat 1 1 1 (fun _ _ => response)), br.file src)
  else Some (inl (br.m src), br.set (outputVariable p) response (br.file src)).

End AdaBoostTransform.

(** An [AdaBoostTransform] with its default properties and responses
    for its classifier. *)
Module Boosted.

Definition properties : AdaBoostTransform.Properties :=
  AdaBoostTransform.mkProperties 100 true true "Label" EmptyString.

Definition boost : AdaBoostTransform.CvBoost :=
  AdaBoostTransform.mkCvBoost (fun _ => Some 50) (fun _ => Some 1).

End Boosted.

(** A sample for the warp: a grey image of 100 x 100 pixels with the
    file of [Examples.aligned]. *)
Module Warped.

Definition grey : cv.Mat := cv.mkMat 100 100 cv.CV_8U (fun _ _ => 200%Z).
Definition aligned : br.Template := br.mkTemplate grey (br.file Examples.aligned).

End Warped.

(** ** How a call of [ProcrustesTransform::project] ends *)

(** The ways a call can end: it returns, with real numbers in its
    result; the code raises an error (a [qFatal], an exception that it
    throws); it returns after dividing zero by zero, with values that
    are not numbers; or it uses an operation outside its precondition,
    after which nothing is defined. *)
Inductive Outcome (A : Type) : Type :=
  | Returned (a : A)
  | Raised
  | NotANumber
  | Undefined.

Arguments Returned {A} a.
Arguments Raised {A}.
Arguments NotANumber {A}.
Arguments Undefined {A}.

(** [ProcrustesTransform::project] (lines 77-113) with the way each of
    its steps ends. No statement of it raises an error, and it has no
    test of [rects], of [meanShape] or of [norm]. [rects[0]] (lines
    86-89), the products of lines 102 and 104 and [R(i,j)] (lines
    106-109) have preconditions (an index in range, equal inner
    dimensions) that Qt and Eigen assert in debug builds only. With a
    norm of 0 every centred point is (0,0) and lines 98-99 divide 0 by
    0: [srcPoints] holds no numbers, and neither does what lines 102-112
    derive from it. *)
Definition projectOutcome `{Eigen.SVDSolver} (meanShape : Eigen.MatrixXf)
    (src dst : br.Template) : Outcome br.Template :=
  match ProcrustesTransform.augmented src with
  | None => Undefined
  | Some points =>
      match Eigen.mul (Eigen.transpose (ProcrustesTransform.srcPoints points)) meanShape with
      | None => Undefined
      | Some _ =>
          if Req_dec_T (ProcrustesTransform.norm points) 0 then NotANumber
          else match ProcrustesTransform.project meanShape src dst with
               | Some out => Returned out
               | None => Undefined
               end
      end
  end.

(** A sample whose landmark point and rectangle corners all lie at
    (1,1), with its augmented points, and the mean shape learned from
    the one sample [Examples.oneLandmark]. *)
Module Coincident.

Definition sample : br.Template :=
  br.mkTemplate Examples.image (br.mkFile [Qt.mkQPointF 1 1] [Examples.flat] ∅).

Definition points : list Qt.QPointF :=
  [Qt.mkQPointF 1 1; Qt.topLeft Examples.flat; Qt.topRight Examples.flat;
   Qt.bottomLeft Examples.flat; Qt.bottomRight Examples.flat].

Definition meanShape : Eigen.MatrixXf :=
  shapeMatrix (ProcrustesTransform.normalize Examples.fivePoints).

End Coincident.

(** Unfolds the matrix operations on matrices of known size. *)
Ltac matrix_compute :=
  cbv [Eigen.mul Eigen.tabulate Eigen.transpose Eigen.identity Eigen.diagonal Eigen.coeff
       Eigen.at_ Eigen.rows Eigen.cols Eigen.coeffs Eigen.matrixU Eigen.matrixV
       Eigen.singularValues flat_map map seq sumR foldr app nth length
       Nat.mul Nat.add Nat.eqb Nat.ltb Nat.leb Nat.min andb mbind option_bind].

(** * Properties *)

(** ** Sums *)

Lemma sumR_app (l k : list R) : sumR (l ++ k) = sumR l + sumR k.
Proof. induction l as [|a l IH]; simpl; [|rewrite IH]; lra. Qed.

Lemma sumR_ext {A : Type} (f g : A -> R) (l : list A) :
  (forall a, In a l -> f a = g a) -> sumR (map f l) = sumR (map g l).
Proof.
  induction l as [|a l IH]; intros E; simpl; [reflexivity|].
  rewrite (E a), IH; auto using in_eq, in_cons.
Qed.

Lemma sumR_scale {A : Type} (f : A -> R) (c : R) (l : list A) :
  sumR (map (fun a => f a * c) l) = sumR (map f l) * c.
Proof. induction l as [|a l IH]; simpl; [|rewrite IH]; lra. Qed.

Lemma sumR_minus_const {A : Type} (f : A -> R) (c : R) (l : list A) :
  sumR (map (fun a => f a - c) l) = sumR (map f l) - INR (length l) * c.
Proof.
  induction l as [|a l IH]; [simpl; lra|].
  cbn [map sumR foldr length]. fold (sumR (map (fun a => f a - c) l)).
  fold (sumR (map f l)). rewrite IH, S_INR. lra.
Qed.

Lemma sumR_nonneg {A : Type} (f : A -> R) (l : list A) :
  (forall a, 0 <= f a) -> 0 <= sumR (map f l).
Proof.
  intros P. induction l as [|a l IH]; simpl; [lra|]. specialize (P a). lra.
Qed.

(** ** Matrices *)

Lemma nth_tabulate_row (f : nat -> nat -> R) (c r s i j : nat) :
  (i < r)%nat -> (j < c)%nat ->
  nth (i * c + j) (flat_map (fun i => map (f i) (seq 0 c)) (seq s r)) 0 = f (s + i)%nat j.
Proof.
  revert s i. induction r as [|r IH]; intros s i Hi Hj; [lia|].
  cbn [seq flat_map]. destruct i as [|i].
  - rewrite app_nth1 by (rewrite length_map, length_seq; lia).
    rewrite (nth_indep _ 0 (f s 0%nat)) by (rewrite length_map, length_seq; lia).
    rewrite map_nth, seq_nth by lia. f_equal; lia.
  - rewrite app_nth2 by (rewrite length_map, length_seq; lia).
    rewrite length_map, length_seq.
    replace (S i * c + j - c)%nat with (i * c + j)%nat by lia.
    rewrite IH by lia. f_equal; lia.
Qed.

Lemma coeff_tabulate (f : nat -> nat -> R) (r c i j : nat) :
  (i < r)%nat -> (j < c)%nat -> Eigen.coeff (Eigen.tabulate r c f) i j = f i j.
Proof. intros Hi Hj. unfold Eigen.coeff, Eigen.tabulate. simpl. now rewrite nth_tabulate_row. Qed.

Lemma tabulate_ext (f g : nat -> nat -> R) (r c : nat) :
  (forall i j, (i < r)%nat -> (j < c)%nat -> f i j = g i j) ->
  Eigen.tabulate r c f = Eigen.tabulate r c g.
Proof.
  intros E. unfold Eigen.tabulate. f_equal.
  assert (G : forall s n, (s + n <= r)%nat ->
            flat_map (fun i => map (f i) (seq 0 c)) (seq s n)
            = flat_map (fun i => map (g i) (seq 0 c)) (seq s n)).
  { intros s n. revert s. induction n as [|n IH]; intros s Hs; [reflexivity|].
    cbn [seq flat_map]. rewrite IH by lia. f_equal.
    apply map_ext_in. intros j Hj. apply in_seq in Hj. apply E; lia. }
  apply G. lia.
Qed.

Lemma at_tabulate (f : nat -> nat -> R) (r c i j : nat) :
  (i < r)%nat -> (j < c)%nat -> Eigen.at_ (Eigen.tabulate r c f) i j = Some (f i j).
Proof.
  intros Hi Hj. unfold Eigen.at_.
  replace (i <? Eigen.rows (Eigen.tabulate r c f))%nat with true
    by (symmetry; apply Nat.ltb_lt; exact Hi).
  replace (j <? Eigen.cols (Eigen.tabulate r c f))%nat with true
    by (symmetry; apply Nat.ltb_lt; exact Hj).
  simpl. now rewrite coeff_tabulate.
Qed.

Lemma length_centred (points : list Qt.QPointF) :
  length (ProcrustesTransform.centred points) = length points.
Proof. unfold ProcrustesTransform.centred. now rewrite length_map. Qed.

(** ** The rectangle corners *)

Lemma appendRectCorners_None {A : Type} (conv : Qt.QPointF -> A)
    (points : list A) (rects : list Qt.QRectF) :
  appendRectCorners conv points rects = None <-> rects = [].
Proof.
  unfold appendRectCorners, Qt.at_. destruct rects as [|r rects]; simpl; split; congruence.
Qed.

Lemma normalizedPoints_needs_rect (data : list br.Template) (datum : br.Template) :
  In datum data -> br.points (br.file datum) <> [] -> br.rects (br.file datum) = [] ->
  ProcrustesTransform.normalizedPoints data = None.
Proof.
  intros Hin Hp Hr. induction data as [|d data IH]; [destruct Hin|].
  cbn [ProcrustesTransform.normalizedPoints].
  destruct Hin as [->|Hin].
  - destruct (br.points (br.file datum)) as [|p ps] eqn:E; [congruence|].
    cbn [length Nat.eqb]. rewrite Hr. reflexivity.
  - rewrite (IH Hin). destruct (length (br.points (br.file d)) =? 0)%nat; [reflexivity|].
    destruct (appendRectCorners _ _ _); reflexivity.
Qed.

Section RectangleCorners.
Context `{Eigen.SVDSolver} `{cv.ImgProc}.

(** C10. Training-sample normalization (for a sample with landmark
    points), projection and mesh building all read the first rectangle
    of the sample unconditionally: the lookup of that rectangle is an
    [option] that is [None] exactly when the sample has no rectangle,
    and on such a sample none of the three operations has a result. *)
Theorem first_rectangle_is_required :
  (forall rects : list Qt.QRectF, Qt.at_ rects 0 = None <-> rects = []) /\
  (forall (A : Type) (conv : Qt.QPointF -> A) points rects,
      appendRectCorners conv points rects = None <-> rects = []) /\
  (forall data datum,
      In datum data -> br.points (br.file datum) <> [] -> br.rects (br.file datum) = [] ->
      ProcrustesTransform.train data = None) /\
  (forall meanShape src dst,
      br.rects (br.file src) = [] -> ProcrustesTransform.project meanShape src dst = None) /\
  (forall draw src dst,
      br.rects (br.file src) = [] -> DelaunayTransform.project draw src dst = None).
Proof.
  split; [|split; [|split; [|split]]].
  - intros [|r rects]; unfold Qt.at_; simpl; split; congruence.
  - intros A conv points rects. apply appendRectCorners_None.
  - intros data datum Hin Hp Hr. unfold ProcrustesTransform.train.
    now rewrite (normalizedPoints_needs_rect data datum).
  - intros meanShape src dst Hr.
    unfold ProcrustesTransform.project, ProcrustesTransform.augmented.
    now rewrite (proj2 (appendRectCorners_None _ _ _) Hr).
  - intros draw src dst Hr. unfold DelaunayTransform.project.
    now rewrite (proj2 (appendRectCorners_None _ _ _) Hr).
Qed.

End RectangleCorners.

Section ProjectPreconditions.
Context `{Eigen.SVDSolver}.

Lemma rotation_mismatch (meanShape : Eigen.MatrixXf) (points : list Qt.QPointF) :
  Eigen.rows meanShape <> length points ->
  ProcrustesTransform.rotation meanShape points = None.
Proof.
  intros Hne. unfold ProcrustesTransform.rotation, Eigen.mul.
  cbn [Eigen.cols Eigen.transpose Eigen.tabulate Eigen.rows ProcrustesTransform.srcPoints].
  rewrite length_centred.
  destruct (Nat.eqb_spec (length points) (Eigen.rows meanShape)) as [E|_]; [|reflexivity].
  congruence.
Qed.

Lemma mul_mismatch (meanShape : Eigen.MatrixXf) (points : list Qt.QPointF) :
  Eigen.rows meanShape <> length points ->
  Eigen.mul (Eigen.transpose (ProcrustesTransform.srcPoints points)) meanShape = None.
Proof.
  intros Hne. unfold Eigen.mul.
  cbn [Eigen.cols Eigen.transpose Eigen.tabulate Eigen.rows ProcrustesTransform.srcPoints].
  rewrite length_centred.
  destruct (Nat.eqb_spec (length points) (Eigen.rows meanShape)) as [E|_]; [|reflexivity].
  congruence.
Qed.

Lemma project_mismatch (meanShape : Eigen.MatrixXf) (src dst : br.Template)
    (points : list Qt.QPointF) :
  ProcrustesTransform.augmented src = Some points ->
  Eigen.rows meanShape <> length points ->
  ProcrustesTransform.project meanShape src dst = None /\
  projectOutcome meanShape src dst = Undefined.
Proof.
  intros Ha Hne. split.
  - unfold ProcrustesTransform.project. rewrite Ha. cbn [mbind option_bind].
    now rewrite rotation_mismatch.
  - unfold projectOutcome. rewrite Ha. now rewrite mul_mismatch.
Qed.

(** C4 (as amended). [project] makes no check of the mean shape and
    raises no error. Called before a mean shape has been learned (the
    mean shape is then 0 x 0), or on a sample whose number of augmented
    points differs from the number of rows of the mean shape, it
    evaluates the product of line 102 on operands whose inner dimensions
    differ, outside the precondition of that product: the call has no
    defined result. *)
Theorem project_undefined_without_matching_meanShape :
  (forall src dst,
      ProcrustesTransform.project Eigen.empty src dst = None /\
      projectOutcome Eigen.empty src dst = Undefined) /\
  (forall meanShape src dst points,
      ProcrustesTransform.augmented src = Some points ->
      Eigen.rows meanShape <> length points ->
      Eigen.mul (Eigen.transpose (ProcrustesTransform.srcPoints points)) meanShape = None /\
      ProcrustesTransform.project meanShape src dst = None /\
      projectOutcome meanShape src dst = Undefined).
Proof.
  split.
  - intros src dst. destruct (ProcrustesTransform.augmented src) as [points|] eqn:Ha.
    + apply (project_mismatch _ _ _ points Ha). cbn [Eigen.rows Eigen.empty].
      unfold ProcrustesTransform.augmented, appendRectCorners in Ha.
      destruct (Qt.at_ _ 0); [|discriminate]. cbn [mbind option_bind] in Ha.
      apply (inj Some) in Ha as <-. rewrite length_app. cbn [length]. lia.
    + unfold ProcrustesTransform.project, projectOutcome. now rewrite Ha.
  - intros meanShape src dst points Ha Hne. split; [now apply mul_mismatch|].
    now apply (project_mismatch _ _ _ points).
Qed.

End ProjectPreconditions.

(** ** The triangle filter *)

Lemma cvRound_near (v : R) (n : Z) :
  IZR n - / 2 < v < IZR n + / 2 -> cv.cvRound v = n.
Proof.
  intros [Hlo Hhi]. unfold cv.cvRound.
  assert (E : up (v - / 2) = n) by (symmetry; apply tech_up; lra).
  rewrite E. destruct (Req_dec_T (IZR n - v) (/ 2)) as [Heq|_]; [lra|reflexivity].
Qed.

Lemma cvRound_IZR (n : Z) : cv.cvRound (IZR n) = n.
Proof. apply cvRound_near. lra. Qed.

Lemma outside_false (cols rows : Z) (p : cv.Point) :
  DelaunayTransform.outside cols rows p = false <->
  (0 < cv.x p <= cols)%Z /\ (0 < cv.y p <= rows)%Z.
Proof.
  unfold DelaunayTransform.outside.
  rewrite !orb_false_iff, !Z.gtb_ltb, !Z.ltb_ge, !Z.leb_gt. lia.
Qed.

(** What the filter does: a triangle is kept exactly when each rounded
    vertex has [0 < x <= cols] and [0 < y <= rows]. *)
Lemma validTriangles_kept (cols rows : Z) (triangleList : list cv.Vec6f)
    (triangle : list cv.Point) :
  triangle ∈ DelaunayTransform.validTriangles cols rows triangleList <->
  (exists t, t ∈ triangleList /\ triangle = DelaunayTransform.pt t) /\
  Forall (fun p => (0 < cv.x p <= cols)%Z /\ (0 < cv.y p <= rows)%Z) triangle.
Proof.
  unfold DelaunayTransform.validTriangles, DelaunayTransform.inside.
  rewrite list_elem_of_filter, list_elem_of_fmap, forallb_forall, Forall_forall.
  split.
  - intros [Hin Hex]. split.
    + destruct Hex as (t & -> & Ht). now exists t.
    + intros p Hp. apply outside_false.
      apply list_elem_of_In in Hp. specialize (Hin p Hp). now apply negb_true_iff in Hin.
  - intros [(t & Ht & ->) Hall]. split.
    + intros p Hp. apply negb_true_iff, outside_false, Hall. now apply list_elem_of_In.
    + now exists t.
Qed.

(** C5. The filter keeps a triangle one of whose rounded vertices has
    [x] equal to the image width: in a 100 x 100 image the triangle
    (99.6, 50), (10, 10), (10, 90) rounds to (100, 50), (10, 10), (10, 90)
    and is kept, although the vertex (100, 50) is not strictly inside. *)
Theorem validTriangles_keeps_vertex_on_far_border :
  DelaunayTransform.validTriangles 100 100 [cv.mkVec6f (996 / 10) 50 10 10 10 90]
  = [[cv.mkPoint 100 50; cv.mkPoint 10 10; cv.mkPoint 10 90]].
Proof.
  unfold DelaunayTransform.validTriangles, DelaunayTransform.pt. cbn [map fmap list_fmap cv.v0 cv.v1 cv.v2 cv.v3 cv.v4 cv.v5].
  rewrite (cvRound_near (996 / 10) 100) by lra.
  rewrite !cvRound_IZR. reflexivity.
Qed.

(** ** Centroid, norm and the canonical frame *)

Lemma mean_centroid (points : list Qt.QPointF) :
  ProcrustesTransform.mean points = Spec.centroid points.
Proof.
  unfold ProcrustesTransform.mean, cv.mean, OpenCVUtils.toPoints, Spec.centroid.
  now rewrite !map_map, length_map.
Qed.

Lemma norm_centredNorm (points : list Qt.QPointF) :
  ProcrustesTransform.norm points = Spec.centredNorm points.
Proof.
  unfold ProcrustesTransform.norm, cv.norm, OpenCVUtils.toPoints, ProcrustesTransform.centred,
    Spec.centredNorm.
  rewrite mean_centroid, !map_map. reflexivity.
Qed.

Lemma lookup_centred (points : list Qt.QPointF) (i : nat) (p : Qt.QPointF) :
  points !! i = Some p ->
  nth i (ProcrustesTransform.centred points) (Qt.mkQPointF 0 0)
  = Qt.mkQPointF (Qt.x p - fst (Spec.centroid points)) (Qt.y p - snd (Spec.centroid points)).
Proof.
  intros Hp. unfold ProcrustesTransform.centred. rewrite mean_centroid.
  apply nth_lookup_Some with (d := Qt.mkQPointF 0 0) in Hp as Hn.
  assert (Hi : (i < length points)%nat) by (apply lookup_lt_is_Some; eauto).
  erewrite nth_indep by (rewrite length_map; exact Hi).
  rewrite map_nth. rewrite Hn. reflexivity.
Qed.

(** C2. In [project] every augmented point is mapped into the canonical
    frame by the formula of the specification: the matrix [srcPoints] has
    one row per augmented point and two columns, and its row [i] holds
    [(raw - centroid) / (norm / 150) + 50] for both coordinates of point
    [i], the centroid being the coordinate-wise mean and the norm the
    Euclidean norm of the centred coordinate vector. *)
Theorem srcPoints_canonical_frame (src : br.Template) (points : list Qt.QPointF)
    (i : nat) (p : Qt.QPointF) :
  ProcrustesTransform.augmented src = Some points ->
  points !! i = Some p ->
  let srcPoints := ProcrustesTransform.srcPoints points in
  Eigen.rows srcPoints = length points /\ Eigen.cols srcPoints = 2%nat /\
  Eigen.at_ srcPoints i 0 = Some (Qt.x (Spec.canonical points p)) /\
  Eigen.at_ srcPoints i 1 = Some (Qt.y (Spec.canonical points p)).
Proof.
  intros _ Hp srcPoints.
  assert (Hi : (i < length points)%nat) by (apply lookup_lt_is_Some; eauto).
  unfold srcPoints, ProcrustesTransform.srcPoints.
  split; [cbn; apply length_centred|]. split; [reflexivity|].
  rewrite !at_tabulate by (rewrite ?length_centred; lia).
  rewrite (lookup_centred points i p Hp), norm_centredNorm. split; reflexivity.
Qed.

(** ** Normalization *)

Lemma normalize_refines_spec (points : list Qt.QPointF) :
  ProcrustesTransform.normalize points = Spec.normalize points.
Proof.
  unfold ProcrustesTransform.normalize, ProcrustesTransform.centred, Spec.normalize.
  rewrite norm_centredNorm, mean_centroid, map_map. reflexivity.
Qed.

Lemma centredNorm_sqr (points : list Qt.QPointF) :
  let c := Spec.centroid points in
  Spec.centredNorm points * Spec.centredNorm points
  = sumR (map (fun p => (Qt.x p - fst c) * (Qt.x p - fst c)
                        + (Qt.y p - snd c) * (Qt.y p - snd c)) points).
Proof.
  intros c. unfold Spec.centredNorm. apply sqrt_sqrt.
  apply (sumR_nonneg (fun p => (Qt.x p - fst c) * (Qt.x p - fst c)
                               + (Qt.y p - snd c) * (Qt.y p - snd c))).
  intros p. cbv beta. generalize (Qt.x p - fst c) (Qt.y p - snd c). intros a b. nra.
Qed.

Lemma centredNorm_nonempty (points : list Qt.QPointF) :
  Spec.centredNorm points <> 0 -> (0 < length points)%nat.
Proof.
  destruct points as [|p points]; [|simpl; lia].
  intros Hn. exfalso. apply Hn. unfold Spec.centredNorm. simpl. apply sqrt_0.
Qed.

(** C3. When the norm of the centred points is not zero (which needs at
    least one point), the normalization of [train] (lines 45-49) is the
    one the specification describes, and its result has its centroid at
    the origin and Euclidean norm 1. *)
Theorem normalize_centred_unit (points : list Qt.QPointF) :
  ProcrustesTransform.norm points <> 0 ->
  ProcrustesTransform.normalize points = Spec.normalize points /\
  Spec.centroid (ProcrustesTransform.normalize points) = (0, 0) /\
  Spec.norm (ProcrustesTransform.normalize points) = 1.
Proof.
  rewrite norm_centredNorm, normalize_refines_spec. intros Hn.
  pose proof (centredNorm_nonempty points Hn) as Hlen.
  assert (HN : INR (length points) <> 0) by (apply not_0_INR; lia).
  pose proof (centredNorm_sqr points) as Hsq. cbv zeta in Hsq.
  set (n := Spec.centredNorm points) in *.
  split; [reflexivity|]. unfold Spec.normalize. fold n.
  set (c := Spec.centroid points) in *.
  split.
  - unfold Spec.centroid at 1. rewrite !map_map, length_map. cbn [Qt.x Qt.y].
    assert (Zx : sumR (map (fun p => (Qt.x p - fst c) / n) points) = 0).
    { unfold Rdiv. rewrite (sumR_scale (fun p => Qt.x p - fst c)), sumR_minus_const.
      unfold c, Spec.centroid. cbn [fst]. field. split; assumption. }
    assert (Zy : sumR (map (fun p => (Qt.y p - snd c) / n) points) = 0).
    { unfold Rdiv. rewrite (sumR_scale (fun p => Qt.y p - snd c)), sumR_minus_const.
      unfold c, Spec.centroid. cbn [snd]. field. split; assumption. }
    rewrite Zx, Zy. f_equal; field; assumption.
  - unfold Spec.norm. rewrite map_map. cbn [Qt.x Qt.y].
    rewrite (sumR_ext _ (fun p => ((Qt.x p - fst c) * (Qt.x p - fst c)
                                   + (Qt.y p - snd c) * (Qt.y p - snd c)) * (/ n * / n)))
      by (intros p _; field; assumption).
    rewrite sumR_scale, <- Hsq.
    replace (n * n * (/ n * / n)) with 1 by (field; assumption).
    apply sqrt_1.
Qed.

Lemma normalize_centred_unit_witness :
  ProcrustesTransform.norm Examples.twoPoints <> 0 /\
  Spec.centroid (ProcrustesTransform.normalize Examples.twoPoints) = (0, 0) /\
  Spec.norm (ProcrustesTransform.normalize Examples.twoPoints) = 1.
Proof.
  assert (Hn : ProcrustesTransform.norm Examples.twoPoints <> 0).
  { rewrite norm_centredNorm. unfold Spec.centredNorm, Spec.centroid, Examples.twoPoints.
    cbn [map sumR foldr length Qt.x Qt.y fst snd INR].
    apply Rgt_not_eq, sqrt_lt_R0. lra. }
  split; [exact Hn|]. exact (proj2 (normalize_centred_unit Examples.twoPoints Hn)).
Defined.

(** ** The mean shape *)

Lemma length_normalize (points : list Qt.QPointF) :
  length (ProcrustesTransform.normalize points) = length points.
Proof. unfold ProcrustesTransform.normalize. now rewrite length_map, length_centred. Qed.

Lemma meanPoint_is_Some (shapes : list (list Qt.QPointF)) (i : nat) :
  is_Some (ProcrustesTransform.meanPoint shapes i)
  <-> Forall (fun shape => (i < length shape)%nat) shapes.
Proof.
  unfold ProcrustesTransform.meanPoint, Qt.at_.
  destruct (mapM (fun shape => shape !! i) shapes) as [column|] eqn:E; simpl.
  - split; [intros _|eauto].
    assert (S : is_Some (mapM (fun shape : list Qt.QPointF => shape !! i) shapes)) by eauto.
    apply mapM_is_Some_1 in S. eapply Forall_impl; [exact S|].
    intros shape Hs. now apply lookup_lt_is_Some.
  - split; [intros [? ?]; discriminate|]. intros Hall. exfalso.
    assert (S : is_Some (mapM (fun shape : list Qt.QPointF => shape !! i) shapes)).
    { apply mapM_is_Some_2. eapply Forall_impl; [exact Hall|].
      intros shape Hs. now apply lookup_lt_is_Some. }
    rewrite E in S. destruct S; discriminate.
Qed.

(** The loop of lines 57-72 succeeds when no set is shorter than the
    first one, whatever the sets hold beyond that length. *)
Lemma shapeBuffer_enough (first : list Qt.QPointF) (rest : list (list Qt.QPointF)) :
  Forall (fun shape => (length first <= length shape)%nat) rest ->
  exists meanShape,
    ProcrustesTransform.shapeBuffer (first :: rest) = Some meanShape /\
    Eigen.rows meanShape = length first /\ Eigen.cols meanShape = 2%nat.
Proof.
  intros Hall. unfold ProcrustesTransform.shapeBuffer, Qt.at_. simpl.
  assert (S : is_Some (mapM (ProcrustesTransform.meanPoint (first :: rest))
                         (seq 0 (length first)))).
  { apply mapM_is_Some_2, Forall_forall. intros i Hi. apply elem_of_seq in Hi.
    apply meanPoint_is_Some. constructor; [lia|].
    eapply Forall_impl; [exact Hall|]. simpl. intros; lia. }
  destruct S as [means ->]. simpl. eauto.
Qed.

(** It reads out of range as soon as one set is shorter. *)
Lemma shapeBuffer_short (first : list Qt.QPointF) (rest : list (list Qt.QPointF)) :
  Exists (fun shape => (length shape < length first)%nat) rest ->
  ProcrustesTransform.shapeBuffer (first :: rest) = None.
Proof.
  intros Hex. unfold ProcrustesTransform.shapeBuffer, Qt.at_. simpl.
  apply Exists_exists in Hex as (shape & Hin & Hlt).
  assert (N : mapM (ProcrustesTransform.meanPoint (first :: rest)) (seq 0 (length first)) = None).
  { apply mapM_None_2, Exists_exists. exists (length shape). split.
    - apply elem_of_seq. lia.
    - apply eq_None_not_Some. intros S. apply meanPoint_is_Some in S.
      apply Forall_cons in S as [_ S]. rewrite Forall_forall in S.
      specialize (S shape Hin). lia. }
  now rewrite N.
Qed.

Lemma normalizedPoints_unequal :
  ProcrustesTransform.normalizedPoints Examples.unequal
  = Some [ProcrustesTransform.normalize Examples.fivePoints;
          ProcrustesTransform.normalize Examples.sixPoints].
Proof. reflexivity. Qed.

Lemma normalizedPoints_shorter :
  ProcrustesTransform.normalizedPoints Examples.shorter
  = Some [ProcrustesTransform.normalize Examples.sixPoints;
          ProcrustesTransform.normalize Examples.fivePoints].
Proof. reflexivity. Qed.

(** C6 as the specification states it does not hold: on a training set
    whose second sample has one more landmark than the first, the
    collected shapes have 5 and 6 points and [train] still produces a
    mean shape, of 5 rows. *)
Lemma train_accepts_unequal_counts :
  exists first rest meanShape,
    ProcrustesTransform.normalizedPoints Examples.unequal = Some (first :: rest) /\
    Exists (fun shape => length shape <> length first) rest /\
    ProcrustesTransform.train Examples.unequal = Some meanShape /\
    Eigen.rows meanShape = 5%nat.
Proof.
  destruct (shapeBuffer_enough (ProcrustesTransform.normalize Examples.fivePoints)
              [ProcrustesTransform.normalize Examples.sixPoints])
    as (meanShape & Hs & Hr & _).
  { constructor; [|constructor]. rewrite !length_normalize. simpl. lia. }
  eexists _, _, meanShape. split; [exact normalizedPoints_unequal|].
  split; [|split].
  - apply Exists_cons_hd. rewrite !length_normalize. simpl. lia.
  - unfold ProcrustesTransform.train. rewrite normalizedPoints_unequal. exact Hs.
  - rewrite Hr, length_normalize. reflexivity.
Qed.

(** ** Persistence of the mean shape *)

Lemma length_tabulate (f : nat -> nat -> R) (r c : nat) :
  length (Eigen.coeffs (Eigen.tabulate r c f)) = (r * c)%nat.
Proof.
  unfold Eigen.tabulate. simpl. generalize 0%nat at 2 as s.
  induction r as [|r IH]; intros s; [reflexivity|].
  cbn [seq flat_map]. rewrite length_app, length_map, length_seq, IH. lia.
Qed.

(** Reading what was written gives back the dimensions and every
    coefficient of the matrix, and leaves the rest of the stream. *)
Lemma read_write (A : Eigen.MatrixXf) (rest : ProcrustesTransform.QDataStream) :
  ProcrustesTransform.read (ProcrustesTransform.write [] A ++ rest)
  = Some (Eigen.tabulate (Eigen.rows A) (Eigen.cols A) (Eigen.coeff A), rest).
Proof.
  unfold ProcrustesTransform.write, ProcrustesTransform.read. cbn [app].
  set (D := Eigen.coeffs (Eigen.tabulate (Eigen.rows A) (Eigen.cols A) (Eigen.coeff A))).
  assert (HD : length (map ProcrustesTransform.Float D) = (Eigen.rows A * Eigen.cols A)%nat)
    by (rewrite length_map; apply length_tabulate).
  replace (Eigen.rows A * Eigen.cols A <=? length (map ProcrustesTransform.Float D ++ rest))%nat
    with true by (symmetry; apply Nat.leb_le; rewrite length_app; lia).
  rewrite <- HD, take_app_length, drop_app_length.
  assert (HM : mapM ProcrustesTransform.floatOf (map ProcrustesTransform.Float D) = Some D)
    by (apply mapM_Some, Forall2_fmap_l, Forall_Forall2_diag, Forall_forall; reflexivity).
  rewrite HM. reflexivity.
Qed.

Section Persistence.
Context `{Eigen.SVDSolver}.

(** The product of line 102 only reads the dimensions and the
    coefficients in range of its right factor. *)
Lemma mul_tabulate_coeff (S A : Eigen.MatrixXf) :
  Eigen.mul S (Eigen.tabulate (Eigen.rows A) (Eigen.cols A) (Eigen.coeff A)) = Eigen.mul S A.
Proof.
  unfold Eigen.mul. cbn [Eigen.rows Eigen.cols Eigen.tabulate].
  destruct (Nat.eqb_spec (Eigen.cols S) (Eigen.rows A)) as [E|_]; [|reflexivity].
  f_equal. apply tabulate_ext. intros i j Hi Hj.
  apply sumR_ext. intros k Hk. apply in_seq in Hk.
  rewrite coeff_tabulate by lia. reflexivity.
Qed.

(** C9. Writing the mean shape with [store] and reading it back with
    [load] gives a mean shape with which [project] returns, on every
    sample, the same result (the same seven scalars, or the same
    failure) as with the mean shape that was stored. *)
Theorem store_load_project (meanShape : Eigen.MatrixXf)
    (rest : ProcrustesTransform.QDataStream) (src dst : br.Template) :
  exists meanShape',
    ProcrustesTransform.load (ProcrustesTransform.store meanShape [] ++ rest)
    = Some (meanShape', rest) /\
    ProcrustesTransform.project meanShape' src dst
    = ProcrustesTransform.project meanShape src dst.
Proof.
  eexists. split; [apply read_write|].
  unfold ProcrustesTransform.project, ProcrustesTransform.rotation.
  destruct (ProcrustesTransform.augmented src) as [points|]; [|reflexivity].
  cbn [mbind option_bind]. now rewrite mul_tabulate_coeff.
Qed.

End Persistence.

(** ** Orthogonality of the rotation *)

(** A square matrix of order 2 with orthonormal columns has orthonormal
    rows. *)
Lemma orthonormal_rows (a b c d : R) :
  a * a + c * c = 1 -> a * b + c * d = 0 -> b * b + d * d = 1 ->
  a * a + b * b = 1 /\ a * c + b * d = 0 /\ c * c + d * d = 1.
Proof.
  intros E1 E2 E3.
  assert (F1 : a * a + b * b - 1
               = (a * b - c * d) * (a * b + c * d) - a * a * (b * b + d * d - 1)
                 - b * b * (a * a + c * c - 1) + (a * a + c * c - 1) * (b * b + d * d)
                 + (b * b + d * d - 1)) by ring.
  assert (F2 : a * c + b * d
               = (a * b + c * d) * (a * d + b * c) - a * c * (b * b + d * d - 1)
                 - b * d * (a * a + c * c - 1)) by ring.
  assert (F3 : c * c + d * d - 1
               = (c * d - a * b) * (a * b + c * d) - c * c * (b * b + d * d - 1)
                 - d * d * (a * a + c * c - 1) + (a * a + c * c - 1) * (b * b + d * d)
                 + (b * b + d * d - 1)) by ring.
  rewrite E1, E2, E3 in F1, F2, F3. lra.
Qed.

(** The product [U * V^T] of two such matrices has orthonormal columns. *)
Lemma product_orthonormal (u00 u01 u10 u11 v00 v01 v10 v11 : R) :
  u00 * u00 + u10 * u10 = 1 -> u00 * u01 + u10 * u11 = 0 -> u01 * u01 + u11 * u11 = 1 ->
  v00 * v00 + v10 * v10 = 1 -> v00 * v01 + v10 * v11 = 0 -> v01 * v01 + v11 * v11 = 1 ->
  let r00 := u00 * v00 + u01 * v01 in
  let r01 := u00 * v10 + u01 * v11 in
  let r10 := u10 * v00 + u11 * v01 in
  let r11 := u10 * v10 + u11 * v11 in
  r00 * r00 + r10 * r10 = 1 /\ r00 * r01 + r10 * r11 = 0 /\ r01 * r01 + r11 * r11 = 1.
Proof.
  intros U1 U2 U3 V1 V2 V3 r00 r01 r10 r11.
  destruct (orthonormal_rows v00 v01 v10 v11 V1 V2 V3) as (W1 & W2 & W3).
  assert (F1 : r00 * r00 + r10 * r10
               = v00 * v00 * (u00 * u00 + u10 * u10) + v01 * v01 * (u01 * u01 + u11 * u11)
                 + 2 * v00 * v01 * (u00 * u01 + u10 * u11)) by (unfold r00, r10; ring).
  assert (F2 : r00 * r01 + r10 * r11
               = v00 * v10 * (u00 * u00 + u10 * u10) + v01 * v11 * (u01 * u01 + u11 * u11)
                 + (v00 * v11 + v01 * v10) * (u00 * u01 + u10 * u11))
    by (unfold r00, r01, r10, r11; ring).
  assert (F3 : r01 * r01 + r11 * r11
               = v10 * v10 * (u00 * u00 + u10 * u10) + v11 * v11 * (u01 * u01 + u11 * u11)
                 + 2 * v10 * v11 * (u00 * u01 + u10 * u11)) by (unfold r01, r11; ring).
  rewrite U1, U2, U3 in F1, F2, F3. lra.
Qed.

Lemma tabulate_2x2 (f g : nat -> nat -> R) :
  Eigen.tabulate 2 2 f = Eigen.tabulate 2 2 g <->
  f 0%nat 0%nat = g 0%nat 0%nat /\ f 0%nat 1%nat = g 0%nat 1%nat /\
  f 1%nat 0%nat = g 1%nat 0%nat /\ f 1%nat 1%nat = g 1%nat 1%nat.
Proof.
  cbv [Eigen.tabulate flat_map map seq app]. split.
  - intros E. injection E as E1 E2 E3 E4. auto.
  - intros (E1 & E2 & E3 & E4). congruence.
Qed.

Lemma coeff_transpose (Q : Eigen.MatrixXf) (i j : nat) :
  (i < Eigen.cols Q)%nat -> (j < Eigen.rows Q)%nat ->
  Eigen.coeff (Eigen.transpose Q) i j = Eigen.coeff Q j i.
Proof. intros Hi Hj. unfold Eigen.transpose. now rewrite coeff_tabulate. Qed.

Lemma rows_transpose (Q : Eigen.MatrixXf) : Eigen.rows (Eigen.transpose Q) = Eigen.cols Q.
Proof. reflexivity. Qed.

Lemma cols_transpose (Q : Eigen.MatrixXf) : Eigen.cols (Eigen.transpose Q) = Eigen.rows Q.
Proof. reflexivity. Qed.

Lemma mul_Some (A B : Eigen.MatrixXf) :
  Eigen.cols A = Eigen.rows B ->
  Eigen.mul A B
  = Some (Eigen.tabulate (Eigen.rows A) (Eigen.cols B)
            (fun i j => sumR (map (fun k => Eigen.coeff A i k * Eigen.coeff B k j)
                                (seq 0 (Eigen.cols A))))).
Proof. intros E. unfold Eigen.mul. now rewrite (proj2 (Nat.eqb_eq _ _) E). Qed.

Lemma mul_shape (A B M : Eigen.MatrixXf) :
  Eigen.mul A B = Some M -> Eigen.rows M = Eigen.rows A /\ Eigen.cols M = Eigen.cols B.
Proof.
  unfold Eigen.mul. destruct (Eigen.cols A =? Eigen.rows B)%nat; [|discriminate].
  intros E. apply (inj Some) in E as <-. split; reflexivity.
Qed.

Lemma orthonormal_2x2 (Q : Eigen.MatrixXf) :
  Eigen.rows Q = 2%nat -> Eigen.cols Q = 2%nat ->
  (Eigen.orthonormal Q <->
   let '(a, b, c, d) := entries Q in
   a * a + c * c = 1 /\ a * b + c * d = 0 /\ b * b + d * d = 1).
Proof.
  intros Hr Hc. unfold Eigen.orthonormal, entries.
  rewrite mul_Some by reflexivity.
  rewrite rows_transpose, cols_transpose, Hr, Hc.
  unfold Eigen.identity. cbn [seq map sumR foldr].
  split.
  - intros E. apply (inj Some), tabulate_2x2 in E. cbn [Nat.eqb] in E.
    rewrite !coeff_transpose in E by lia. lra.
  - intros E. f_equal. apply tabulate_2x2. cbn [Nat.eqb].
    rewrite !coeff_transpose by lia. lra.
Qed.



Section Rotation.
Context `{Eigen.SVDSolver}.

(** The result of [project] when the rotation is [R]. *)
Lemma project_rotation (meanShape : Eigen.MatrixXf) (src dst : br.Template)
    (points : list Qt.QPointF) (f : nat -> nat -> R) :
  ProcrustesTransform.augmented src = Some points ->
  ProcrustesTransform.rotation meanShape points = Some (Eigen.tabulate 2 2 f) ->
  exists dst',
    ProcrustesTransform.project meanShape src dst = Some dst' /\
    br.get (br.file dst') "Procrustes_0_0" = Some (f 0 0)%nat /\
    br.get (br.file dst') "Procrustes_1_0" = Some (f 1 0)%nat /\
    br.get (br.file dst') "Procrustes_1_1" = Some (f 1 1)%nat /\
    br.get (br.file dst') "Procrustes_0_1" = Some (f 0 1)%nat /\
    br.get (br.file dst') "Procrustes_mean_0" = Some (fst (ProcrustesTransform.mean points)) /\
    br.get (br.file dst') "Procrustes_mean_1" = Some (snd (ProcrustesTransform.mean points)) /\
    br.get (br.file dst') "Procrustes_norm" = Some (ProcrustesTransform.norm points).
Proof.
  intros Ha Hr. unfold ProcrustesTransform.project. rewrite Ha. cbn [mbind option_bind].
  rewrite Hr. cbn [mbind option_bind]. rewrite !at_tabulate by lia. cbn [mbind option_bind].
  eexists. split; [reflexivity|]. unfold br.get, br.set. cbn [br.file br.metadata].
  repeat split; simplify_map_eq; reflexivity.
Qed.


End Rotation.

Lemma norm_corners : ProcrustesTransform.norm Examples.corners = 5.
Proof.
  rewrite norm_centredNorm. unfold Spec.centredNorm, Spec.centroid, Examples.corners.
  cbn [map sumR foldr length Qt.x Qt.y fst snd INR Qt.topLeft Qt.topRight Qt.bottomLeft
       Qt.bottomRight Examples.rect Qt.left Qt.top Qt.width Qt.height].
  match goal with |- sqrt ?e = _ => replace e with (5 * 5) by field end.
  apply sqrt_square. lra.
Qed.

Lemma crossCovariance_corners :
  Eigen.mul (Eigen.transpose (ProcrustesTransform.srcPoints Examples.corners)) Examples.square
  = Some (Eigen.mkMatrixXf 2 2 [240; 0; 0; 180]).
Proof.
  unfold ProcrustesTransform.srcPoints. rewrite norm_corners.
  unfold ProcrustesTransform.centred, ProcrustesTransform.mean, cv.mean, OpenCVUtils.toPoints,
    OpenCVUtils.toPoint, Examples.corners, Examples.square, Qt.sub.
  matrix_compute.
  cbn [Qt.x Qt.y fst snd INR cv.xf cv.yf Qt.topLeft Qt.topRight Qt.bottomLeft
       Qt.bottomRight Examples.rect Qt.left Qt.top Qt.width Qt.height].
  do 2 f_equal. repeat (apply f_equal2; [field|]). reflexivity.
Qed.




(** ** The rotation of a sample that coincides with the mean shape *)

Lemma cauchy_schwarz {A : Type} (f g : A -> R) (l : list A) :
  sumR (map (fun a => f a * g a) l) * sumR (map (fun a => f a * g a) l)
  <= sumR (map (fun a => f a * f a) l) * sumR (map (fun a => g a * g a) l).
Proof.
  induction l as [|a l IH]; [simpl; lra|].
  cbn [map sumR foldr].
  fold (sumR (map (fun a => f a * g a) l)). fold (sumR (map (fun a => f a * f a) l)).
  fold (sumR (map (fun a => g a * g a) l)).
  pose proof (sumR_nonneg (fun a => f a * f a) l) as Hp.
  pose proof (sumR_nonneg (fun a => g a * g a) l) as Hq.
  assert (0 <= sumR (map (fun a => f a * f a) l)) as Hp' by (apply Hp; intros; nra).
  assert (0 <= sumR (map (fun a => g a * g a) l)) as Hq' by (apply Hq; intros; nra).
  clear Hp Hq.
  generalize dependent (sumR (map (fun a => f a * g a) l)).
  generalize dependent (sumR (map (fun a => f a * f a) l)).
  generalize dependent (sumR (map (fun a => g a * g a) l)).
  generalize (f a) (g a). clear. intros u v q Hq p Hp x IH.
  (* (u v + x)^2 <= (u^2 + p)(v^2 + q) *)
  assert (K : 2 * (u * v * x) <= u * u * q + v * v * p).
  { destruct (Rle_lt_or_eq_dec 0 p Hp) as [Hpos|<-].
    - apply Rmult_le_reg_l with p; [assumption|].
      assert (0 <= (p * v - x * u) * (p * v - x * u)) by (generalize (p * v - x * u); intros; nra).
      assert (0 <= (p * q - x * x) * (u * u)) by (apply Rmult_le_pos; nra).
      nra.
    - assert (x = 0) by nra. subst x. nra. }
  nra.
Qed.

(** A matrix of order 2 with orthonormal columns is a rotation or a
    reflection. *)
Lemma orthogonal_kind (a b c d : R) :
  a * a + c * c = 1 -> a * b + c * d = 0 -> b * b + d * d = 1 ->
  (d = a /\ b = - c) \/ (d = - a /\ b = c).
Proof.
  intros E1 E2 E3.
  destruct (orthonormal_rows a b c d E1 E2 E3) as (G1 & G2 & G3).
  set (t := a * d - b * c).
  assert (T : t * t = 1).
  { unfold t. replace ((a * d - b * c) * (a * d - b * c))
      with ((a * a + c * c) * (b * b + d * d) - (a * b + c * d) * (a * b + c * d)) by ring.
    rewrite E1, E2, E3. ring. }
  assert (D : d = t * a).
  { replace d with (d * (a * a + c * c)) at 1 by (rewrite E1; ring).
    replace (d * (a * a + c * c)) with (a * (a * d - b * c) + c * (a * b + c * d)) by ring.
    rewrite E2. unfold t. ring. }
  assert (B : b = - t * c).
  { replace b with (b * (a * a + c * c)) at 1 by (rewrite E1; ring).
    replace (b * (a * a + c * c)) with (a * (a * b + c * d) - c * (a * d - b * c)) by ring.
    rewrite E2. unfold t. ring. }
  assert (K : t = 1 \/ t = -1).
  { assert ((t - 1) * (t + 1) = 0) by (ring_simplify; rewrite <- T; ring).
    apply Rmult_integral in H. destruct H; [left|right]; lra. }
  destruct K as [K|K]; rewrite K in D, B; [left|right]; split; lra.
Qed.


(** When [M = U * diag(s) * V^T] is symmetric with a non-negative
    diagonal and a positive determinant, [U * V^T] is the identity. *)
Lemma polar_identity (u00 u01 u10 u11 v00 v01 v10 v11 s0 s1 m00 m01 m10 m11 : R) :
  u00 * u00 + u10 * u10 = 1 -> u00 * u01 + u10 * u11 = 0 -> u01 * u01 + u11 * u11 = 1 ->
  v00 * v00 + v10 * v10 = 1 -> v00 * v01 + v10 * v11 = 0 -> v01 * v01 + v11 * v11 = 1 ->
  0 <= s0 -> 0 <= s1 ->
  m00 = u00 * s0 * v00 + u01 * s1 * v01 ->
  m01 = u00 * s0 * v10 + u01 * s1 * v11 ->
  m10 = u10 * s0 * v00 + u11 * s1 * v01 ->
  m11 = u10 * s0 * v10 + u11 * s1 * v11 ->
  m01 = m10 -> 0 <= m00 -> 0 <= m11 -> 0 < m00 * m11 - m01 * m10 ->
  u00 * v00 + u01 * v01 = 1 /\ u00 * v10 + u01 * v11 = 0 /\
  u10 * v00 + u11 * v01 = 0 /\ u10 * v10 + u11 * v11 = 1.
Proof.
  intros U1 U2 U3 V1 V2 V3 S0 S1 M00 M01 M10 M11 Hsym Hm Hk Hdet.
  destruct (product_orthonormal _ _ _ _ _ _ _ _ U1 U2 U3 V1 V2 V3) as (R1 & R2 & R3).
  cbv zeta in R1, R2, R3.
  set (r00 := u00 * v00 + u01 * v01) in *. set (r01 := u00 * v10 + u01 * v11) in *.
  set (r10 := u10 * v00 + u11 * v01) in *. set (r11 := u10 * v10 + u11 * v11) in *.
  set (c00 := u00 * u00 + u10 * u10) in *. set (c01 := u00 * u01 + u10 * u11) in *.
  set (c11 := u01 * u01 + u11 * u11) in *.
  assert (P00 : r00 * m00 + r10 * m10 = s0 * v00 * v00 + s1 * v01 * v01).
  { transitivity (v00 * s0 * v00 * c00 + v00 * s1 * v01 * c01 + v01 * s0 * v00 * c01
                  + v01 * s1 * v01 * c11).
    - subst m00 m10. unfold r00, r10, c00, c01, c11. ring.
    - rewrite U1, U2, U3. ring. }
  assert (P01 : r00 * m01 + r10 * m11 = s0 * v00 * v10 + s1 * v01 * v11).
  { transitivity (v00 * s0 * v10 * c00 + v00 * s1 * v11 * c01 + v01 * s0 * v10 * c01
                  + v01 * s1 * v11 * c11).
    - subst m01 m11. unfold r00, r10, c00, c01, c11. ring.
    - rewrite U1, U2, U3. ring. }
  assert (P10 : r01 * m00 + r11 * m10 = s0 * v10 * v00 + s1 * v11 * v01).
  { transitivity (v10 * s0 * v00 * c00 + v10 * s1 * v01 * c01 + v11 * s0 * v00 * c01
                  + v11 * s1 * v01 * c11).
    - subst m00 m10. unfold r01, r11, c00, c01, c11. ring.
    - rewrite U1, U2, U3. ring. }
  assert (P11 : r01 * m01 + r11 * m11 = s0 * v10 * v10 + s1 * v11 * v11).
  { transitivity (v10 * s0 * v10 * c00 + v10 * s1 * v11 * c01 + v11 * s0 * v10 * c01
                  + v11 * s1 * v11 * c11).
    - subst m01 m11. unfold r01, r11, c00, c01, c11. ring.
    - rewrite U1, U2, U3. ring. }
  assert (Htr : 0 <= (r00 * m00 + r10 * m10) + (r01 * m01 + r11 * m11)).
  { rewrite P00, P11.
    assert (0 <= s0 * (v00 * v00 + v10 * v10)) by (rewrite V1; lra).
    assert (0 <= s1 * (v01 * v01 + v11 * v11)) by (rewrite V3; lra). lra. }
  assert (Hdp : 0 <= (r00 * m00 + r10 * m10) * (r01 * m01 + r11 * m11)
                     - (r00 * m01 + r10 * m11) * (r01 * m00 + r11 * m10)).
  { rewrite P00, P01, P10, P11.
    replace ((s0 * v00 * v00 + s1 * v01 * v01) * (s0 * v10 * v10 + s1 * v11 * v11)
             - (s0 * v00 * v10 + s1 * v01 * v11) * (s0 * v10 * v00 + s1 * v11 * v01))
      with (s0 * s1 * ((v00 * v11 - v01 * v10) * (v00 * v11 - v01 * v10))) by ring.
    apply Rmult_le_pos; [apply Rmult_le_pos; assumption|].
    generalize (v00 * v11 - v01 * v10). intros z. nra. }
  assert (Hsym' : r00 * m01 + r10 * m11 = r01 * m00 + r11 * m10)
    by (rewrite P01, P10; ring).
  assert (Hpos : 0 < m00 + m11) by nra.
  clearbody r00 r01 r10 r11. clear P00 P01 P10 P11.
  destruct (orthogonal_kind r00 r01 r10 r11 R1 R2 R3) as [[E1 E2]|[E1 E2]]; subst r11 r01.
  - assert (C : r10 * (m00 + m11) = 0) by (rewrite <- Hsym in *; lra).
    apply Rmult_integral in C. destruct C as [C|C]; [|lra]. subst r10.
    assert (A : (r00 - 1) * (r00 + 1) = 0) by lra.
    assert (T : 0 <= r00 * (m00 + m11)) by lra.
    apply Rmult_integral in A. destruct A as [A|A]; [repeat split; lra|].
    exfalso. assert (r00 = -1) by lra. subst r00. lra.
  - exfalso.
    assert (D : (r00 * m00 + r10 * m10) * (r10 * m01 + - r00 * m11)
                - (r00 * m01 + r10 * m11) * (r10 * m00 + - r00 * m10)
                = - (r00 * r00 + r10 * r10) * (m00 * m11 - m01 * m10)) by ring.
    rewrite D, R1 in Hdp. lra.
Qed.

Lemma coeff_gram (S M : Eigen.MatrixXf) (i j : nat) :
  Eigen.cols S = 2%nat -> Eigen.mul (Eigen.transpose S) S = Some M ->
  (i < 2)%nat -> (j < 2)%nat ->
  Eigen.coeff M i j
  = sumR (map (fun k => Eigen.coeff S k i * Eigen.coeff S k j) (seq 0 (Eigen.rows S))).
Proof.
  intros Hc E Hi Hj. rewrite mul_Some in E by reflexivity. apply (inj Some) in E as <-.
  rewrite rows_transpose, cols_transpose, Hc. rewrite coeff_tabulate by lia.
  apply sumR_ext. intros k Hk. apply in_seq in Hk.
  rewrite coeff_transpose by lia. reflexivity.
Qed.

Section Coincidence.
Context `{Eigen.SVDSolver}.

(** When the canonical-frame points of the sample are the mean shape
    itself, Eigen returns a thin singular value decomposition of the
    cross-covariance matrix and that matrix is nonsingular, the rotation
    computed by [project] is the identity of order 2. *)
Lemma rotation_identity_nonsingular (src : br.Template) (points : list Qt.QPointF)
    (M : Eigen.MatrixXf) :
  ProcrustesTransform.augmented src = Some points ->
  let meanShape := ProcrustesTransform.srcPoints points in
  Eigen.mul (Eigen.transpose (ProcrustesTransform.srcPoints points)) meanShape = Some M ->
  Eigen.thinSVD M (Eigen.compute M) ->
  Eigen.coeff M 0 0 * Eigen.coeff M 1 1 - Eigen.coeff M 0 1 * Eigen.coeff M 1 0 <> 0 ->
  ProcrustesTransform.rotation meanShape points = Some (Eigen.identity 2).
Proof.
  intros _ meanShape EM Hsvd Hdet. unfold meanShape in *. clear meanShape.
  set (S := ProcrustesTransform.srcPoints points) in *.
  assert (HSc : Eigen.cols S = 2%nat) by reflexivity.
  destruct (mul_shape _ _ _ EM) as [HMr HMc].
  rewrite rows_transpose, HSc in HMr. rewrite HSc in HMc.
  pose proof (coeff_gram S M 0 0 HSc EM ltac:(lia) ltac:(lia)) as G00.
  pose proof (coeff_gram S M 0 1 HSc EM ltac:(lia) ltac:(lia)) as G01.
  pose proof (coeff_gram S M 1 0 HSc EM ltac:(lia) ltac:(lia)) as G10.
  pose proof (coeff_gram S M 1 1 HSc EM ltac:(lia) ltac:(lia)) as G11.
  assert (Hsym : Eigen.coeff M 0 1 = Eigen.coeff M 1 0).
  { rewrite G01, G10. apply sumR_ext. intros k _. ring. }
  assert (H00 : 0 <= Eigen.coeff M 0 0).
  { rewrite G00. apply (sumR_nonneg (fun k => Eigen.coeff S k 0 * Eigen.coeff S k 0)).
    intros k. generalize (Eigen.coeff S k 0). intros z. nra. }
  assert (H11 : 0 <= Eigen.coeff M 1 1).
  { rewrite G11. apply (sumR_nonneg (fun k => Eigen.coeff S k 1 * Eigen.coeff S k 1)).
    intros k. generalize (Eigen.coeff S k 1). intros z. nra. }
  assert (Hcs : Eigen.coeff M 0 1 * Eigen.coeff M 0 1
                <= Eigen.coeff M 0 0 * Eigen.coeff M 1 1).
  { rewrite G00, G01, G11.
    apply (cauchy_schwarz (fun k => Eigen.coeff S k 0) (fun k => Eigen.coeff S k 1)). }
  assert (Hpos : 0 < Eigen.coeff M 0 0 * Eigen.coeff M 1 1
                     - Eigen.coeff M 0 1 * Eigen.coeff M 1 0).
  { rewrite <- Hsym in *. lra. }
  clear G00 G01 G10 G11 Hcs Hdet.
  destruct Hsvd as (HUr & HUc & HVr & HVc & Hlen & HU & HV & Hs & _ & Hfact).
  rewrite HMr, HMc in *. cbn [Nat.min] in HUc, HVc, Hlen.
  set (svd := Eigen.compute M) in *.
  destruct (Eigen.singularValues svd) as [|s0 [|s1 [|s2 s]]]; try discriminate Hlen.
  apply Forall_cons in Hs as [Hs0 Hs]. apply Forall_cons in Hs as [Hs1 _].
  apply orthonormal_2x2 in HU; [|assumption..].
  apply orthonormal_2x2 in HV; [|assumption..].
  unfold entries in HU, HV. destruct HU as (U1 & U2 & U3), HV as (V1 & V2 & V3).
  rewrite mul_Some in Hfact by (rewrite HUc; reflexivity). cbn [mbind option_bind] in Hfact.
  rewrite mul_Some in Hfact by (rewrite rows_transpose, HVc; reflexivity).
  apply (inj Some) in Hfact.
  cbn [Eigen.rows Eigen.cols Eigen.tabulate Eigen.diagonal length] in Hfact.
  rewrite cols_transpose, HUr, HUc, HVr in Hfact. cbn [seq map sumR foldr] in Hfact.
  apply tabulate_2x2 in Hfact. unfold Eigen.diagonal in Hfact.
  rewrite !coeff_tabulate in Hfact by (cbn [length]; lia).
  rewrite !coeff_transpose in Hfact by lia. cbn [nth Nat.eqb] in Hfact.
  destruct Hfact as (F00 & F01 & F10 & F11).
  destruct (polar_identity _ _ _ _ _ _ _ _ s0 s1
              (Eigen.coeff M 0 0) (Eigen.coeff M 0 1) (Eigen.coeff M 1 0) (Eigen.coeff M 1 1)
              U1 U2 U3 V1 V2 V3 Hs0 Hs1)
    as (R00 & R01 & R10 & R11); try assumption;
    try (rewrite <- ?F00, <- ?F01, <- ?F10, <- ?F11; ring).
  unfold ProcrustesTransform.rotation. fold S. rewrite EM. cbn [mbind option_bind]. fold svd.
  rewrite mul_Some by (rewrite rows_transpose; congruence).
  rewrite cols_transpose, HUr, HUc, HVr. cbn [seq map sumR foldr].
  f_equal. apply tabulate_2x2. cbn [Nat.eqb].
  rewrite !coeff_transpose by lia. lra.
Qed.

End Coincidence.

Lemma norm_diagonal : ProcrustesTransform.norm Examples.diagonal = 2.
Proof.
  rewrite norm_centredNorm. unfold Spec.centredNorm, Spec.centroid, Examples.diagonal.
  cbn [map sumR foldr length Qt.x Qt.y fst snd INR Qt.topLeft Qt.topRight Qt.bottomLeft
       Qt.bottomRight Examples.flat Qt.left Qt.top Qt.width Qt.height].
  match goal with |- sqrt ?e = _ => replace e with (2 * 2) by field end.
  apply sqrt_square. lra.
Qed.

Lemma crossCovariance_diagonal :
  Eigen.mul (Eigen.transpose (ProcrustesTransform.srcPoints Examples.diagonal))
    (ProcrustesTransform.srcPoints Examples.diagonal)
  = Some (Eigen.mkMatrixXf 2 2 [26250; 26250; 26250; 26250]).
Proof.
  unfold ProcrustesTransform.srcPoints. rewrite norm_diagonal.
  unfold ProcrustesTransform.centred, ProcrustesTransform.mean, cv.mean, OpenCVUtils.toPoints,
    OpenCVUtils.toPoint, Examples.diagonal, Qt.sub.
  matrix_compute.
  cbn [Qt.x Qt.y fst snd INR cv.xf cv.yf Qt.topLeft Qt.topRight Qt.bottomLeft
       Qt.bottomRight Examples.flat Qt.left Qt.top Qt.width Qt.height].
  do 2 f_equal. repeat (apply f_equal2; [field|]). reflexivity.
Qed.

(** The contract of the decomposition does not fix [U * V^T] for a
    singular matrix: on the sample [Examples.onDiagonal], taken as its own
    mean shape, the solver [Examples.reflecting] returns a thin singular
    value decomposition of the cross-covariance matrix, and the rotation
    is the reflection that exchanges the two axes. *)
Remark rank_deficient_reflection :
  ProcrustesTransform.augmented Examples.onDiagonal = Some Examples.diagonal /\
  (forall M,
     Eigen.mul (Eigen.transpose (ProcrustesTransform.srcPoints Examples.diagonal))
       (ProcrustesTransform.srcPoints Examples.diagonal) = Some M ->
     Eigen.thinSVD M (Examples.reflecting M)) /\
  ProcrustesTransform.rotation (H := Examples.reflecting)
    (ProcrustesTransform.srcPoints Examples.diagonal) Examples.diagonal
  = Some (Eigen.mkMatrixXf 2 2 [0; 1; 1; 0]).
Proof.
  assert (Hh : / sqrt 2 * / sqrt 2 = / 2).
  { rewrite <- Rinv_mult. f_equal. apply sqrt_sqrt. lra. }
  split; [reflexivity|]. split.
  - rewrite crossCovariance_diagonal. intros M E. apply (inj Some) in E as <-.
    unfold Eigen.thinSVD, Examples.reflecting.
    cbn [Eigen.matrixU Eigen.matrixV Eigen.singularValues Eigen.rows Eigen.cols Nat.min].
    repeat split; try reflexivity.
    + apply orthonormal_2x2; [reflexivity..|]. unfold entries, Eigen.coeff. cbn. nra.
    + apply orthonormal_2x2; [reflexivity..|]. unfold entries, Eigen.coeff. cbn. nra.
    + repeat constructor; lra.
    + lra.
    + matrix_compute. do 2 f_equal. repeat (apply f_equal2; [nra|]). reflexivity.
  - unfold ProcrustesTransform.rotation. rewrite crossCovariance_diagonal.
    cbn [mbind option_bind]. unfold Examples.reflecting, Eigen.compute.
    matrix_compute. do 2 f_equal. repeat (apply f_equal2; [nra|]). reflexivity.
Qed.

(** ** The piecewise warp *)

Lemma validTriangles_three (cols rows : Z) (triangleList : list cv.Vec6f)
    (triangle : list cv.Point) :
  triangle ∈ DelaunayTransform.validTriangles cols rows triangleList ->
  exists a b c, triangle = [a; b; c].
Proof.
  intros Hin. apply validTriangles_kept in Hin as [(t & _ & ->) _].
  unfold DelaunayTransform.pt. eauto.
Qed.




Section Warp.
Context `{cv.ImgProc}.





Lemma foreach_drawTriangle (triangles : list (list cv.Point)) (img : cv.Mat) :
  Forall (fun triangle => exists a b c, triangle = [a; b; c]) triangles ->
  is_Some (DelaunayTransform.foreach DelaunayTransform.drawTriangle img triangles).
Proof.
  intros Hall. revert img.
  induction Hall as [|triangle triangles (a & b & c & ->) _ IH]; intros img; simpl; eauto.
Qed.





End Warp.

(** ** The theorems at concrete samples *)

Lemma first_rectangle_is_required_witness :
  ProcrustesTransform.train [Examples.noRect] = None /\
  ProcrustesTransform.project (H := Examples.solver) Examples.square
    Examples.noRect Examples.noRect = None /\
  DelaunayTransform.project (H := Examples.imgproc) false Examples.noRect Examples.noRect
  = None.
Proof.
  destruct (@first_rectangle_is_required Examples.solver Examples.imgproc)
    as (_ & _ & Ht & Hp & Hd).
  split; [|split].
  - apply (Ht [Examples.noRect] Examples.noRect); [left; reflexivity|discriminate|reflexivity].
  - apply Hp. reflexivity.
  - apply Hd. reflexivity.
Defined.

Lemma project_undefined_without_matching_meanShape_witness :
  projectOutcome (H := Examples.solver) Eigen.empty
    Examples.cornersOnly Examples.cornersOnly = Undefined /\
  Eigen.mul (Eigen.transpose (ProcrustesTransform.srcPoints Examples.corners))
    Examples.threeRows = None /\
  projectOutcome (H := Examples.solver) Examples.threeRows
    Examples.cornersOnly Examples.cornersOnly = Undefined.
Proof.
  destruct (@project_undefined_without_matching_meanShape Examples.solver) as (Hu & Hm).
  split; [apply Hu|].
  destruct (Hm Examples.threeRows Examples.cornersOnly Examples.cornersOnly Examples.corners)
    as (Hmul & _ & Hout).
  - reflexivity.
  - simpl. lia.
  - split; assumption.
Defined.

(** C4 as the specification states it does not hold: with a mean shape
    of three rows and a sample of four augmented points the call ends
    outside the precondition of the product of line 102; no error is
    raised. *)
Lemma project_mismatch_raises_nothing :
  ProcrustesTransform.augmented Examples.cornersOnly = Some Examples.corners /\
  Eigen.rows Examples.threeRows <> length Examples.corners /\
  projectOutcome (H := Examples.solver) Examples.threeRows
    Examples.cornersOnly Examples.cornersOnly = Undefined /\
  projectOutcome (H := Examples.solver) Examples.threeRows
    Examples.cornersOnly Examples.cornersOnly <> Raised.
Proof.
  assert (E : projectOutcome (H := Examples.solver) Examples.threeRows
                Examples.cornersOnly Examples.cornersOnly = Undefined).
  { apply (project_mismatch (H := Examples.solver) _ _ _ Examples.corners); [reflexivity|].
    simpl. lia. }
  split; [reflexivity|]. split; [simpl; lia|]. split; [exact E|].
  rewrite E. discriminate.
Qed.

Lemma srcPoints_canonical_frame_witness :
  Eigen.at_ (ProcrustesTransform.srcPoints Examples.corners) 0 0
  = Some (Qt.x (Spec.canonical Examples.corners (Qt.topLeft Examples.rect))) /\
  Eigen.at_ (ProcrustesTransform.srcPoints Examples.corners) 0 1
  = Some (Qt.y (Spec.canonical Examples.corners (Qt.topLeft Examples.rect))).
Proof.
  destruct (srcPoints_canonical_frame Examples.cornersOnly Examples.corners 0
              (Qt.topLeft Examples.rect) eq_refl eq_refl) as (_ & _ & Hx & Hy).
  split; assumption.
Defined.



(** * Further properties of [ProcrustesTransform] *)

(** ** Moved and scaled samples *)

Lemma sumR_affine {A : Type} (f : A -> R) (c t : R) (l : list A) :
  sumR (map (fun a => c * f a + t) l) = c * sumR (map f l) + INR (length l) * t.
Proof.
  induction l as [|a l IH]; [simpl; lra|].
  cbn [map sumR foldr length]. fold (sumR (map (fun a => c * f a + t) l)).
  fold (sumR (map f l)). rewrite IH, S_INR. lra.
Qed.

Lemma centroid_similar (c tx ty : R) (points : list Qt.QPointF) :
  (0 < length points)%nat ->
  Spec.centroid (map (Similarity.point c tx ty) points)
  = (c * fst (Spec.centroid points) + tx, c * snd (Spec.centroid points) + ty).
Proof.
  intros Hlen. assert (HN : INR (length points) <> 0) by (apply not_0_INR; lia).
  unfold Spec.centroid. rewrite !map_map, length_map. cbn [Similarity.point Qt.x Qt.y fst snd].
  rewrite !sumR_affine. f_equal; field; assumption.
Qed.

Lemma centred_similar (c tx ty : R) (points : list Qt.QPointF) :
  ProcrustesTransform.centred (map (Similarity.point c tx ty) points)
  = map (Similarity.point c 0 0) (ProcrustesTransform.centred points).
Proof.
  destruct points as [|p0 points]; [reflexivity|].
  unfold ProcrustesTransform.centred. rewrite !mean_centroid.
  rewrite centroid_similar by (simpl; lia). rewrite !map_map.
  apply map_ext. intros p. unfold Similarity.point, Qt.sub. cbn [Qt.x Qt.y fst snd].
  f_equal; ring.
Qed.

Lemma norm_similar (c tx ty : R) (points : list Qt.QPointF) :
  0 <= c ->
  ProcrustesTransform.norm (map (Similarity.point c tx ty) points)
  = c * ProcrustesTransform.norm points.
Proof.
  intros Hc. unfold ProcrustesTransform.norm, cv.norm, OpenCVUtils.toPoints.
  rewrite centred_similar, !map_map.
  cbn [OpenCVUtils.toPoint Similarity.point cv.xf cv.yf Qt.x Qt.y].
  rewrite (sumR_ext _ (fun p => (Qt.x p * Qt.x p + Qt.y p * Qt.y p) * (c * c)))
    by (intros p _; ring).
  rewrite sumR_scale, sqrt_mult_alt.
  - rewrite sqrt_square by assumption. ring.
  - apply (sumR_nonneg (fun p => Qt.x p * Qt.x p + Qt.y p * Qt.y p)).
    intros p. generalize (Qt.x p) (Qt.y p). intros a b. nra.
Qed.

Lemma scaled_quotient (c a n : R) : 0 < c -> c * a / (c * n) = a / n.
Proof.
  intros Hc. unfold Rdiv. rewrite Rinv_mult.
  replace (c * a * (/ c * / n)) with (a * / n * (c * / c)) by ring.
  rewrite Rinv_r by lra. ring.
Qed.

Lemma normalize_similar (c tx ty : R) (points : list Qt.QPointF) :
  0 < c ->
  ProcrustesTransform.normalize (map (Similarity.point c tx ty) points)
  = ProcrustesTransform.normalize points.
Proof.
  intros Hc. unfold ProcrustesTransform.normalize.
  rewrite norm_similar by lra. rewrite centred_similar, map_map.
  apply map_ext. intros p. unfold Qt.div, Similarity.point. cbn [Qt.x Qt.y].
  rewrite !Rplus_0_r, !scaled_quotient by assumption. reflexivity.
Qed.

Lemma srcPoints_similar (c tx ty : R) (points : list Qt.QPointF) :
  0 < c ->
  ProcrustesTransform.srcPoints (map (Similarity.point c tx ty) points)
  = ProcrustesTransform.srcPoints points.
Proof.
  intros Hc. unfold ProcrustesTransform.srcPoints.
  rewrite norm_similar by lra. rewrite centred_similar, length_map.
  apply tabulate_ext. intros i j Hi Hj.
  rewrite (nth_indep _ _ (Similarity.point c 0 0 (Qt.mkQPointF 0 0)))
    by (rewrite length_map; exact Hi).
  rewrite map_nth. cbn [Similarity.point Qt.x Qt.y]. rewrite !Rplus_0_r.
  replace (c * ProcrustesTransform.norm points / 150)
    with (c * (ProcrustesTransform.norm points / 150)) by (unfold Rdiv; ring).
  rewrite !scaled_quotient by assumption. reflexivity.
Qed.

Lemma appendRectCorners_similar (c tx ty : R) (t : br.Template) :
  appendRectCorners (fun p => p) (br.points (br.file (Similarity.template c tx ty t)))
    (br.rects (br.file (Similarity.template c tx ty t)))
  = map (Similarity.point c tx ty)
      <$> appendRectCorners (fun p => p) (br.points (br.file t)) (br.rects (br.file t)).
Proof.
  unfold appendRectCorners, Qt.at_. cbn [Similarity.template br.file br.points br.rects].
  destruct (br.rects (br.file t)) as [|r rects]; [reflexivity|].
  cbn [map lookup list_lookup mbind option_bind fmap option_fmap option_map].
  f_equal. rewrite map_app. f_equal. cbn [map].
  unfold Similarity.point, Similarity.rect, Qt.topLeft, Qt.topRight, Qt.bottomLeft,
    Qt.bottomRight. cbn [Qt.x Qt.y Qt.left Qt.top Qt.width Qt.height].
  repeat (f_equal; try ring).
Qed.

Section Invariance.
Context `{Eigen.SVDSolver}.

Lemma project_Some (meanShape : Eigen.MatrixXf) (src dst out : br.Template) :
  ProcrustesTransform.project meanShape src dst = Some out ->
  exists points R r00 r10 r11 r01,
    ProcrustesTransform.augmented src = Some points /\
    ProcrustesTransform.rotation meanShape points = Some R /\
    Eigen.at_ R 0 0 = Some r00 /\ Eigen.at_ R 1 0 = Some r10 /\
    Eigen.at_ R 1 1 = Some r11 /\ Eigen.at_ R 0 1 = Some r01 /\
    out = br.mkTemplate (br.m src)
            (br.set "Procrustes_norm" (ProcrustesTransform.norm points)
            (br.set "Procrustes_mean_1" (snd (ProcrustesTransform.mean points))
            (br.set "Procrustes_mean_0" (fst (ProcrustesTransform.mean points))
            (br.set "Procrustes_0_1" r01
            (br.set "Procrustes_1_1" r11
            (br.set "Procrustes_1_0" r10
            (br.set "Procrustes_0_0" r00 (br.file dst)))))))).
Proof.
  unfold ProcrustesTransform.project. intros E.
  destruct (ProcrustesTransform.augmented src) as [points|] eqn:Ha; [|discriminate].
  cbn [mbind option_bind] in E.
  destruct (ProcrustesTransform.rotation meanShape points) as [R|] eqn:HR; [|discriminate].
  cbn [mbind option_bind] in E.
  destruct (Eigen.at_ R 0 0) as [r00|] eqn:H00; [|discriminate].
  destruct (Eigen.at_ R 1 0) as [r10|] eqn:H10; [|discriminate].
  destruct (Eigen.at_ R 1 1) as [r11|] eqn:H11; [|discriminate].
  destruct (Eigen.at_ R 0 1) as [r01|] eqn:H01; [|discriminate].
  cbn [mbind option_bind] in E. apply (inj Some) in E as <-.
  exists points, R, r00, r10, r11, r01. repeat split; assumption || reflexivity.
Qed.

Lemma rotation_similar (meanShape : Eigen.MatrixXf) (c tx ty : R)
    (points : list Qt.QPointF) :
  0 < c ->
  ProcrustesTransform.rotation meanShape (map (Similarity.point c tx ty) points)
  = ProcrustesTransform.rotation meanShape points.
Proof.
  intros Hc. unfold ProcrustesTransform.rotation. now rewrite srcPoints_similar.
Qed.

(** X1. Moving a sample by [(tx, ty)] and enlarging it by a factor
    [c > 0] (landmark points and rectangles alike) does not change the
    four rotation scalars that [project] attaches; the attached norm is
    multiplied by [c] and the attached centroid is moved like the
    points. *)
Theorem project_similar (meanShape : Eigen.MatrixXf) (c tx ty : R)
    (src dst out : br.Template) :
  0 < c ->
  ProcrustesTransform.project meanShape src dst = Some out ->
  exists out' norm mean0 mean1,
    ProcrustesTransform.project meanShape (Similarity.template c tx ty src) dst = Some out' /\
    (forall key, key ∈ ["Procrustes_0_0"; "Procrustes_1_0"; "Procrustes_1_1"; "Procrustes_0_1"] ->
       br.get (br.file out') key = br.get (br.file out) key) /\
    br.get (br.file out) "Procrustes_norm" = Some norm /\
    br.get (br.file out') "Procrustes_norm" = Some (c * norm) /\
    br.get (br.file out) "Procrustes_mean_0" = Some mean0 /\
    br.get (br.file out') "Procrustes_mean_0" = Some (c * mean0 + tx) /\
    br.get (br.file out) "Procrustes_mean_1" = Some mean1 /\
    br.get (br.file out') "Procrustes_mean_1" = Some (c * mean1 + ty).
Proof.
  intros Hc E.
  destruct (project_Some _ _ _ _ E) as (points & R & r00 & r10 & r11 & r01 & Ha & HR
                                        & H00 & H10 & H11 & H01 & ->).
  assert (Ha' : ProcrustesTransform.augmented (Similarity.template c tx ty src)
                = Some (map (Similarity.point c tx ty) points)).
  { unfold ProcrustesTransform.augmented in *. rewrite appendRectCorners_similar, Ha.
    reflexivity. }
  assert (Hm : ProcrustesTransform.mean (map (Similarity.point c tx ty) points)
               = (c * fst (ProcrustesTransform.mean points) + tx,
                  c * snd (ProcrustesTransform.mean points) + ty)).
  { rewrite !mean_centroid. apply centroid_similar.
    unfold ProcrustesTransform.augmented, appendRectCorners in Ha.
    destruct (Qt.at_ _ 0); [|discriminate]. apply (inj Some) in Ha as <-.
    rewrite length_app. simpl. lia. }
  eexists _, (ProcrustesTransform.norm points), (fst (ProcrustesTransform.mean points)),
    (snd (ProcrustesTransform.mean points)).
  split.
  { unfold ProcrustesTransform.project. rewrite Ha'. cbn [mbind option_bind].
    rewrite rotation_similar, HR by assumption. cbn [mbind option_bind].
    rewrite H00, H10, H11, H01. cbn [mbind option_bind]. reflexivity. }
  rewrite norm_similar, Hm by lra.
  unfold br.get, br.set. cbn [br.file br.metadata fst snd].
  split.
  { intros key Hkey. repeat (apply elem_of_cons in Hkey as [->|Hkey]);
      [simplify_map_eq; reflexivity..|]. now apply elem_of_nil in Hkey. }
  repeat split; simplify_map_eq; reflexivity.
Qed.

End Invariance.

(** ** Training on moved and scaled samples *)

Lemma normalizedPoints_similar (data data' : list br.Template) :
  Forall2 Similarity.related data data' ->
  ProcrustesTransform.normalizedPoints data' = ProcrustesTransform.normalizedPoints data.
Proof.
  induction 1 as [|t t' data data' (c & tx & ty & Hc & ->) _ IH]; [reflexivity|].
  cbn [ProcrustesTransform.normalizedPoints]. rewrite IH.
  rewrite appendRectCorners_similar.
  cbn [Similarity.template br.file br.points]. rewrite length_map.
  destruct (length (br.points (br.file t)) =? 0)%nat; [reflexivity|].
  destruct (appendRectCorners _ _ _) as [points|]; [|reflexivity].
  cbn [fmap option_fmap option_map mbind option_bind].
  now rewrite normalize_similar.
Qed.

(** X2. [train] learns the same mean shape from a training set and from
    a copy of it in which every sample has been moved and enlarged by a
    positive factor of its own. *)
Theorem train_similar (data data' : list br.Template) :
  Forall2 Similarity.related data data' ->
  ProcrustesTransform.train data' = ProcrustesTransform.train data.
Proof.
  intros Hrel. unfold ProcrustesTransform.train.
  now rewrite (normalizedPoints_similar data data' Hrel).
Qed.

Lemma nth_map_default {A B : Type} (f : A -> B) (l : list A) (i : nat) (d : B) (d' : A) :
  (i < length l)%nat -> nth i (map f l) d = f (nth i l d').
Proof.
  intros Hi. rewrite (nth_indep _ d (f d')) by (rewrite length_map; exact Hi).
  apply map_nth.
Qed.

Lemma sumR_replicate {A : Type} (f : A -> R) (n : nat) (a : A) :
  sumR (map f (replicate n a)) = INR n * f a.
Proof.
  induction n as [|n IH]; [simpl; lra|].
  cbn [replicate map sumR foldr]. fold (sumR (map f (replicate n a))).
  rewrite IH, S_INR. lra.
Qed.

Lemma meanPoint_replicate (n : nat) (shape : list Qt.QPointF) (i : nat) (p : Qt.QPointF) :
  shape !! i = Some p ->
  ProcrustesTransform.meanPoint (replicate (S n) shape) i = Some (Qt.x p, Qt.y p).
Proof.
  intros Hp. unfold ProcrustesTransform.meanPoint, Qt.at_.
  assert (E : mapM (fun shape : list Qt.QPointF => shape !! i) (replicate (S n) shape)
              = Some (replicate (S n) p)).
  { apply mapM_Some, Forall2_replicate. exact Hp. }
  rewrite E. cbn [mbind option_bind]. rewrite !sumR_replicate, length_replicate.
  assert (HN : INR (S n) <> 0) by (apply not_0_INR; lia).
  do 2 f_equal; field; assumption.
Qed.

(** The mean of copies of one shape is that shape. *)
Lemma shapeBuffer_replicate (n : nat) (shape : list Qt.QPointF) :
  ProcrustesTransform.shapeBuffer (replicate (S n) shape) = Some (shapeMatrix shape).
Proof.
  unfold ProcrustesTransform.shapeBuffer, Qt.at_. cbn [replicate lookup list_lookup].
  cbn [mbind option_bind].
  assert (E : mapM (ProcrustesTransform.meanPoint (shape :: replicate n shape))
                (seq 0 (length shape))
              = Some (map (fun p => (Qt.x p, Qt.y p)) shape)).
  { apply mapM_Some, Forall2_same_length_lookup. split.
    - now rewrite length_seq, length_map.
    - intros i j q Hj Hq. apply lookup_seq in Hj as [-> Hi].
      rewrite list_lookup_fmap in Hq.
      destruct (shape !! i) as [p|] eqn:Hp; [|discriminate].
      apply (inj Some) in Hq as <-.
      exact (meanPoint_replicate n shape i p Hp). }
  rewrite E. cbn [mbind option_bind]. f_equal. unfold shapeMatrix.
  apply tabulate_ext. intros i j Hi Hj.
  rewrite (nth_map_default _ _ _ _ (Qt.mkQPointF 0 0)) by exact Hi. reflexivity.
Qed.

Lemma normalizedPoints_copies (base : br.Template) (points : list Qt.QPointF)
    (copies : list br.Template) :
  br.points (br.file base) <> [] ->
  ProcrustesTransform.augmented base = Some points ->
  Forall (Similarity.related base) copies ->
  ProcrustesTransform.normalizedPoints copies
  = Some (replicate (length copies) (ProcrustesTransform.normalize points)).
Proof.
  intros Hne Ha. induction 1 as [|t copies (c & tx & ty & Hc & ->) _ IH]; [reflexivity|].
  cbn [ProcrustesTransform.normalizedPoints]. rewrite IH.
  rewrite appendRectCorners_similar.
  cbn [Similarity.template br.file br.points]. rewrite length_map.
  destruct (br.points (br.file base)) as [|p0 ps] eqn:Ep; [congruence|].
  cbn [length Nat.eqb]. unfold ProcrustesTransform.augmented in Ha. rewrite Ep in Ha.
  rewrite Ha. cbn [fmap option_fmap option_map mbind option_bind].
  now rewrite normalize_similar.
Qed.

(** X3. Trained on one or more samples that are all moved and enlarged
    copies of one sample (with landmark points and a rectangle), [train]
    learns as mean shape the normalized shape of that sample: row [i] of
    the mean shape holds the coordinates of its normalized point [i]. *)
Theorem train_similar_copies (base : br.Template) (points : list Qt.QPointF)
    (copies : list br.Template) :
  br.points (br.file base) <> [] ->
  ProcrustesTransform.augmented base = Some points ->
  copies <> [] ->
  Forall (Similarity.related base) copies ->
  ProcrustesTransform.train copies
  = Some (shapeMatrix (ProcrustesTransform.normalize points)).
Proof.
  intros Hne Ha Hc Hrel. unfold ProcrustesTransform.train.
  rewrite (normalizedPoints_copies base points copies Hne Ha Hrel).
  cbn [mbind option_bind]. destruct copies as [|t copies]; [congruence|].
  cbn [length]. apply shapeBuffer_replicate.
Qed.

(** ** Centre and radius *)

Lemma sumR_seq_nth {A : Type} (f : A -> R) (l : list A) (d : A) :
  sumR (map (fun i => f (nth i l d)) (seq 0 (length l))) = sumR (map f l).
Proof.
  induction l as [|a l IH]; [reflexivity|].
  cbn [length seq map sumR foldr]. rewrite <- seq_shift, map_map. cbn [nth].
  fold (sumR (map (fun i => f (nth i l d)) (seq 0 (length l)))). fold (sumR (map f l)).
  now rewrite IH.
Qed.

Lemma sumR_plus {A : Type} (f g : A -> R) (l : list A) :
  sumR (map (fun a => f a + g a) l) = sumR (map f l) + sumR (map g l).
Proof.
  induction l as [|a l IH]; [cbn; lra|].
  cbn [map sumR foldr]. fold (sumR (map (fun a => f a + g a) l)).
  fold (sumR (map f l)). fold (sumR (map g l)). rewrite IH. lra.
Qed.

Lemma sumR_zero {A : Type} (l : list A) : sumR (map (fun _ => 0) l) = 0.
Proof.
  induction l as [|a l IH]; [reflexivity|].
  cbn [map sumR foldr]. fold (sumR (map (fun _ : A => 0) l)). rewrite IH. lra.
Qed.

Lemma sumR_swap {A B : Type} (g : A -> B -> R) (la : list A) (lb : list B) :
  sumR (map (fun a => sumR (map (g a) lb)) la)
  = sumR (map (fun b => sumR (map (fun a => g a b) la)) lb).
Proof.
  induction la as [|a la IH].
  - cbn [map sumR foldr]. symmetry. apply sumR_zero.
  - change (sumR (map (fun b => sumR (map (fun a0 => g a0 b) (a :: la))) lb))
      with (sumR (map (fun b => g a b + sumR (map (fun a0 => g a0 b) la)) lb)).
    rewrite (sumR_plus (g a) (fun b => sumR (map (fun a0 => g a0 b) la))), <- IH.
    reflexivity.
Qed.

Lemma sumR_div {A : Type} (f : A -> R) (c : R) (l : list A) :
  sumR (map (fun a => f a / c) l) = sumR (map f l) / c.
Proof. unfold Rdiv. apply sumR_scale. Qed.

(** A normalized point set has its centroid at the origin. *)
Lemma normalize_sums (points : list Qt.QPointF) :
  (0 < length points)%nat ->
  sumR (map Qt.x (ProcrustesTransform.normalize points)) = 0 /\
  sumR (map Qt.y (ProcrustesTransform.normalize points)) = 0.
Proof.
  intros Hlen. assert (HN : INR (length points) <> 0) by (apply not_0_INR; lia).
  rewrite normalize_refines_spec. unfold Spec.normalize. rewrite !map_map.
  cbn [Qt.x Qt.y]. set (n := Spec.centredNorm points).
  rewrite (sumR_div (fun p => Qt.x p - fst (Spec.centroid points))).
  rewrite (sumR_div (fun p => Qt.y p - snd (Spec.centroid points))).
  rewrite !sumR_minus_const. unfold Spec.centroid. cbn [fst snd].
  split; unfold Rdiv.
  - replace (sumR (map Qt.x points) - INR (length points)
             * (sumR (map Qt.x points) * / INR (length points))) with 0 by (field; assumption).
    ring.
  - replace (sumR (map Qt.y points) - INR (length points)
             * (sumR (map Qt.y points) * / INR (length points))) with 0 by (field; assumption).
    ring.
Qed.

Lemma normalizedPoints_sums (data : list br.Template) (shapes : list (list Qt.QPointF)) :
  ProcrustesTransform.normalizedPoints data = Some shapes ->
  Forall (fun shape => sumR (map Qt.x shape) = 0 /\ sumR (map Qt.y shape) = 0) shapes.
Proof.
  revert shapes. induction data as [|t data IH]; intros shapes E.
  - apply (inj Some) in E as <-. constructor.
  - cbn [ProcrustesTransform.normalizedPoints] in E.
    destruct (length (br.points (br.file t)) =? 0)%nat; [now apply IH|].
    unfold appendRectCorners in E. destruct (Qt.at_ _ 0) as [r|]; [|discriminate].
    cbn [mbind option_bind] in E.
    destruct (ProcrustesTransform.normalizedPoints data) as [rest|]; [|discriminate].
    cbn [mbind option_bind] in E. apply (inj Some) in E as <-.
    constructor; [|now apply IH].
    apply normalize_sums. rewrite length_app. simpl. lia.
Qed.

Lemma meanPoint_total (shapes : list (list Qt.QPointF)) (i : nat) :
  Forall (fun shape => (i < length shape)%nat) shapes ->
  ProcrustesTransform.meanPoint shapes i
  = Some (sumR (map (fun shape => Qt.x (nth i shape (Qt.mkQPointF 0 0))) shapes)
          / INR (length shapes),
          sumR (map (fun shape => Qt.y (nth i shape (Qt.mkQPointF 0 0))) shapes)
          / INR (length shapes)).
Proof.
  intros Hall. unfold ProcrustesTransform.meanPoint, Qt.at_.
  assert (E : mapM (fun shape : list Qt.QPointF => shape !! i) shapes
              = Some (map (fun shape => nth i shape (Qt.mkQPointF 0 0)) shapes)).
  { apply mapM_Some, Forall2_fmap_r, Forall_Forall2_diag.
    eapply Forall_impl; [exact Hall|]. intros shape Hi. cbv beta.
    apply lookup_lt_is_Some_2 in Hi as [p Hp].
    rewrite Hp. f_equal. symmetry. now apply nth_lookup_Some. }
  rewrite E. cbn [mbind option_bind]. now rewrite !map_map.
Qed.

(** X4. When every training sample is non-degenerate (its augmented
    points do not all coincide) and all the collected shapes have as many
    points as the mean shape has rows, the mean shape learned by [train]
    is centred at the origin: each of its two columns sums to zero. *)
Theorem meanShape_centred (data : list br.Template) (shapes : list (list Qt.QPointF))
    (meanShape : Eigen.MatrixXf) :
  Forall nondegenerate data ->
  ProcrustesTransform.normalizedPoints data = Some shapes ->
  ProcrustesTransform.train data = Some meanShape ->
  Forall (fun shape => length shape = Eigen.rows meanShape) shapes ->
  sumR (map (fun i => Eigen.coeff meanShape i 0) (seq 0 (Eigen.rows meanShape))) = 0 /\
  sumR (map (fun i => Eigen.coeff meanShape i 1) (seq 0 (Eigen.rows meanShape))) = 0.
Proof.
  intros _ Hn Ht Hlen. pose proof (normalizedPoints_sums data shapes Hn) as Hz.
  unfold ProcrustesTransform.train in Ht. rewrite Hn in Ht. cbn [mbind option_bind] in Ht.
  unfold ProcrustesTransform.shapeBuffer, Qt.at_ in Ht.
  destruct shapes as [|first rest]; [discriminate|].
  cbn [lookup list_lookup mbind option_bind] in Ht.
  set (shapes := first :: rest) in *.
  assert (E : mapM (ProcrustesTransform.meanPoint shapes) (seq 0 (length first))
              = Some (map (fun i =>
                  (sumR (map (fun shape => Qt.x (nth i shape (Qt.mkQPointF 0 0))) shapes)
                   / INR (length shapes),
                   sumR (map (fun shape => Qt.y (nth i shape (Qt.mkQPointF 0 0))) shapes)
                   / INR (length shapes))) (seq 0 (length first)))).
  { assert (Hlen' : Forall (fun shape : list Qt.QPointF => length shape = length first)
                      shapes).
    { destruct (mapM _ _) as [means|]; [|discriminate].
      cbn [mbind option_bind] in Ht. apply (inj Some) in Ht as <-. exact Hlen. }
    apply mapM_Some, Forall2_fmap_r, Forall_Forall2_diag, Forall_forall.
    intros i Hi. apply elem_of_seq in Hi. apply meanPoint_total.
    eapply Forall_impl; [exact Hlen'|]. cbv beta. intros shape ->. lia. }
  rewrite E in Ht. cbn [mbind option_bind] in Ht. apply (inj Some) in Ht as <-.
  cbn [Eigen.rows Eigen.tabulate] in *. set (n := length first) in *.
  assert (Hcol : forall (f : Qt.QPointF -> R),
             Forall (fun shape => sumR (map f shape) = 0) shapes ->
             sumR (map (fun i => sumR (map (fun shape => f (nth i shape (Qt.mkQPointF 0 0)))
                                        shapes) / INR (length shapes)) (seq 0 n)) = 0).
  { intros f Hf.
    rewrite (sumR_div (fun i => sumR (map (fun shape => f (nth i shape (Qt.mkQPointF 0 0)))
                                        shapes))).
    rewrite <- (sumR_swap (fun shape i => f (nth i shape (Qt.mkQPointF 0 0)))).
    rewrite (sumR_ext _ (fun _ => 0)).
    - rewrite sumR_zero. unfold Rdiv. ring.
    - intros shape Hin. rewrite Forall_forall in Hf, Hlen.
      apply list_elem_of_In in Hin.
      rewrite <- (Hlen shape Hin). rewrite sumR_seq_nth. now apply Hf. }
  split.
  - rewrite (sumR_ext _ (fun i => sumR (map (fun shape => Qt.x (nth i shape (Qt.mkQPointF 0 0)))
                                          shapes) / INR (length shapes))).
    + apply Hcol. eapply Forall_impl; [exact Hz|]. cbv beta. tauto.
    + intros i Hi. apply in_seq in Hi. rewrite coeff_tabulate by lia.
      rewrite (nth_map_default _ _ _ _ 0%nat) by (rewrite length_seq; lia).
      rewrite seq_nth by lia. reflexivity.
  - rewrite (sumR_ext _ (fun i => sumR (map (fun shape => Qt.y (nth i shape (Qt.mkQPointF 0 0)))
                                          shapes) / INR (length shapes))).
    + apply Hcol. eapply Forall_impl; [exact Hz|]. cbv beta. tauto.
    + intros i Hi. apply in_seq in Hi. rewrite coeff_tabulate by lia.
      rewrite (nth_map_default _ _ _ _ 0%nat) by (rewrite length_seq; lia).
      rewrite seq_nth by lia. reflexivity.
Qed.

Lemma centred_sums (points : list Qt.QPointF) :
  (0 < length points)%nat ->
  sumR (map Qt.x (ProcrustesTransform.centred points)) = 0 /\
  sumR (map Qt.y (ProcrustesTransform.centred points)) = 0.
Proof.
  intros Hlen. assert (HN : INR (length points) <> 0) by (apply not_0_INR; lia).
  unfold ProcrustesTransform.centred. rewrite mean_centroid, !map_map.
  cbn [Qt.sub Qt.x Qt.y]. rewrite !sumR_minus_const. unfold Spec.centroid. cbn [fst snd].
  split; field; assumption.
Qed.

Lemma centred_squares (points : list Qt.QPointF) :
  sumR (map (fun p => Qt.x p * Qt.x p + Qt.y p * Qt.y p) (ProcrustesTransform.centred points))
  = ProcrustesTransform.norm points * ProcrustesTransform.norm points.
Proof.
  rewrite norm_centredNorm. pose proof (centredNorm_sqr points) as E. cbv zeta in E.
  rewrite E. unfold ProcrustesTransform.centred. rewrite mean_centroid, map_map.
  reflexivity.
Qed.

(** X5. For a sample whose augmented points do not all coincide, the
    canonical-frame matrix [srcPoints] of [project] is centred at
    (50, 50) and has radius 150: each column sums to 50 times the number
    of points, and the squared distances of the rows from (50, 50) sum
    to 150 squared. *)
Theorem srcPoints_centre_radius (points : list Qt.QPointF) :
  ProcrustesTransform.norm points <> 0 ->
  let S := ProcrustesTransform.srcPoints points in
  let n := length points in
  sumR (map (fun i => Eigen.coeff S i 0) (seq 0 n)) = 50 * INR n /\
  sumR (map (fun i => Eigen.coeff S i 1) (seq 0 n)) = 50 * INR n /\
  sumR (map (fun i => (Eigen.coeff S i 0 - 50) * (Eigen.coeff S i 0 - 50)
                      + (Eigen.coeff S i 1 - 50) * (Eigen.coeff S i 1 - 50)) (seq 0 n))
  = 150 * 150.
Proof.
  intros Hn S n.
  assert (Hlen : (0 < length points)%nat).
  { apply centredNorm_nonempty. now rewrite <- norm_centredNorm. }
  destruct (centred_sums points Hlen) as [Zx Zy].
  pose proof (centred_squares points) as Hsq.
  set (norm := ProcrustesTransform.norm points) in *.
  set (c := ProcrustesTransform.centred points) in *.
  assert (Hc : length c = n) by apply length_centred.
  assert (E : forall i j, (i < n)%nat -> (j < 2)%nat ->
            Eigen.coeff S i j
            = (fun p => if (j =? 0)%nat then Qt.x p / (norm / 150) + 50
                        else Qt.y p / (norm / 150) + 50) (nth i c (Qt.mkQPointF 0 0))).
  { intros i j Hi Hj. unfold S, ProcrustesTransform.srcPoints. fold norm c.
    rewrite coeff_tabulate by lia. reflexivity. }
  pose proof (sumR_seq_nth (fun p => Qt.x p / (norm / 150) + 50) c (Qt.mkQPointF 0 0)) as Tx.
  pose proof (sumR_seq_nth (fun p => Qt.y p / (norm / 150) + 50) c (Qt.mkQPointF 0 0)) as Ty.
  pose proof (sumR_seq_nth (fun p => (Qt.x p * Qt.x p + Qt.y p * Qt.y p)
                                     * (/ (norm / 150) * / (norm / 150)))
                c (Qt.mkQPointF 0 0)) as Tr.
  cbv beta in Tx, Ty, Tr. rewrite Hc in Tx, Ty, Tr.
  split; [|split].
  - rewrite (sumR_ext _ (fun i => Qt.x (nth i c (Qt.mkQPointF 0 0)) / (norm / 150) + 50))
      by (intros i Hi; apply in_seq in Hi; rewrite E by lia; reflexivity).
    rewrite Tx.
    rewrite (sumR_ext _ (fun p => / (norm / 150) * Qt.x p + 50)) by (intros; unfold Rdiv; ring).
    rewrite sumR_affine, Zx, Hc. ring.
  - rewrite (sumR_ext _ (fun i => Qt.y (nth i c (Qt.mkQPointF 0 0)) / (norm / 150) + 50))
      by (intros i Hi; apply in_seq in Hi; rewrite E by lia; reflexivity).
    rewrite Ty.
    rewrite (sumR_ext _ (fun p => / (norm / 150) * Qt.y p + 50)) by (intros; unfold Rdiv; ring).
    rewrite sumR_affine, Zy, Hc. ring.
  - rewrite (sumR_ext _ (fun i => (Qt.x (nth i c (Qt.mkQPointF 0 0))
                                   * Qt.x (nth i c (Qt.mkQPointF 0 0))
                                   + Qt.y (nth i c (Qt.mkQPointF 0 0))
                                     * Qt.y (nth i c (Qt.mkQPointF 0 0)))
                                  * (/ (norm / 150) * / (norm / 150)))).
    + rewrite Tr, sumR_scale, Hsq. field. assumption.
    + intros i Hi. apply in_seq in Hi. rewrite !E by lia. cbn [Nat.eqb]. unfold Rdiv. ring.
Qed.


(** ** What [project] leaves for [DelaunayTransform] *)

Lemma at_coeff (A : Eigen.MatrixXf) (i j : nat) (r : R) :
  Eigen.at_ A i j = Some r ->
  r = Eigen.coeff A i j /\ (i < Eigen.rows A)%nat /\ (j < Eigen.cols A)%nat.
Proof.
  unfold Eigen.at_. destruct (i <? Eigen.rows A)%nat eqn:Hi; [|discriminate].
  destruct (j <? Eigen.cols A)%nat eqn:Hj; [|discriminate].
  cbn [andb]. intros E. apply (inj Some) in E as <-.
  apply Nat.ltb_lt in Hi, Hj. auto.
Qed.

Section RoundTrip.
Context `{Eigen.SVDSolver}.

(** X6. The seven scalars that [ProcrustesTransform::project] attaches
    are the ones [DelaunayTransform::project] reads back: from the file
    of the result it rebuilds the upper-left 2 x 2 block of the rotation
    [R], the centroid and the norm of the augmented points. *)
Theorem parameters_of_project (meanShape : Eigen.MatrixXf) (src dst out : br.Template) :
  ProcrustesTransform.project meanShape src dst = Some out ->
  exists points R p,
    ProcrustesTransform.augmented src = Some points /\
    ProcrustesTransform.rotation meanShape points = Some R /\
    DelaunayTransform.parameters (br.file out) = Some p /\
    Eigen.rows (DelaunayTransform.R p) = 2%nat /\
    Eigen.cols (DelaunayTransform.R p) = 2%nat /\
    (forall i j, (i < 2)%nat -> (j < 2)%nat ->
       Eigen.coeff (DelaunayTransform.R p) i j = Eigen.coeff R i j) /\
    DelaunayTransform.mean p = ProcrustesTransform.mean points /\
    DelaunayTransform.norm p = ProcrustesTransform.norm points.
Proof.
  intros E.
  destruct (project_Some _ _ _ _ E) as (points & R & r00 & r10 & r11 & r01 & Ha & HR
                                        & H00 & H10 & H11 & H01 & ->).
  apply at_coeff in H00 as (-> & _), H10 as (-> & _), H11 as (-> & _), H01 as (-> & _).
  exists points, R. eexists. split; [exact Ha|]. split; [exact HR|].
  split.
  { unfold DelaunayTransform.parameters, br.get, br.set. cbn [br.file br.metadata].
    simplify_map_eq. reflexivity. }
  cbn [DelaunayTransform.R DelaunayTransform.mean DelaunayTransform.norm].
  split; [reflexivity|]. split; [reflexivity|]. split.
  - intros i j Hi Hj. rewrite coeff_tabulate by assumption.
    destruct i as [|[|i]], j as [|[|j]]; try lia; reflexivity.
  - split; reflexivity.
Qed.

(** X7. [ProcrustesTransform::project] gives the result the image of
    the source sample and changes nothing else of the destination
    sample than the seven scalars: its landmark points, its rectangles
    and every other named scalar are kept. *)
Theorem project_keeps (meanShape : Eigen.MatrixXf) (src dst out : br.Template) :
  ProcrustesTransform.project meanShape src dst = Some out ->
  br.m out = br.m src /\
  br.points (br.file out) = br.points (br.file dst) /\
  br.rects (br.file out) = br.rects (br.file dst) /\
  forall key, key ∉ procrustesKeys -> br.get (br.file out) key = br.get (br.file dst) key.
Proof.
  intros E.
  destruct (project_Some _ _ _ _ E) as (points & R & r00 & r10 & r11 & r01 & _ & _
                                        & _ & _ & _ & _ & ->).
  cbn [br.m br.file br.set br.points br.rects]. repeat split.
  intros key Hkey. unfold procrustesKeys in Hkey.
  repeat (apply not_elem_of_cons in Hkey as [? Hkey]).
  unfold br.get, br.set. cbn [br.file br.metadata].
  rewrite !lookup_insert_ne by congruence. reflexivity.
Qed.

End RoundTrip.

Lemma rotation_corners :
  exists f, ProcrustesTransform.rotation (H := Examples.solver) Examples.square Examples.corners
            = Some (Eigen.tabulate 2 2 f).
Proof.
  unfold ProcrustesTransform.rotation. rewrite crossCovariance_corners.
  cbn [mbind option_bind]. eexists. reflexivity.
Qed.

Lemma project_corners :
  exists out,
    ProcrustesTransform.project (H := Examples.solver) Examples.square
      Examples.cornersOnly Examples.cornersOnly = Some out /\
    br.get (br.file out) "Procrustes_norm" = Some 5.
Proof.
  destruct rotation_corners as [f Hf].
  destruct (project_rotation (H := Examples.solver) Examples.square Examples.cornersOnly
              Examples.cornersOnly Examples.corners f eq_refl Hf)
    as (out & Hp & _ & _ & _ & _ & _ & _ & Hn).
  exists out. rewrite norm_corners in Hn. auto.
Qed.

(** ** [DelaunayTransform]: the [draw] property and the stored scalars *)

Section Delaunay.
Context `{cv.ImgProc}.

(** X8. The [draw] property of [DelaunayTransform] has no effect on the
    result of [project]: the edges are drawn into an image that the
    warp, which is always on, replaces by a fresh canvas. *)
Theorem draw_has_no_effect (src dst : br.Template) :
  DelaunayTransform.project true src dst = DelaunayTransform.project false src dst.
Proof.
  unfold DelaunayTransform.project.
  destruct (appendRectCorners _ _ _) as [points|]; [|reflexivity].
  cbn [mbind option_bind].
  destruct (cv.triangleList _ _ points) as [triangleList|]; [|reflexivity].
  cbn [mbind option_bind].
  destruct (foreach_drawTriangle
              (DelaunayTransform.validTriangles (cv.cols (br.m src)) (cv.rows (br.m src))
                 triangleList) (br.m src)) as [drawn ->]; [|reflexivity].
  apply Forall_forall. intros triangle Hin. eapply validTriangles_three, Hin.
Qed.

Lemma parameters_None (f : br.File) (key : string) :
  key ∈ procrustesKeys -> br.get f key = None -> DelaunayTransform.parameters f = None.
Proof.
  intros Hkey Hnone. unfold DelaunayTransform.parameters, procrustesKeys in *.
  repeat (apply elem_of_cons in Hkey as [->|Hkey]);
    [..|now apply elem_of_nil in Hkey];
    repeat match goal with
           | |- context [br.get f ?k] =>
               destruct (br.get f k) eqn:?; [cbn [mbind option_bind]|reflexivity || discriminate]
           end; discriminate.
Qed.

(** X9. [DelaunayTransform::project] has no result on a sample that
    lacks one of the seven scalars of [ProcrustesTransform::project],
    whatever the [draw] property. *)
Theorem project_needs_parameters (draw : bool) (src dst : br.Template) (key : string) :
  key ∈ procrustesKeys ->
  br.get (br.file src) key = None ->
  DelaunayTransform.project draw src dst = None.
Proof.
  intros Hkey Hnone. unfold DelaunayTransform.project.
  rewrite (parameters_None _ key Hkey Hnone).
  destruct (appendRectCorners _ _ _) as [points|]; [|reflexivity].
  cbn [mbind option_bind].
  destruct (cv.triangleList _ _ points) as [triangleList|]; [|reflexivity].
  cbn [mbind option_bind].
  destruct (if draw then _ else _); reflexivity.
Qed.

End Delaunay.


(** ** The further properties at concrete samples *)

Lemma project_similar_witness :
  exists out out',
    ProcrustesTransform.project (H := Examples.solver) Examples.square
      Examples.cornersOnly Examples.cornersOnly = Some out /\
    ProcrustesTransform.project (H := Examples.solver) Examples.square
      (Similarity.template 2 1 1 Examples.cornersOnly) Examples.cornersOnly = Some out' /\
    br.get (br.file out') "Procrustes_0_0" = br.get (br.file out) "Procrustes_0_0" /\
    br.get (br.file out') "Procrustes_norm" = Some (2 * 5).
Proof.
  destruct project_corners as (out & Hp & Hn).
  destruct (project_similar (H := Examples.solver) Examples.square 2 1 1
              Examples.cornersOnly Examples.cornersOnly out ltac:(lra) Hp)
    as (out' & norm & mean0 & mean1 & Hp' & Hk & Hn1 & Hn2 & _).
  exists out, out'. split; [exact Hp|]. split; [exact Hp'|]. split.
  - apply Hk. apply elem_of_cons. left. reflexivity.
  - rewrite Hn2. rewrite Hn in Hn1. apply (inj Some) in Hn1 as <-. reflexivity.
Defined.

Lemma train_similar_witness :
  ProcrustesTransform.train [Similarity.template 2 1 1 Examples.oneLandmark]
  = ProcrustesTransform.train [Examples.oneLandmark].
Proof.
  apply train_similar. constructor; [|constructor].
  exists 2, 1, 1. split; [lra|reflexivity].
Defined.

Lemma train_similar_copies_witness :
  ProcrustesTransform.train [Similarity.template 2 1 1 Examples.oneLandmark;
                             Similarity.template 3 0 (-1) Examples.oneLandmark]
  = Some (shapeMatrix (ProcrustesTransform.normalize Examples.fivePoints)).
Proof.
  apply (train_similar_copies Examples.oneLandmark Examples.fivePoints).
  - discriminate.
  - reflexivity.
  - discriminate.
  - constructor; [|constructor; [|constructor]].
    + exists 2, 1, 1. split; [lra|reflexivity].
    + exists 3, 0, (-1). split; [lra|reflexivity].
Defined.

Lemma norm_fivePoints : ProcrustesTransform.norm Examples.fivePoints <> 0.
Proof.
  rewrite norm_centredNorm. unfold Spec.centredNorm, Spec.centroid, Examples.fivePoints.
  cbn [map sumR foldr length Qt.x Qt.y fst snd INR Qt.topLeft Qt.topRight Qt.bottomLeft
       Qt.bottomRight Examples.rect Qt.left Qt.top Qt.width Qt.height].
  apply Rgt_not_eq, sqrt_lt_R0. lra.
Qed.

Lemma train_oneLandmark :
  ProcrustesTransform.train [Examples.oneLandmark]
  = Some (shapeMatrix (ProcrustesTransform.normalize Examples.fivePoints)).
Proof. exact (shapeBuffer_replicate 0 (ProcrustesTransform.normalize Examples.fivePoints)). Qed.

Lemma meanShape_centred_witness :
  let meanShape := shapeMatrix (ProcrustesTransform.normalize Examples.fivePoints) in
  sumR (map (fun i => Eigen.coeff meanShape i 0) (seq 0 (Eigen.rows meanShape))) = 0 /\
  sumR (map (fun i => Eigen.coeff meanShape i 1) (seq 0 (Eigen.rows meanShape))) = 0.
Proof.
  apply (meanShape_centred [Examples.oneLandmark]
           [ProcrustesTransform.normalize Examples.fivePoints]).
  - constructor; [|constructor]. intros points E. apply (inj Some) in E as <-.
    exact norm_fivePoints.
  - reflexivity.
  - exact train_oneLandmark.
  - constructor; [|constructor]. reflexivity.
Defined.

Lemma srcPoints_centre_radius_witness :
  sumR (map (fun i => Eigen.coeff (ProcrustesTransform.srcPoints Examples.corners) i 0)
          (seq 0 4)) = 50 * INR 4.
Proof.
  destruct (srcPoints_centre_radius Examples.corners) as (Hx & _).
  - rewrite norm_corners. lra.
  - exact Hx.
Defined.

Lemma parameters_of_project_witness :
  exists out p,
    ProcrustesTransform.project (H := Examples.solver) Examples.square
      Examples.cornersOnly Examples.cornersOnly = Some out /\
    DelaunayTransform.parameters (br.file out) = Some p /\
    DelaunayTransform.norm p = ProcrustesTransform.norm Examples.corners.
Proof.
  destruct project_corners as (out & Hp & _).
  destruct (parameters_of_project (H := Examples.solver) Examples.square
              Examples.cornersOnly Examples.cornersOnly out Hp)
    as (points & R & p & Ha & _ & Hq & _ & _ & _ & _ & Hn).
  apply (inj Some) in Ha as <-.
  exists out, p. split; [exact Hp|]. split; [exact Hq|exact Hn].
Defined.

Lemma project_keeps_witness :
  exists out,
    ProcrustesTransform.project (H := Examples.solver) Examples.square
      Examples.cornersOnly Examples.aligned = Some out /\
    br.m out = Examples.image /\
    br.rects (br.file out) = [Examples.rect] /\
    br.get (br.file out) "Label" = None.
Proof.
  destruct rotation_corners as [f Hf].
  destruct (project_rotation (H := Examples.solver) Examples.square Examples.cornersOnly
              Examples.aligned Examples.corners f eq_refl Hf) as (out & Hp & _).
  destruct (project_keeps (H := Examples.solver) Examples.square Examples.cornersOnly
              Examples.aligned out Hp) as (Hm & _ & Hr & Hk).
  exists out. split; [exact Hp|]. split; [exact Hm|]. split; [exact Hr|].
  rewrite Hk; [reflexivity|].
  unfold procrustesKeys. rewrite !not_elem_of_cons. repeat split; try discriminate.
  apply not_elem_of_nil.
Defined.

Lemma project_needs_parameters_witness :
  DelaunayTransform.project (H := Examples.imgproc) true Examples.cornersOnly
    Examples.cornersOnly = None.
Proof.
  apply (project_needs_parameters (H := Examples.imgproc) true Examples.cornersOnly
           Examples.cornersOnly "Procrustes_norm").
  - unfold procrustesKeys. rewrite !elem_of_cons. tauto.
  - reflexivity.
Defined.


(** * [MeanTransform] *)

Lemma accumulate_ext (data data' : list br.Template) (indices : list nat)
    (mean : CV_32F.Mat) :
  (forall i, i ∈ indices -> data !! i = data' !! i) ->
  MeanTransform.accumulate data indices mean = MeanTransform.accumulate data' indices mean.
Proof.
  revert mean. induction indices as [|i indices IH]; intros mean Heq; [reflexivity|].
  cbn [MeanTransform.accumulate]. unfold Qt.at_.
  rewrite <- (Heq i) by (apply elem_of_cons; left; reflexivity).
  destruct (data !! i) as [datum|]; [|reflexivity]. cbn [mbind option_bind].
  destruct (CV_32F.add _ _) as [mean'|]; [|reflexivity]. cbn [mbind option_bind].
  apply IH. intros k Hk. apply Heq, elem_of_cons. right. exact Hk.
Qed.

(** X10. [train] reads only the first half of the training set: two
    training sets of the same size, of at least two samples, that agree
    on their first [size / 2] samples give the same mean image, whatever
    the other samples are. (With a single sample the divisor is 0 and
    the image that comes out, of the size of that sample, holds no
    numbers.) *)
Theorem train_ignores_second_half (data data' : list br.Template) :
  (2 <= length data)%nat ->
  length data = length data' ->
  take (length data / 2) data = take (length data / 2) data' ->
  MeanTransform.train data = MeanTransform.train data'.
Proof.
  intros _ Hlen Htake. unfold MeanTransform.train, Qt.at_. rewrite <- Hlen.
  assert (Hlookup : forall i, (i < length data / 2)%nat -> data !! i = data' !! i).
  { intros i Hi. rewrite <- (lookup_take_lt data (length data / 2) i Hi), Htake.
    now apply lookup_take_lt. }
  destruct (length data / 2)%nat as [|h] eqn:Eh.
  - destruct (data !! 0%nat), (data' !! 0%nat); reflexivity.
  - rewrite <- (Hlookup 0%nat) by lia.
    destruct (data !! 0%nat) as [first|]; [|reflexivity]. cbn [mbind option_bind].
    rewrite (accumulate_ext data data'); [reflexivity|].
    intros i Hi. apply elem_of_seq in Hi. apply Hlookup. lia.
Qed.

Lemma accumulate_sum (data : list br.Template) (indices : list nat) (r c : Z)
    (mean : CV_32F.Mat) :
  Forall (fun k => exists t, data !! k = Some t /\
                    cv.rows (br.m t) = r /\ cv.cols (br.m t) = c /\
                    CV_32F.CV_MAT_CN (cv.type (br.m t)) = 1%Z) indices ->
  CV_32F.rows mean = r -> CV_32F.cols mean = c -> CV_32F.channels mean = 1%Z ->
  exists mean',
    MeanTransform.accumulate data indices mean = Some mean' /\
    CV_32F.rows mean' = r /\ CV_32F.cols mean' = c /\ CV_32F.channels mean' = 1%Z /\
    forall i j,
      CV_32F.data mean' i j
      = CV_32F.data mean i j
        + sumR (map (fun k => match data !! k with
                              | Some t => IZR (cv.data (br.m t) i j)
                              | None => 0
                              end) indices).
Proof.
  intros Hall. revert mean.
  induction Hall as [|k indices (t & Ht & Hr & Hc & Hn) _ IH]; intros mean Mr Mc Mn.
  - exists mean. repeat split; try assumption. intros i j. cbn [map sumR foldr]. lra.
  - cbn [MeanTransform.accumulate]. unfold Qt.at_. rewrite Ht. cbn [mbind option_bind].
    unfold CV_32F.add, CV_32F.sameShape, CV_32F.convertTo.
    cbn [CV_32F.rows CV_32F.cols CV_32F.channels CV_32F.data].
    rewrite Mr, Mc, Mn, Hr, Hc, Hn, !Z.eqb_refl. cbn [andb mbind option_bind].
    destruct (IH (CV_32F.mkMat r c 1
                    (fun i j => CV_32F.data mean i j + IZR (cv.data (br.m t) i j))))
      as (mean' & E & Gr & Gc & Gn & Gd); try reflexivity.
    exists mean'. split; [exact E|]. repeat split; try assumption.
    intros i j. rewrite Gd. cbn [CV_32F.data map sumR foldr]. rewrite Ht.
    fold (sumR (map (fun k => match data !! k with
                              | Some t => IZR (cv.data (br.m t) i j)
                              | None => 0
                              end) indices)).
    lra.
Qed.

Lemma sumR_seq_lookup {A : Type} (g : A -> R) (l : list A) (h : nat) :
  (h <= length l)%nat ->
  sumR (map (fun k => match l !! k with Some a => g a | None => 0 end) (seq 0 h))
  = sumR (map g (take h l)).
Proof.
  revert h. induction l as [|a l IH]; intros h Hh.
  - cbn [length] in Hh. replace h with 0%nat by lia. reflexivity.
  - destruct h as [|h]; [reflexivity|]. cbn [length] in Hh.
    cbn [seq map sumR foldr take lookup list_lookup].
    rewrite <- seq_shift, map_map. cbn [lookup list_lookup].
    fold (sumR (map g (take h l))).
    fold (sumR (map (fun k => match l !! k with Some a => g a | None => 0 end) (seq 0 h))).
    rewrite IH by lia. reflexivity.
Qed.

(** X11. Trained on at least two samples of which those of the first
    half are single-channel images of one size, [train] produces the
    single-channel image of that size whose every pixel is the average
    of that pixel over the first [size / 2] training images; [project]
    then gives every sample this image and leaves its file as it is. *)
Theorem train_mean (data : list br.Template) (r c : Z) :
  (2 <= length data)%nat ->
  Forall (fun t => cv.rows (br.m t) = r /\ cv.cols (br.m t) = c /\
                   CV_32F.CV_MAT_CN (cv.type (br.m t)) = 1%Z)
    (take (length data / 2) data) ->
  exists mean,
    MeanTransform.train data = Some mean /\
    CV_32F.rows mean = r /\ CV_32F.cols mean = c /\ CV_32F.channels mean = 1%Z /\
    forall src,
      snd (MeanTransform.project mean src) = br.file src /\
      forall i j,
        CV_32F.data (fst (MeanTransform.project mean src)) i j
        = sumR (map (fun t => IZR (cv.data (br.m t) i j)) (take (length data / 2) data))
          / INR (length data / 2).
Proof.
  intros Hn Hall. set (h := (length data / 2)%nat) in *.
  assert (Hh : (0 < h <= length data)%nat).
  { unfold h. split; [apply Nat.div_str_pos; lia|].
    apply Nat.Div0.div_le_upper_bound. lia. }
  assert (Hlookup : forall k, (k < h)%nat ->
            exists t, data !! k = Some t /\ cv.rows (br.m t) = r /\ cv.cols (br.m t) = c /\
                      CV_32F.CV_MAT_CN (cv.type (br.m t)) = 1%Z).
  { intros k Hk. destruct (lookup_lt_is_Some_2 data k) as [t Ht]; [lia|].
    exists t. split; [exact Ht|]. rewrite Forall_forall in Hall. apply Hall.
    apply elem_of_take. exists k. auto. }
  destruct (Hlookup 0%nat) as (first & Hfirst & Fr & Fc & _); [lia|].
  destruct (accumulate_sum data (seq 0 h) r c (CV_32F.zeros r c))
    as (sum & Es & Sr & Sc & Sn & Sd); try reflexivity.
  { apply Forall_seq. intros k Hk. apply Hlookup. lia. }
  unfold MeanTransform.train, Qt.at_. fold h. rewrite Hfirst. cbn [mbind option_bind].
  rewrite Fr, Fc, Es. cbn [mbind option_bind]. unfold CV_32F.div.
  destruct (h =? 0)%nat eqn:E0; [apply Nat.eqb_eq in E0; lia|].
  eexists. split; [reflexivity|].
  cbn [CV_32F.rows CV_32F.cols CV_32F.channels CV_32F.data MeanTransform.project fst snd].
  repeat split; try assumption.
  intros i j. rewrite Sd. cbn [CV_32F.zeros CV_32F.data].
  rewrite (sumR_seq_lookup (fun t => IZR (cv.data (br.m t) i j))) by lia.
  unfold Rdiv. ring.
Qed.

Lemma train_ignores_second_half_witness :
  MeanTransform.train Samples.training = MeanTransform.train Samples.otherHalf.
Proof. apply train_ignores_second_half; [simpl; lia|reflexivity|reflexivity]. Defined.

Lemma train_mean_witness :
  exists mean,
    MeanTransform.train Samples.training = Some mean /\
    CV_32F.rows mean = 2%Z /\ CV_32F.cols mean = 3%Z /\
    CV_32F.data mean 0 0 = (10 + (30 + 0)) / INR 2.
Proof.
  destruct (train_mean Samples.training 2 3) as (mean & E & Hr & Hc & _ & Hd).
  - simpl. lia.
  - repeat constructor.
  - exists mean. split; [exact E|]. split; [exact Hr|]. split; [exact Hc|].
    exact (proj2 (Hd (Samples.constant 0)) 0%Z 0%Z).
Defined.


(** * [ForestInductionTransform] *)

(** ** The traversal of one tree *)

Lemma root_addresses (t : Tree) : root t ∈ addresses t.
Proof. destruct t; cbn [root addresses]; apply elem_of_cons; left; reflexivity. Qed.

Lemma leaves_addresses (t : Tree) (a : ml.ptr) : a ∈ leaves t -> a ∈ addresses t.
Proof.
  induction t as [b|b l IHl r IHr]; cbn [leaves addresses]; [trivial|].
  rewrite elem_of_cons, !elem_of_app. tauto.
Qed.

Lemma NoDup_leaves (t : Tree) : NoDup (addresses t) -> NoDup (leaves t).
Proof.
  induction t as [b|b l IHl r IHr]; cbn [leaves addresses]; [trivial|].
  intros Hnd. apply NoDup_cons in Hnd as [_ Hnd]. apply NoDup_app in Hnd as (Hl & Hd & Hr).
  apply NoDup_app. split; [auto|]. split; [|auto].
  intros a Ha Ha'. apply (Hd a); now apply leaves_addresses.
Qed.

Lemma steps_addresses (t : Tree) : (steps t + 1 = 2 * length (addresses t))%nat.
Proof.
  induction t as [b|b l IHl r IHr]; cbn [steps addresses length]; [reflexivity|].
  rewrite length_app. lia.
Qed.

(** From the root of a stored subtree the traversal appends its leaves
    and arrives, after [steps t] loop tests, at the climb from that
    root. *)
Lemma traverse_subtree (memory : ml.memory) (t : Tree) :
  forall (parent : option ml.ptr) (last : list ml.ptr) (fuel : nat),
    stored memory parent t -> NoDup (addresses t) ->
    ForestInductionTransform.traverse (steps t + fuel) memory
      (ForestInductionTransform.Descending (root t)) last
    = ForestInductionTransform.traverse fuel memory
        (ForestInductionTransform.Climbing (root t) parent) (last ++ leaves t).
Proof.
  induction t as [a|a l IHl r IHr]; intros parent last fuel Hs Hnd.
  - destruct Hs as (n & Hn & Hleft & Hparent).
    cbn [steps Nat.add ForestInductionTransform.traverse ForestInductionTransform.step
         root leaves].
    rewrite Hn. cbn [mbind option_bind]. rewrite Hleft, Hparent. reflexivity.
  - destruct Hs as ((n & Hn & Hleft & Hright & Hparent) & Hl & Hr).
    cbn [addresses] in Hnd. apply NoDup_cons in Hnd as [_ Hnd].
    apply NoDup_app in Hnd as (Hndl & Hd & Hndr).
    assert (Hne : root r <> root l).
    { intros E. apply (Hd (root l)); [apply root_addresses|].
      rewrite <- E. apply root_addresses. }
    cbn [steps root leaves].
    replace (S (steps l + S (steps r + 1)) + fuel)%nat
      with (S (steps l + S (steps r + S fuel)))%nat by lia.
    cbn [ForestInductionTransform.traverse ForestInductionTransform.step].
    rewrite Hn. cbn [mbind option_bind]. rewrite Hleft.
    rewrite (IHl (Some a) last _ Hl Hndl).
    cbn [ForestInductionTransform.traverse ForestInductionTransform.step].
    rewrite Hn. cbn [mbind option_bind]. rewrite Hright.
    rewrite bool_decide_eq_false_2 by congruence. cbn [mbind option_bind].
    rewrite (IHr (Some a) (last ++ leaves l) _ Hr Hndr).
    cbn [ForestInductionTransform.traverse ForestInductionTransform.step].
    rewrite Hn. cbn [mbind option_bind]. rewrite Hright.
    rewrite bool_decide_eq_true_2 by reflexivity. rewrite Hparent, app_assoc. reflexivity.
Qed.

(** X12. Started at the root of a tree that is stored in memory with
    every node once, the traversal of [fillNodes] ends, given twice as
    many loop tests as the tree has nodes, and collects the leaves of
    the tree and only them, from left to right. *)
Theorem traverse_leaves (memory : ml.memory) (t : Tree) (fuel : nat) :
  stored memory None t ->
  NoDup (addresses t) ->
  (2 * length (addresses t) <= fuel)%nat ->
  ForestInductionTransform.traverse fuel memory
    (ForestInductionTransform.Descending (root t)) [] = Some (leaves t).
Proof.
  intros Hs Hnd Hfuel. pose proof (steps_addresses t) as Hsteps.
  replace fuel with (steps t + S (fuel - steps t - 1))%nat by lia.
  rewrite (traverse_subtree memory t None [] _ Hs Hnd). reflexivity.
Qed.

(** ** [fillNodes] *)

Lemma fillTrees_leaves (fuel : nat) (forest : ml.CvRTrees) (trees : list ml.CvForestTree)
    (ts : list Tree) :
  Forall2 (represents fuel forest) trees ts ->
  forall members,
    (0 <= ForestInductionTransform.totalSize members)%Z ->
    (ForestInductionTransform.totalSize members
     + Z.of_nat (length (concat (map leaves ts))) <= INT_MAX)%Z ->
    ForestInductionTransform.fillTrees fuel (ml.nodes forest) trees members
    = Some (ForestInductionTransform.mkMembers
              (ForestInductionTransform.totalSize members
               + Z.of_nat (length (concat (map leaves ts))))
              (ForestInductionTransform.nodes members ++ map leaves ts)).
Proof.
  induction 1 as [|tree t trees ts (Hroot & Hs & Hnd & Hfuel) _ IH]; intros members H0 Hmax.
  - cbn [ForestInductionTransform.fillTrees map concat length].
    rewrite Z.add_0_r, app_nil_r. now destruct members.
  - cbn [map concat] in Hmax. rewrite length_app, Nat2Z.inj_add in Hmax.
    cbn [ForestInductionTransform.fillTrees]. rewrite Hroot. cbn [mbind option_bind].
    pose proof (traverse_subtree (ml.nodes forest) t None [] (fuel - steps t) Hs Hnd) as E.
    pose proof (steps_addresses t) as Hsteps.
    replace (steps t + (fuel - steps t))%nat with fuel in E by lia.
    replace (fuel - steps t)%nat with (S (fuel - steps t - 1)) in E by lia.
    cbn [ForestInductionTransform.traverse ForestInductionTransform.step app] in E.
    rewrite E. cbn [mbind option_bind]. unfold addInt, INT_MIN.
    unfold INT_MAX in Hmax.
    destruct (_ && _) eqn:Hrange.
    + cbn [mbind option_bind]. rewrite IH.
      * cbn [ForestInductionTransform.totalSize ForestInductionTransform.nodes map concat].
        rewrite length_app, Nat2Z.inj_add, Z.add_assoc, <- app_assoc. reflexivity.
      * cbn [ForestInductionTransform.totalSize]. lia.
      * cbn [ForestInductionTransform.totalSize]. unfold INT_MAX. lia.
    + apply andb_false_iff in Hrange as [Hrange|Hrange].
      * apply Z.leb_gt in Hrange. lia.
      * apply Z.leb_gt in Hrange. unfold INT_MAX in Hrange. lia.
Qed.

(** X13. On a forest whose trees are stored in memory with every node
    once, [fillNodes], given enough loop tests, appends to the member
    [nodes] one list per tree, the leaves of that tree from left to
    right, and adds their number to the member [totalSize]; what the
    members held before is kept, not reset. *)
Theorem fillNodes_appends (fuel : nat) (forest : ml.CvRTrees) (ts : list Tree)
    (members : ForestInductionTransform.Members) :
  Forall2 (represents fuel forest) (ml.trees forest) ts ->
  (0 <= ForestInductionTransform.totalSize members)%Z ->
  (ForestInductionTransform.totalSize members
   + Z.of_nat (length (concat (map leaves ts))) <= INT_MAX)%Z ->
  ForestInductionTransform.fillNodes fuel forest members
  = Some (ForestInductionTransform.mkMembers
            (ForestInductionTransform.totalSize members
             + Z.of_nat (length (concat (map leaves ts))))
            (ForestInductionTransform.nodes members ++ map leaves ts)).
Proof.
  intros Hrep H0 Hmax. unfold ForestInductionTransform.fillNodes.
  now apply fillTrees_leaves.
Qed.


(** ** The one-hot responses of [project] *)

Lemma indicator_absent (tree : ml.CvForestTree) (src : cv.Mat) (node : ml.ptr)
    (l : list ml.ptr) :
  ml.predict tree src = Some node -> node ∉ l ->
  map (indicator tree src) l = replicate (length l) 0.
Proof.
  intros Hp. induction l as [|a l IH]; intros Hnot; [reflexivity|].
  apply not_elem_of_cons in Hnot as [Hne Hnot].
  cbn [map length replicate]. rewrite IH by exact Hnot. unfold indicator at 1.
  rewrite Hp, bool_decide_eq_false_2 by congruence. reflexivity.
Qed.

Lemma indexOf_indicator (tree : ml.CvForestTree) (src : cv.Mat) (node : ml.ptr)
    (l : list ml.ptr) :
  ml.predict tree src = Some node -> NoDup l -> node ∈ l ->
  exists k, ForestInductionTransform.indexOf l node = Z.of_nat k /\ (k < length l)%nat /\
            <[k := 1]> (replicate (length l) 0) = map (indicator tree src) l.
Proof.
  intros Hp. induction l as [|a l IH]; intros Hnd Hin; [now apply elem_of_nil in Hin|].
  apply NoDup_cons in Hnd as [Ha Hnd]. cbn [ForestInductionTransform.indexOf].
  destruct (bool_decide (a = node)) eqn:E.
  - apply bool_decide_eq_true in E as ->. exists 0%nat.
    split; [reflexivity|]. split; [cbn [length]; lia|].
    cbn [length replicate map]. rewrite (indicator_absent tree src node l Hp Ha).
    unfold indicator. rewrite Hp, bool_decide_eq_true_2 by reflexivity. reflexivity.
  - apply bool_decide_eq_false in E.
    apply elem_of_cons in Hin as [Hin|Hin]; [congruence|].
    destruct (IH Hnd Hin) as (k & Hk & Hlt & Hins). exists (S k). rewrite Hk.
    destruct (Z.of_nat k <? 0)%Z eqn:Hneg; [apply Z.ltb_lt in Hneg; lia|].
    split; [lia|]. split; [cbn [length]; lia|].
    cbn [length replicate map]. unfold indicator at 1.
    rewrite Hp, bool_decide_eq_false_2 by congruence.
    cbn. f_equal. exact Hins.
Qed.

Lemma mark_indicator (forest : ml.CvRTrees) (src : cv.Mat) (trees : list ml.CvForestTree)
    (nodes : list (list ml.ptr)) :
  Forall2 (fun tree l => NoDup l /\
             exists node, ml.predict tree src = Some node /\ node ∈ l) trees nodes ->
  forall (i : nat) (done : list R),
    (forall k, trees !! k = ml.trees forest !! (i + k)%nat) ->
    ForestInductionTransform.mark forest src nodes i (Z.of_nat (length done))
      (done ++ replicate (length (concat nodes)) 0)
    = Some (done ++ concat (zip_with (fun tree l => map (indicator tree src) l) trees nodes)).
Proof.
  induction 1 as [|tree l trees nodes (Hnd & node & Hp & Hin) _ IH]; intros i done Htrees.
  - cbn [ForestInductionTransform.mark concat length replicate zip_with]. reflexivity.
  - cbn [ForestInductionTransform.mark concat zip_with]. unfold ml.get_tree.
    pose proof (Htrees 0%nat) as Htree. rewrite Nat.add_0_r in Htree. rewrite <- Htree.
    cbn [lookup list_lookup mbind option_bind].
    rewrite Hp. cbn [mbind option_bind].
    destruct (indexOf_indicator tree src node l Hp Hnd Hin) as (k & Hk & Hlt & Hins).
    rewrite Hk, length_app, replicate_add.
    assert (Hset : ForestInductionTransform.setAt
                     (done ++ replicate (length l) 0 ++ replicate (length (concat nodes)) 0)
                     (Z.of_nat (length done) + Z.of_nat k) 1
                   = Some ((done ++ map (indicator tree src) l)
                           ++ replicate (length (concat nodes)) 0)).
    { unfold ForestInductionTransform.setAt. rewrite !length_app, !length_replicate.
      destruct (_ && _) eqn:Hrange.
      - rewrite <- Nat2Z.inj_add, Nat2Z.id. f_equal.
        rewrite insert_app_r, insert_app_l by (rewrite length_replicate; exact Hlt).
        rewrite Hins, app_assoc. reflexivity.
      - apply andb_false_iff in Hrange as [Hrange|Hrange].
        + apply Z.leb_gt in Hrange. lia.
        + apply Z.ltb_ge in Hrange. lia. }
    rewrite Hset. cbn [mbind option_bind].
    replace (Z.of_nat (length done) + Z.of_nat (length l))%Z
      with (Z.of_nat (length (done ++ map (indicator tree src) l)))
      by (rewrite length_app, length_map; lia).
    rewrite (IH (S i) (done ++ map (indicator tree src) l)).
    + now rewrite <- app_assoc.
    + intros j. replace (S i + j)%nat with (i + S j)%nat by lia. apply (Htrees (S j)).
Qed.

(** X14. When [totalSize] is the number of collected nodes, no list of
    [nodes] holds a node twice, and the sample reaches in every tree a
    node of the list collected for that tree, [project] (without
    regression values) answers, for each tree in turn, with one row per
    collected node: 1 for the node that the sample reaches, 0 for every
    other; the file of the sample is kept. *)
Theorem project_indicator (forest : ml.CvRTrees)
    (members : ForestInductionTransform.Members) (src : br.Template) :
  ForestInductionTransform.totalSize members
  = Z.of_nat (length (concat (ForestInductionTransform.nodes members))) ->
  Forall2 (fun tree l => NoDup l /\
             exists node, ml.predict tree (br.m src) = Some node /\ node ∈ l)
    (ml.trees forest) (ForestInductionTransform.nodes members) ->
  ForestInductionTransform.project false forest members src
  = Some (concat (zip_with (fun tree l => map (indicator tree (br.m src)) l)
                    (ml.trees forest) (ForestInductionTransform.nodes members)),
          br.file src).
Proof.
  intros Htotal Hall. unfold ForestInductionTransform.project, ForestInductionTransform.zeros.
  rewrite Htotal. destruct (0 <=? _)%Z eqn:Hpos; [|apply Z.leb_gt in Hpos; lia].
  cbn [mbind option_bind]. rewrite Nat2Z.id.
  pose proof (mark_indicator forest (br.m src) _ _ Hall 0%nat [] (fun k => eq_refl)) as E.
  cbn [app length] in E. change (Z.of_nat 0) with 0%Z in E. rewrite E. reflexivity.
Qed.

(** X15. A forest whose trees are stored in memory with every node
    once, trained into a transform that has collected nothing yet
    ([totalSize] 0, [nodes] empty) and then applied to a sample that
    reaches a leaf in every tree: [project] answers with one row per
    leaf of the forest, tree after tree and the leaves of a tree from
    left to right, 1 for the leaf that the sample reaches in its tree
    and 0 for every other leaf. *)
Theorem train_project (fuel : nat) (forest : ml.CvRTrees) (ts : list Tree)
    (src : br.Template) :
  Forall2 (fun tree t => represents fuel forest tree t /\
             exists node, ml.predict tree (br.m src) = Some node /\ node ∈ leaves t)
    (ml.trees forest) ts ->
  (Z.of_nat (length (concat (map leaves ts))) <= INT_MAX)%Z ->
  exists members,
    ForestInductionTransform.train false fuel forest
      (ForestInductionTransform.mkMembers 0 []) = Some members /\
    ForestInductionTransform.project false forest members src
    = Some (concat (zip_with (fun tree t => map (indicator tree (br.m src)) (leaves t))
                      (ml.trees forest) ts),
            br.file src).
Proof.
  intros Hall Hmax. eexists. split.
  { unfold ForestInductionTransform.train, ForestInductionTransform.fillNodes.
    apply fillTrees_leaves.
    - eapply Forall2_impl; [exact Hall|]. cbv beta. tauto.
    - reflexivity.
    - exact Hmax. }
  cbn [ForestInductionTransform.totalSize ForestInductionTransform.nodes app].
  unfold ForestInductionTransform.project, ForestInductionTransform.zeros.
  cbn [ForestInductionTransform.totalSize ForestInductionTransform.nodes].
  rewrite Z.add_0_l.
  destruct (0 <=? _)%Z eqn:Hpos; [|apply Z.leb_gt in Hpos; lia].
  cbn [mbind option_bind]. rewrite Nat2Z.id.
  assert (Hlists : Forall2 (fun tree l => NoDup l /\
                      exists node, ml.predict tree (br.m src) = Some node /\ node ∈ l)
                     (ml.trees forest) (map leaves ts)).
  { apply Forall2_fmap_r. eapply Forall2_impl; [exact Hall|]. cbv beta.
    intros tree t ((_ & _ & Hnd & _) & Hp). split; [now apply NoDup_leaves|exact Hp]. }
  pose proof (mark_indicator forest (br.m src) _ _ Hlists 0%nat [] (fun k => eq_refl)) as E.
  cbn [app length] in E. change (Z.of_nat 0) with 0%Z in E. rewrite E.
  cbn [mbind option_bind]. now rewrite zip_with_fmap_r.
Qed.

(** ** Members that hold more lists than the forest has trees *)

Lemma mark_beyond (forest : ml.CvRTrees) (src : cv.Mat) (nodes : list (list ml.ptr)) :
  forall (i : nat) (offset : Z) (responses : list R),
    (i <= length (ml.trees forest))%nat ->
    (length (ml.trees forest) < i + length nodes)%nat ->
    ForestInductionTransform.mark forest src nodes i offset responses = None.
Proof.
  induction nodes as [|l nodes IH]; intros i offset responses Hle Hlt.
  - cbn [length] in Hlt. lia.
  - cbn [ForestInductionTransform.mark]. unfold ml.get_tree.
    destruct (ml.trees forest !! i) as [tree|] eqn:Htree; [|reflexivity].
    apply lookup_lt_Some in Htree. cbn [mbind option_bind].
    destruct (ml.predict tree src) as [node|]; [|reflexivity]. cbn [mbind option_bind].
    destruct (ForestInductionTransform.setAt _ _ _) as [responses'|]; [|reflexivity].
    cbn [mbind option_bind]. apply IH; [lia|]. cbn [length] in Hlt. lia.
Qed.

Lemma fillTrees_length (fuel : nat) (memory : ml.memory) (trees : list ml.CvForestTree) :
  forall members members',
    ForestInductionTransform.fillTrees fuel memory trees members = Some members' ->
    length (ForestInductionTransform.nodes members')
    = (length (ForestInductionTransform.nodes members) + length trees)%nat.
Proof.
  induction trees as [|tree trees IH]; intros members members' E.
  - apply (inj Some) in E as <-. cbn [length]. lia.
  - cbn [ForestInductionTransform.fillTrees] in E.
    destruct (ml.get_root tree) as [root|]; [|discriminate]. cbn [mbind option_bind] in E.
    destruct (ForestInductionTransform.traverse _ _ _ _) as [last|]; [|discriminate].
    cbn [mbind option_bind] in E.
    destruct (addInt _ _) as [totalSize|]; [|discriminate]. cbn [mbind option_bind] in E.
    apply IH in E. rewrite E. cbn [ForestInductionTransform.nodes length].
    rewrite length_app. cbn [length]. lia.
Qed.

(** X16. [fillNodes] never empties the member [nodes]: once it has run
    on a forest that has a tree and then again on the forest that a
    later [trainForest] or [loadModel] has put in its place ([train]
    after [load], or [train] twice), [nodes] holds more lists than that
    forest has trees, and [project] (without regression values) has no
    result on any sample: its loop over [nodes] asks the forest for a
    tree it does not have. *)
Theorem project_after_second_fill (fuel fuel' : nat) (forest forest' : ml.CvRTrees)
    (members members1 members2 : ForestInductionTransform.Members) (src : br.Template) :
  ml.trees forest <> [] ->
  ForestInductionTransform.fillNodes fuel forest members = Some members1 ->
  ForestInductionTransform.fillNodes fuel' forest' members1 = Some members2 ->
  ForestInductionTransform.project false forest' members2 src = None.
Proof.
  intros Hne E1 E2. unfold ForestInductionTransform.fillNodes in *.
  apply fillTrees_length in E1, E2.
  assert (Hlen : (0 < length (ml.trees forest))%nat).
  { destruct (ml.trees forest); [congruence|cbn [length]; lia]. }
  unfold ForestInductionTransform.project.
  destruct (ForestInductionTransform.zeros _) as [responses|]; [|reflexivity].
  cbn [mbind option_bind]. rewrite mark_beyond; [reflexivity|lia|lia].
Qed.


(** ** The forest properties on a forest of one tree *)

Lemma stored_shape : stored Grove.memory None Grove.shape.
Proof.
  cbn [stored Grove.shape root]. repeat split; eexists; (split; [reflexivity|]);
    repeat split; reflexivity.
Qed.

Lemma NoDup_shape : NoDup (addresses Grove.shape).
Proof.
  cbn [addresses Grove.shape app]. rewrite !NoDup_cons, !elem_of_cons, !elem_of_nil.
  repeat split; try lia. apply NoDup_nil_2.
Qed.

Lemma represents_shape : represents 6 Grove.forest Grove.tree Grove.shape.
Proof.
  split; [reflexivity|]. split; [exact stored_shape|]. split; [exact NoDup_shape|].
  cbn [addresses Grove.shape app length]. lia.
Qed.

Lemma traverse_leaves_witness :
  ForestInductionTransform.traverse 6 Grove.memory
    (ForestInductionTransform.Descending 1%nat) [] = Some [2%nat; 3%nat].
Proof.
  apply (traverse_leaves Grove.memory Grove.shape 6).
  - exact stored_shape.
  - exact NoDup_shape.
  - cbn [addresses Grove.shape app length]. lia.
Defined.

Lemma fillNodes_appends_witness :
  ForestInductionTransform.fillNodes 6 Grove.forest
    (ForestInductionTransform.mkMembers 2 [[2%nat; 3%nat]])
  = Some (ForestInductionTransform.mkMembers 4 [[2%nat; 3%nat]; [2%nat; 3%nat]]).
Proof.
  apply (fillNodes_appends 6 Grove.forest [Grove.shape]
           (ForestInductionTransform.mkMembers 2 [[2%nat; 3%nat]])).
  - constructor; [exact represents_shape|constructor].
  - cbn [ForestInductionTransform.totalSize]. lia.
  - cbn [ForestInductionTransform.totalSize map concat leaves Grove.shape app length].
    unfold INT_MAX. lia.
Defined.

Lemma reaches_shape :
  exists node, ml.predict Grove.tree Examples.image = Some node /\ node ∈ [2%nat; 3%nat].
Proof. exists 3%nat. split; [reflexivity|]. rewrite !elem_of_cons. tauto. Qed.

Lemma project_indicator_witness :
  ForestInductionTransform.project false Grove.forest
    (ForestInductionTransform.mkMembers 2 [[2%nat; 3%nat]]) Examples.cornersOnly
  = Some ([indicator Grove.tree Examples.image 2%nat;
           indicator Grove.tree Examples.image 3%nat],
          br.file Examples.cornersOnly).
Proof.
  apply (project_indicator Grove.forest
           (ForestInductionTransform.mkMembers 2 [[2%nat; 3%nat]]) Examples.cornersOnly).
  - reflexivity.
  - constructor; [|constructor]. split; [|exact reaches_shape].
    rewrite !NoDup_cons, !elem_of_cons, !elem_of_nil.
    repeat split; try lia. apply NoDup_nil_2.
Defined.

Lemma train_project_witness :
  exists members,
    ForestInductionTransform.train false 6 Grove.forest
      (ForestInductionTransform.mkMembers 0 []) = Some members /\
    ForestInductionTransform.project false Grove.forest members Examples.cornersOnly
    = Some ([indicator Grove.tree Examples.image 2%nat;
             indicator Grove.tree Examples.image 3%nat],
            br.file Examples.cornersOnly).
Proof.
  apply (train_project 6 Grove.forest [Grove.shape] Examples.cornersOnly).
  - constructor; [|constructor]. split; [exact represents_shape|exact reaches_shape].
  - cbn [map concat leaves Grove.shape app length]. unfold INT_MAX. lia.
Defined.

Lemma project_after_second_fill_witness :
  ForestInductionTransform.project false Grove.forest
    (ForestInductionTransform.mkMembers 4 [[2%nat; 3%nat]; [2%nat; 3%nat]])
    Examples.cornersOnly = None.
Proof.
  apply (project_after_second_fill 6 6 Grove.forest Grove.forest
           (ForestInductionTransform.mkMembers 0 [])
           (ForestInductionTransform.mkMembers 2 [[2%nat; 3%nat]])).
  - discriminate.
  - reflexivity.
  - reflexivity.
Defined.


(** ** A sample that reaches a node that was not collected *)

Lemma indexOf_absent (l : list ml.ptr) (node : ml.ptr) :
  node ∉ l -> ForestInductionTransform.indexOf l node = (-1)%Z.
Proof.
  induction l as [|a l IH]; intros Hnot; [reflexivity|].
  apply not_elem_of_cons in Hnot as [Hne Hnot]. cbn [ForestInductionTransform.indexOf].
  rewrite bool_decide_eq_false_2 by congruence. rewrite IH by exact Hnot. reflexivity.
Qed.

(** X17. When the node that the sample reaches in the first tree is not
    among the nodes collected for that tree (an inner node, since
    [fillNodes] collects leaves only), [indexOf] answers -1 and
    [project] (without regression values) has no result: it addresses
    row -1 of [responses]. *)
Theorem project_unknown_node (forest : ml.CvRTrees)
    (members : ForestInductionTransform.Members) (src : br.Template)
    (tree : ml.CvForestTree) (node : ml.ptr) (first : list ml.ptr)
    (others : list (list ml.ptr)) :
  ForestInductionTransform.nodes members = first :: others ->
  ml.get_tree forest 0 = Some tree ->
  ml.predict tree (br.m src) = Some node ->
  node ∉ first ->
  ForestInductionTransform.project false forest members src = None.
Proof.
  intros Hnodes Htree Hp Hnot. unfold ForestInductionTransform.project.
  destruct (ForestInductionTransform.zeros _) as [responses|]; [|reflexivity].
  cbn [mbind option_bind]. rewrite Hnodes. cbn [ForestInductionTransform.mark].
  rewrite Htree. cbn [mbind option_bind]. rewrite Hp. cbn [mbind option_bind].
  rewrite (indexOf_absent first node Hnot). unfold ForestInductionTransform.setAt.
  cbn [Z.add Z.leb Z.compare andb mbind option_bind]. reflexivity.
Qed.

Lemma project_unknown_node_witness :
  ForestInductionTransform.project false Grove.forest
    (ForestInductionTransform.mkMembers 1 [[2%nat]]) Examples.cornersOnly = None.
Proof.
  apply (project_unknown_node Grove.forest (ForestInductionTransform.mkMembers 1 [[2%nat]])
           Examples.cornersOnly Grove.tree 3%nat [2%nat] []).
  - reflexivity.
  - reflexivity.
  - reflexivity.
  - rewrite elem_of_cons, elem_of_nil. lia.
Defined.

(** * [ForestTransform] *)

(** X18. A [ForestTransform] whose [outputVariable] was left empty and
    whose [overwriteMat] is off, initialized and applied to a sample:
    whenever [project] has a result, it keeps the image, the landmark
    points and the rectangles of the sample and stores the response of
    the forest under [inputVariable], the name the training labels are
    read from, replacing what the sample held there; every other named
    scalar is kept. The response is that of [predict_prob] when
    [classification] and [returnConfidence] are both on, of [predict]
    otherwise. *)
Theorem project_replaces_label (p : ForestTransform.Properties)
    (forest : ForestTransform.CvRTrees) (src : br.Template)
    (out : (cv.Mat + CV_32F.Mat) * br.File) :
  ForestTransform.outputVariable p = EmptyString ->
  ForestTransform.overwriteMat p = false ->
  ForestTransform.project (ForestTransform.init p) forest src = Some out ->
  fst out = inl (br.m src) /\
  br.points (snd out) = br.points (br.file src) /\
  br.rects (snd out) = br.rects (br.file src) /\
  br.get (snd out) (ForestTransform.inputVariable p)
  = (if ForestTransform.classification p && ForestTransform.returnConfidence p
     then ForestTransform.predict_prob forest (br.m src)
     else ForestTransform.predict forest (br.m src)) /\
  forall key, key <> ForestTransform.inputVariable p ->
              br.get (snd out) key = br.get (br.file src) key.
Proof.
  intros Hout Hover. unfold ForestTransform.init, ForestTransform.project.
  rewrite Hout, bool_decide_eq_true_2 by reflexivity.
  cbn [ForestTransform.classification ForestTransform.returnConfidence
       ForestTransform.overwriteMat ForestTransform.outputVariable].
  rewrite Hover.
  destruct (if _ && _ then _ else _) as [response|]; [|discriminate].
  cbn [mbind option_bind]. intros E. apply (inj Some) in E as <-.
  unfold br.get, br.set. cbn [fst snd br.points br.rects br.metadata].
  repeat split.
  - now simplify_map_eq.
  - intros key Hkey. now simplify_map_eq.
Qed.


Lemma project_replaces_label_witness :
  br.get (br.set "Label" (/ 2) (br.file Labelled.sample)) "Label" = Some (/ 2).
Proof.
  destruct (project_replaces_label Labelled.properties Labelled.forest Labelled.sample
              (inl Examples.image, br.set "Label" (/ 2) (br.file Labelled.sample))
              eq_refl eq_refl eq_refl) as (_ & _ & _ & Hlabel & _).
  exact Hlabel.
Defined.


(** * [ForestInductionTransform] with regression values *)

(** X19. With [useRegressionValue] on, [train] leaves the members
    [totalSize] and [nodes] as they are, and [project] does not read
    them: whatever they hold, it answers with one row per tree of the
    forest, the value of the node that the sample reaches in that tree,
    and keeps the file of the sample. *)
Theorem regression_values (fuel : nat) (forest : ml.CvRTrees)
    (members members' : ForestInductionTransform.Members) (src : br.Template) :
  ForestInductionTransform.train true fuel forest members = Some members /\
  ForestInductionTransform.project true forest members src
  = ForestInductionTransform.project true forest members' src /\
  forall responses file,
    ForestInductionTransform.project true forest members src = Some (responses, file) ->
    file = br.file src /\
    length responses = ml.get_tree_count forest /\
    forall i tree, ml.get_tree forest i = Some tree ->
      exists node n, ml.predict tree (br.m src) = Some node /\
                     ml.nodes forest !! node = Some n /\
                     responses !! i = Some (ml.value n).
Proof.
  split; [reflexivity|]. split; [reflexivity|].
  intros responses file E. unfold ForestInductionTransform.project in E.
  destruct (ForestInductionTransform.values forest (br.m src)) as [values|] eqn:Hv;
    [|discriminate].
  cbn [mbind option_bind] in E. apply (inj Some) in E. injection E as <- <-.
  unfold ForestInductionTransform.values in Hv. apply mapM_Some in Hv.
  split; [reflexivity|]. split.
  - symmetry. exact (Forall2_length _ _ _ Hv).
  - intros i tree Htree. unfold ml.get_tree in Htree.
    destruct (Forall2_lookup_l _ _ _ _ _ Hv Htree) as (v & Hi & Hval).
    destruct (ml.predict tree (br.m src)) as [node|]; [|discriminate].
    cbn [mbind option_bind] in Hval.
    destruct (ml.nodes forest !! node) as [n|] eqn:Hn; [|discriminate].
    cbn [mbind option_bind] in Hval. apply (inj Some) in Hval as <-.
    exists node, n. auto.
Qed.

(** * [AdaBoostTransform] *)

(** X20. With [overwriteMat] on, [init] has no effect on what
    [AdaBoostTransform::project] returns, and every result is a 1 x 1
    array with the file of the sample unchanged; with
    [returnConfidence] on, the array holds the sum of the weak
    responses divided by the property [weakCount], and there is no
    result when [weakCount] is 0. *)
Theorem project_overwrites_image (p : AdaBoostTransform.Properties)
    (boost : AdaBoostTransform.CvBoost) (src : br.Template) :
  AdaBoostTransform.overwriteMat p = true ->
  AdaBoostTransform.project (AdaBoostTransform.init p) boost src
  = AdaBoostTransform.project p boost src /\
  (forall out, AdaBoostTransform.project p boost src = Some out ->
     snd out = br.file src /\
     exists image, fst out = inr image /\
       CV_32F.rows image = 1%Z /\ CV_32F.cols image = 1%Z /\
       (AdaBoostTransform.returnConfidence p = true ->
        AdaBoostTransform.weakCount p <> 0%Z /\
        exists sum, AdaBoostTransform.predictSum boost (br.m src) = Some sum /\
                    CV_32F.data image 0 0 = sum / IZR (AdaBoostTransform.weakCount p))).
Proof.
  intros Hover. split.
  - unfold AdaBoostTransform.init. destruct (bool_decide _); [|reflexivity].
    unfold AdaBoostTransform.project, AdaBoostTransform.confidence.
    cbn [AdaBoostTransform.returnConfidence AdaBoostTransform.overwriteMat
         AdaBoostTransform.weakCount].
    rewrite Hover. reflexivity.
  - intros out E. unfold AdaBoostTransform.project in E. rewrite Hover in E.
    destruct (AdaBoostTransform.returnConfidence p) eqn:Hconf.
    + unfold AdaBoostTransform.confidence in E.
      destruct (AdaBoostTransform.predictSum boost (br.m src)) as [sum|]; [|discriminate].
      cbn [mbind option_bind] in E.
      destruct (AdaBoostTransform.weakCount p =? 0)%Z eqn:Hzero; [discriminate|].
      cbn [mbind option_bind] in E. apply (inj Some) in E as <-.
      apply Z.eqb_neq in Hzero. cbn [fst snd]. split; [reflexivity|].
      eexists. split; [reflexivity|]. cbn [CV_32F.rows CV_32F.cols CV_32F.data].
      split; [reflexivity|]. split; [reflexivity|]. intros _. split; [exact Hzero|].
      exists sum. auto.
    + destruct (AdaBoostTransform.predict boost (br.m src)) as [response|]; [|discriminate].
      cbn [mbind option_bind] in E. apply (inj Some) in E as <-.
      cbn [fst snd]. split; [reflexivity|].
      eexists. split; [reflexivity|]. cbn [CV_32F.rows CV_32F.cols].
      split; [reflexivity|]. split; [reflexivity|]. discriminate.
Qed.

Lemma project_overwrites_image_witness :
  AdaBoostTransform.project (AdaBoostTransform.init Boosted.properties) Boosted.boost
    Labelled.sample
  = AdaBoostTransform.project Boosted.properties Boosted.boost Labelled.sample.
Proof.
  exact (proj1 (project_overwrites_image Boosted.properties Boosted.boost Labelled.sample
                  eq_refl)).
Defined.


Lemma regression_values_witness :
  ForestInductionTransform.project true Grove.forest
    (ForestInductionTransform.mkMembers 0 []) Examples.cornersOnly
  = Some ([1], br.file Examples.cornersOnly) /\
  length [1] = ml.get_tree_count Grove.forest.
Proof.
  destruct (regression_values 6 Grove.forest (ForestInductionTransform.mkMembers 0 [])
              (ForestInductionTransform.mkMembers 0 []) Examples.cornersOnly)
    as (_ & _ & Hrows).
  split; [reflexivity|].
  destruct (Hrows [1] (br.file Examples.cornersOnly) eq_refl) as (_ & Hlen & _).
  exact Hlen.
Defined.


(** * [ProcrustesTransform::train] and samples without landmark points *)

Lemma normalizedPoints_filter (data : list br.Template) :
  ProcrustesTransform.normalizedPoints
    (List.filter (fun t => negb (length (br.points (br.file t)) =? 0)%nat) data)
  = ProcrustesTransform.normalizedPoints data.
Proof.
  induction data as [|t data IH]; [reflexivity|].
  cbn [List.filter ProcrustesTransform.normalizedPoints].
  destruct (length (br.points (br.file t)) =? 0)%nat eqn:E; cbn [negb]; [exact IH|].
  cbn [ProcrustesTransform.normalizedPoints]. rewrite E, IH. reflexivity.
Qed.

(** X21. [train] skips every sample without landmark points, whether
    or not it has a rectangle: the mean shape learned from a training
    set is the one learned from its samples that carry landmark
    points. *)
Theorem train_skips_unmarked (data : list br.Template) :
  ProcrustesTransform.train data
  = ProcrustesTransform.train
      (List.filter (fun t => negb (length (br.points (br.file t)) =? 0)%nat) data).
Proof.
  unfold ProcrustesTransform.train. now rewrite normalizedPoints_filter.
Qed.

(** X22. [train] has no result on a training set in which no sample
    carries landmark points, the empty training set included: no shape
    is collected and the first one is asked for. *)
Theorem train_needs_landmarks (data : list br.Template) :
  Forall (fun t => br.points (br.file t) = []) data ->
  ProcrustesTransform.train data = None.
Proof.
  intros Hall. unfold ProcrustesTransform.train.
  assert (E : ProcrustesTransform.normalizedPoints data = Some []).
  { induction Hall as [|t data Ht _ IH]; [reflexivity|].
    cbn [ProcrustesTransform.normalizedPoints]. rewrite Ht. exact IH. }
  rewrite E. reflexivity.
Qed.

Lemma train_needs_landmarks_witness :
  ProcrustesTransform.train [Examples.cornersOnly; Examples.aligned] = None.
Proof.
  apply train_needs_landmarks. repeat constructor.
Defined.


(** * The mean shape of shapes of unequal point counts *)

(** The loop of lines 57-72 when no shape is shorter than the first
    one: row [i] holds the averages of the coordinates of point [i] over
    all shapes. *)
Lemma shapeBuffer_means (first : list Qt.QPointF) (rest : list (list Qt.QPointF)) :
  Forall (fun shape => (length first <= length shape)%nat) rest ->
  ProcrustesTransform.shapeBuffer (first :: rest)
  = Some (Eigen.tabulate (length first) 2
            (fun i j =>
               if (j =? 0)%nat
               then sumR (map (fun shape => Qt.x (nth i shape (Qt.mkQPointF 0 0)))
                            (first :: rest)) / INR (length (first :: rest))
               else sumR (map (fun shape => Qt.y (nth i shape (Qt.mkQPointF 0 0)))
                            (first :: rest)) / INR (length (first :: rest)))).
Proof.
  intros Hall. unfold ProcrustesTransform.shapeBuffer, Qt.at_.
  cbn [lookup list_lookup mbind option_bind]. set (shapes := first :: rest).
  assert (E : mapM (ProcrustesTransform.meanPoint shapes) (seq 0 (length first))
              = Some (map (fun i =>
                  (sumR (map (fun shape => Qt.x (nth i shape (Qt.mkQPointF 0 0))) shapes)
                   / INR (length shapes),
                   sumR (map (fun shape => Qt.y (nth i shape (Qt.mkQPointF 0 0))) shapes)
                   / INR (length shapes))) (seq 0 (length first)))).
  { apply mapM_Some, Forall2_fmap_r, Forall_Forall2_diag, Forall_forall.
    intros i Hi. apply elem_of_seq in Hi. apply meanPoint_total.
    constructor; [lia|]. eapply Forall_impl; [exact Hall|]. cbv beta. intros shape Hs. lia. }
  rewrite E. cbn [mbind option_bind]. f_equal. apply tabulate_ext. intros i j Hi Hj.
  rewrite (nth_map_default _ _ _ _ 0%nat) by (rewrite length_seq; exact Hi).
  rewrite seq_nth by exact Hi. cbn [Nat.add fst snd]. reflexivity.
Qed.

(** C6 (as amended). [train] does not compare the point counts of the
    collected shapes. When every collected shape has at least as many
    points as the first one, a mean shape with the first shape's point
    count is produced: its row [i] holds the averages, over all
    collected shapes, of the coordinates of point [i], and the points of
    a longer shape beyond that count are ignored (the same mean shape
    comes out when every later shape is cut to the first shape's point
    count). When some collected shape has fewer points than the first
    one, the index of lines 63-64 goes out of range and [train] has no
    defined result. *)
Theorem train_point_counts (data : list br.Template)
    (first : list Qt.QPointF) (rest : list (list Qt.QPointF)) :
  ProcrustesTransform.normalizedPoints data = Some (first :: rest) ->
  (Forall (fun shape => (length first <= length shape)%nat) rest ->
   exists meanShape,
     ProcrustesTransform.train data = Some meanShape /\
     Eigen.rows meanShape = length first /\ Eigen.cols meanShape = 2%nat /\
     (forall i, (i < length first)%nat ->
        Eigen.coeff meanShape i 0
        = sumR (map (fun shape => Qt.x (nth i shape (Qt.mkQPointF 0 0))) (first :: rest))
          / INR (length (first :: rest)) /\
        Eigen.coeff meanShape i 1
        = sumR (map (fun shape => Qt.y (nth i shape (Qt.mkQPointF 0 0))) (first :: rest))
          / INR (length (first :: rest))) /\
     ProcrustesTransform.shapeBuffer (first :: map (take (length first)) rest)
     = Some meanShape) /\
  (Exists (fun shape => (length shape < length first)%nat) rest ->
   ProcrustesTransform.train data = None).
Proof.
  intros Hn. unfold ProcrustesTransform.train. rewrite Hn. cbn [mbind option_bind].
  split; [|apply shapeBuffer_short].
  intros Hall. rewrite (shapeBuffer_means first rest Hall).
  eexists. split; [reflexivity|]. split; [reflexivity|]. split; [reflexivity|]. split.
  - intros i Hi. rewrite !coeff_tabulate by lia. cbn [Nat.eqb]. split; reflexivity.
  - rewrite shapeBuffer_means.
    + f_equal. apply tabulate_ext. intros i j Hi Hj. cbn [length map sumR foldr].
      rewrite length_map, !map_map.
      assert (Hnth : forall shape : list Qt.QPointF,
                 nth i (take (length first) shape) (Qt.mkQPointF 0 0)
                 = nth i shape (Qt.mkQPointF 0 0)).
      { intros shape. rewrite nth_firstn.
        destruct (i <? length first)%nat eqn:E; [reflexivity|].
        apply Nat.ltb_ge in E. lia. }
      rewrite (sumR_ext (fun shape => Qt.x (nth i (take (length first) shape)
                                             (Qt.mkQPointF 0 0)))
                 (fun shape => Qt.x (nth i shape (Qt.mkQPointF 0 0))))
        by (intros shape _; now rewrite Hnth).
      rewrite (sumR_ext (fun shape => Qt.y (nth i (take (length first) shape)
                                             (Qt.mkQPointF 0 0)))
                 (fun shape => Qt.y (nth i shape (Qt.mkQPointF 0 0))))
        by (intros shape _; now rewrite Hnth).
      reflexivity.
    + apply Forall_fmap, Forall_forall. intros shape Hin. cbv [compose].
      rewrite Forall_forall in Hall. specialize (Hall shape Hin).
      rewrite length_take_le by exact Hall. lia.
Qed.

Lemma train_point_counts_witness :
  (exists meanShape,
     ProcrustesTransform.train Examples.unequal = Some meanShape /\
     Eigen.rows meanShape = 5%nat /\ Eigen.cols meanShape = 2%nat /\
     ProcrustesTransform.shapeBuffer
       [ProcrustesTransform.normalize Examples.fivePoints;
        take 5 (ProcrustesTransform.normalize Examples.sixPoints)] = Some meanShape) /\
  ProcrustesTransform.train Examples.shorter = None.
Proof.
  split.
  - destruct (proj1 (train_point_counts Examples.unequal _ _ normalizedPoints_unequal))
      as (meanShape & Ht & Hr & Hc & _ & Hcut).
    + constructor; [|constructor]. rewrite !length_normalize. simpl. lia.
    + exists meanShape. rewrite length_normalize in Hr, Hcut. auto.
  - apply (proj2 (train_point_counts Examples.shorter _ _ normalizedPoints_shorter)).
    apply Exists_cons_hd. rewrite !length_normalize. simpl. lia.
Defined.


(** * A sample whose augmented points all coincide *)


